(** * kt-connect: the [connect] command (pkg/kt/command/connect.go)

    A shallow embedding of the connect orchestration: option completion
    (TUN address allocation), the running-daemon check, [connectToCluster],
    the shadow naming policy, the host table merge and the label and
    environment maps handed to the shadow provisioner.

    Go values are modelled as follows: [string] for Go strings, [gmap string
    string] for [map[string]string] (under an [option] where the map may be
    nil), [option error] for an [error] that may be [nil], tuples for
    multiple return values.  The options structure is shared by pointer in
    the source, so it lives in the [World] that every effectful function
    threads; collaborator calls and log lines are collected, in program
    order, as a list of [Event]s.  A run-time panic ends the run: it is
    recorded as the last event and passed up as the result of every caller,
    none of which recovers from it. *)

From Stdlib Require Import ZArith Lia Ascii String.
From stdpp Require Import base strings gmap list fin_maps pretty sorting.

Local Open Scope string_scope.
Local Open Scope Z_scope.

(** ** Errors *)

(** The error values that flow through [connect.go].  [ParseError] is what
    the CIDR parser reports, [ErrFull] is the allocator's sentinel for an
    exhausted range, [Errorf] is an error built with [fmt.Errorf], and
    [Failure] stands for whatever a collaborator (cluster client, registry,
    file system) reports.  [Panic] is a run-time panic (a [runtime.Error]):
    it is not a value the code returns but the way a run ends when one is
    raised, no function of this file recovering from it. *)
Inductive error : Type :=
| ParseError (text : string)
| ErrFull
| Errorf (msg : string)
| Failure (msg : string)
| Panic (msg : string).

(** [err.Error()] *)
Definition Error (e : error) : string :=
  match e with
  | ParseError text => "invalid CIDR address: " +:+ text
  | ErrFull => "range is full"
  | Errorf msg => msg
  | Failure msg => msg
  | Panic msg => msg
  end.

#[global] Instance error_eq_dec : EqDecision error.
Proof. solve_decision. Defined.

(** ** Package [common]: constants used by [connect.go]

    The constants are declared outside this file; they are taken as a
    parameter.  Statements that depend on two keys being different say so. *)
Record Common : Type := {
  ConnectMethodTun : string;
  ConnectMethodSocks : string;
  ControlBy : string;
  KubernetesTool : string;
  KTComponent : string;
  ComponentConnect : string;
  KTName : string;
  KTVersion : string;
  EnvVarLocalDomain : string;
  ClientTunIP : string;
  ServerTunIP : string;
}.

(** ** Package [options] *)

Section Options.
(** [registry.ProxyConfig] is an opaque structure for this file. *)
Context {ProxyConfigT : Type}.

Record ConnectOptionsT : Type := {
  Method : string;
  TunCidr : string;
  SourceIP : string;
  DestIP : string;
  SocksPort : Z;
  ShareShadow : bool;
  Dump2HostsNamespaces : list string;
  LocalDomain : string;
}.

Record RuntimeOptionsT : Type := {
  PidFile : string;
  Shadow : string;
  SSHCM : string;
  ProxyConfig : ProxyConfigT;
  Dump2Host : bool;
}.

Record DaemonOptions : Type := {
  Namespace : string;
  Labels : string;
  Debug : bool;
  ConnectOptions : ConnectOptionsT;
  RuntimeOptions : RuntimeOptionsT;
}.
End Options.

Arguments RuntimeOptionsT : clear implicits.
Arguments DaemonOptions : clear implicits.

(** Field updates, one per assignment that [connect.go] performs. *)
Section Setters.
Context {ProxyConfigT : Type}.

Definition withConnect (f : ConnectOptionsT → ConnectOptionsT)
    (o : DaemonOptions ProxyConfigT) : DaemonOptions ProxyConfigT :=
  {| Namespace := Namespace o; Labels := Labels o; Debug := Debug o;
     ConnectOptions := f (ConnectOptions o);
     RuntimeOptions := RuntimeOptions o |}.

Definition withRuntime
    (f : RuntimeOptionsT ProxyConfigT → RuntimeOptionsT ProxyConfigT)
    (o : DaemonOptions ProxyConfigT) : DaemonOptions ProxyConfigT :=
  {| Namespace := Namespace o; Labels := Labels o; Debug := Debug o;
     ConnectOptions := ConnectOptions o;
     RuntimeOptions := f (RuntimeOptions o) |}.

Definition setSourceIP (ip : string) (c : ConnectOptionsT) : ConnectOptionsT :=
  {| Method := Method c; TunCidr := TunCidr c; SourceIP := ip;
     DestIP := DestIP c; SocksPort := SocksPort c;
     ShareShadow := ShareShadow c;
     Dump2HostsNamespaces := Dump2HostsNamespaces c;
     LocalDomain := LocalDomain c |}.

Definition setDestIP (ip : string) (c : ConnectOptionsT) : ConnectOptionsT :=
  {| Method := Method c; TunCidr := TunCidr c; SourceIP := SourceIP c;
     DestIP := ip; SocksPort := SocksPort c;
     ShareShadow := ShareShadow c;
     Dump2HostsNamespaces := Dump2HostsNamespaces c;
     LocalDomain := LocalDomain c |}.

Definition setShadow (name : string) (r : RuntimeOptionsT ProxyConfigT) :=
  {| PidFile := PidFile r; Shadow := name; SSHCM := SSHCM r;
     ProxyConfig := ProxyConfig r; Dump2Host := Dump2Host r |}.

Definition setSSHCM (cm : string) (r : RuntimeOptionsT ProxyConfigT) :=
  {| PidFile := PidFile r; Shadow := Shadow r; SSHCM := cm;
     ProxyConfig := ProxyConfig r; Dump2Host := Dump2Host r |}.

Definition setProxyConfig (pc : ProxyConfigT) (r : RuntimeOptionsT ProxyConfigT) :=
  {| PidFile := PidFile r; Shadow := Shadow r; SSHCM := SSHCM r;
     ProxyConfig := pc; Dump2Host := Dump2Host r |}.

Definition setDump2Host (b : bool) (r : RuntimeOptionsT ProxyConfigT) :=
  {| PidFile := PidFile r; Shadow := Shadow r; SSHCM := SSHCM r;
     ProxyConfig := ProxyConfig r; Dump2Host := b |}.
End Setters.

(** ** Package [strings] *)

(** [strings.Split(s, sep)] for a one-character separator: the pieces of
    [s] between occurrences of [sep].  The result is never empty; a string
    without the separator is its own single piece. *)
Fixpoint Split (s : string) (sep : ascii) : list string :=
  match s with
  | EmptyString => [EmptyString]
  | String c s' =>
      if decide (c = sep) then EmptyString :: Split s' sep
      else match Split s' sep with
           | seg :: rest => String c seg :: rest
           | [] => [String c EmptyString]
           end
  end.

(** Occurrence of a character in a string. *)
Fixpoint occurs (c : ascii) (s : string) : bool :=
  match s with
  | EmptyString => false
  | String c' s' => if decide (c' = c) then true else occurs c s'
  end.

(** [strings.ToLower] on ASCII text. *)
Definition lowerChar (c : ascii) : ascii :=
  let n := nat_of_ascii c in
  if (Nat.leb 65 n && Nat.leb n 90)%bool then ascii_of_nat (n + 32) else c.

Fixpoint ToLower (s : string) : string :=
  match s with
  | EmptyString => EmptyString
  | String c s' => String (lowerChar c) (ToLower s')
  end.

(** [for k, v := range src { dst[k] = v }] *)
Definition copyInto (src dst : gmap string string) : gmap string string :=
  map_fold (λ k v acc, <[k := v]> acc) dst src.

(** ** [labels] and [envs] *)

Section LabelsEnvs.
Context {ProxyConfigT : Type}.
Variable common : Common.
(** [util.String2Map] parses the label option; it is declared outside
    this file and taken as a parameter. *)
Variable String2Map : string → gmap string string.

(** [splits[len(splits)-1]].  [Split] never returns an empty slice
    ([Split_nonempty] below), so the index is always in range and the
    default of [List.last] is never taken. *)
Definition lastSplit (workload : string) : string :=
  List.last (Split workload "-"%char) "".

Definition labels (workload : string) (options : DaemonOptions ProxyConfigT)
    : gmap string string :=
  let labels : gmap string string :=
    <[KTName common := workload]>
      (<[KTComponent common := ComponentConnect common]>
        (<[ControlBy common := KubernetesTool common]> ∅)) in
  let labels := copyInto (String2Map (Labels options)) labels in
  <[KTVersion common := lastSplit workload]> labels.

Definition envs (options : DaemonOptions ProxyConfigT) : gmap string string :=
  let envs : gmap string string := ∅ in
  let envs :=
    if decide (LocalDomain (ConnectOptions options) ≠ "")
    then <[EnvVarLocalDomain common := LocalDomain (ConnectOptions options)]> envs
    else envs in
  let envs :=
    if decide (Method (ConnectOptions options) = ConnectMethodTun common)
    then <[ServerTunIP common := DestIP (ConnectOptions options)]>
           (<[ClientTunIP common := SourceIP (ConnectOptions options)]> envs)
    else envs in
  envs.
End LabelsEnvs.

(** ** Packages [net] and [ipallocator]

    Neither package is part of this repository.  The CIDR parser and the
    textual form of an address are parameters; the allocation range is
    modelled from the design document, and its size follows the size
    function of the allocator package. *)

(** A parsed network: its base address as a number, the number of leading
    one bits of its mask and the width of an address in bits ([32] or
    [128]). *)
Record IPNet : Type := {
  IP : Z;
  Ones : Z;
  Bits : Z;
}.

(** Number of host bits of a network. *)
Definition hostBits (n : IPNet) : Z := Bits n - Ones n.

(** [n.Contains(ip)]: [ip] agrees with the network on every mask bit. *)
Definition Contains (n : IPNet) (ip : Z) : bool :=
  bool_decide (Z.shiftr ip (hostBits n) = Z.shiftr (IP n) (hostBits n)).

(** The two boundary addresses of a network. *)
Definition networkAddress (n : IPNet) : Z :=
  Z.shiftl (Z.shiftr (IP n) (hostBits n)) (hostBits n).

Definition broadcastAddress (n : IPNet) : Z :=
  networkAddress n + 2 ^ hostBits n - 1.

(** Modelled from the spec: the allocation bitmap of package [allocator]
    (section 4.3, "a contiguous bitmap-backed allocation space").  Bit [i]
    of [allocated] is set when offset [i] has been handed out; [count] is
    the number of offsets handed out; [max] is the size of the space. *)
Record AllocationBitmap : Type := {
  allocated : Z;
  count : Z;
  max : Z;
}.

(** Modelled from the spec: [allocator.NewContiguousAllocationMap]. *)
Definition NewContiguousAllocationMap (max : Z) (rangeSpec : string)
    : AllocationBitmap :=
  {| allocated := 0; count := 0; max := max |}.

(** Modelled from the spec: the contiguous scan, the first offset in
    [i, i + fuel) whose bit is clear. *)
Fixpoint scanFree (allocated : Z) (i : Z) (fuel : nat) : option Z :=
  match fuel with
  | O => None
  | S fuel' =>
      if Z.testbit allocated i then scanFree allocated (i + 1) fuel'
      else Some i
  end.

(** Modelled from the spec: the bitmap's [AllocateNext], "draws addresses
    in allocation order": the lowest free offset is marked and returned;
    [None] when the space is exhausted. *)
Definition bitmapAllocateNext (a : AllocationBitmap)
    : AllocationBitmap * option Z :=
  if decide (max a ≤ count a) then (a, None)
  else match scanFree (allocated a) 0 (Z.to_nat (max a)) with
       | None => (a, None)
       | Some next =>
           ({| allocated := Z.setbit (allocated a) next;
               count := count a + 1; max := max a |}, Some next)
       end.

(** Modelled from the spec: the [AllocationRange] of section 3 ("wraps a
    parsed CIDR") over "the network's host addresses": the first address of
    the range is the one after the network address, and the range holds
    [usable] addresses. *)
Record Range : Type := {
  net : IPNet;
  base : Z;
  rmax : Z;
  alloc : AllocationBitmap;
}.

(** The host addresses of a network by the plain count: all its addresses
    but the network address and the broadcast address. *)
Definition hostAddresses (n : IPNet) : Z := 2 ^ hostBits n - 2.

(** [ipallocator.RangeSize], of the imported allocator package (not part
    of this repository), with the three cases of that function: a 32-bit
    network of 31 or more host bits, or a 128-bit network of 127 or more,
    has size [0]; a 128-bit network of 16 or more host bits has size
    [1 << 16]; any other network has size [1 << (bits - ones)]. *)
Definition RangeSize (subnet : IPNet) : Z :=
  let ones := Ones subnet in
  let bits := Bits subnet in
  if decide ((bits = 32 ∧ 31 ≤ bits - ones) ∨ (bits = 128 ∧ 127 ≤ bits - ones))
  then 0
  else if decide (bits = 128 ∧ 16 ≤ bits - ones) then Z.shiftl 1 16
  else Z.shiftl 1 (bits - ones).

(** The number of addresses the allocator can hand out for a network:
    [maximum(0, int(max-2))] in [NewAllocatorCIDRRange], the size of the
    range without the network and the broadcast address. *)
Definition usable (subnet : IPNet) : Z := Z.max 0 (RangeSize subnet - 2).

(** The base address of a parsed network has no host bit set. *)
Definition masked (n : IPNet) : Prop := IP n `mod` 2 ^ hostBits n = 0.

(** Modelled from the spec: [ipallocator.NewAllocatorCIDRRange]. *)
Definition NewAllocatorCIDRRange (cidr : IPNet)
    (allocatorFactory : Z → string → AllocationBitmap * option error)
    (rangeSpec : string) : Range * option error :=
  let max := usable cidr in
  let '(a, err) := allocatorFactory max rangeSpec in
  ({| net := cidr; base := IP cidr + 1; rmax := max; alloc := a |}, err).

(** Modelled from the spec: [Range.AllocateNext], which "fails with
    RangeExhausted" ([ErrFull]) when no address is left. *)
Definition AllocateNext (r : Range) : Range * Z * option error :=
  match bitmapAllocateNext (alloc r) with
  | (a, None) =>
      ({| net := net r; base := base r; rmax := rmax r; alloc := a |},
       0, Some ErrFull)
  | (a, Some offset) =>
      ({| net := net r; base := base r; rmax := rmax r; alloc := a |},
       base r + offset, None)
  end.

(** ** [allocateTunIP] *)

Section AllocateTunIP.
(** [net.ParseCIDR], keeping the network and the error. *)
Variable ParseCIDR : string → IPNet + error.
(** [IPNet.String] and [IP.String]. *)
Variable IPNetString : IPNet → string.
Variable IPString : Z → string.

Definition allocateTunIP (cidr : string) : string * string * option error :=
  match ParseCIDR cidr with
  | inr err => ("", "", Some err)
  | inl ipnet =>
      match NewAllocatorCIDRRange ipnet
              (λ max rangeSpec, (NewContiguousAllocationMap max rangeSpec, None))
              (IPNetString ipnet) with
      | (_, Some err) => ("", "", Some err)
      | (rge, None) =>
          match AllocateNext rge with
          | (_, _, Some err) => ("", "", Some err)
          | (rge, ip1, None) =>
              match AllocateNext rge with
              | (_, _, Some err) => ("", "", Some err)
              | (_, ip2, None) => (IPString ip1, IPString ip2, None)
              end
          end
      end
  end.
End AllocateTunIP.

(** ** The world of a connect process *)

Inductive Level : Type := DebugLevel | InfoLevel | ErrorLevel.

(** A [map[string]string] that may be the nil map ([None]), as the service
    table a cluster client answers may be.  Ranging over the nil map visits
    nothing; assigning to an entry of the nil map panics. *)
Definition Table : Type := option (gmap string string).

(** The entries a loop over a table visits. *)
Definition entries (t : Table) : gmap string string := default ∅ t.

(** The message of the panic raised by an assignment to an entry of the nil
    map. *)
Definition nilMapAssignment : string := "assignment to entry in nil map".

(** The state of a loop: still running with its loop-carried variable, or
    left by a panic. *)
Inductive Flow (A : Type) : Type :=
| Running (a : A)
| Panicked (p : error).

Arguments Running {A} a.
Arguments Panicked {A} p.

Section Orchestrator.
(** [registry.ProxyConfig] and [util.SSHCredential] are opaque here. *)
Context {ProxyConfigT SSHCredential : Type}.

(** What the process does to its surroundings, in program order: calls to
    collaborators (with the error they answered, where they answer one),
    log lines, and the panic that ends a run. *)
Inductive Event : Type :=
| EvSetGlobalLevel (level : Level)
| EvAllocateTunIP (cidr : string) (err : option error)
| EvCombineKubeOpts (err : option error)
| EvIsDaemonRunning (pidFile : string) (running : bool)
| EvSetUpCloseHandler (name : string)
| EvWritePidFile (pidFile : string) (pid : Z) (err : option error)
| EvKubernetes (err : option error)
| EvServiceHosts (namespace : string)
| EvDumpHosts (hosts : Table)
| EvSetGlobalProxy (port : Z) (err : option error)
| EvSetHttpProxyEnvironmentVariable (port : Z) (err : option error)
| EvGetOrCreateShadow (workload : string)
    (labels annotations envs : gmap string string) (err : option error)
| EvClusterCrids (namespace : string) (err : option error)
| EvOutbound (podName endPointIP : string)
    (credential : option SSHCredential) (cidrs : list string)
    (err : option error)
| EvLog (level : Level) (msg : string)
| EvPanic (msg : string).

(** The mutable state a connect process works on: the options structure
    (shared by pointer in the source), the pid files on disk and the set of
    live processes. *)
Record World : Type := {
  options : DaemonOptions ProxyConfigT;
  pidFiles : gmap string Z;
  processes : gset Z;
}.

(** [cluster.KubernetesInterface], the methods [connect.go] calls.  The
    cluster is taken as fixed during one run: a method answers the same for
    the same arguments.  A service table is a map from service name to
    address, and may be the nil map. *)
Record KubernetesInterface : Type := {
  ServiceHosts : string → Table;
  GetOrCreateShadow :
    string → DaemonOptions ProxyConfigT →
    gmap string string → gmap string string → gmap string string →
    string * string * string * option SSHCredential * option error;
  ClusterCrids : string → ConnectOptionsT → list string * option error;
}.

(** [kt.CliInterface]: [cli.Kubernetes()] and the [Outbound] method of
    [cli.Shadow()] (with [cli.Exec()] already supplied). *)
Record CliInterface : Type := {
  Kubernetes : KubernetesInterface * option error;
  Outbound :
    string → string → option SSHCredential → list string → option error;
}.

(** The functions of packages [util], [registry], [net] and of the rest of
    package [command] that [connect.go] calls and that are declared
    elsewhere. *)
Record Host : Type := {
  Getpid : Z;
  IsWindows : bool;
  RandomString : Z → string;
  String2Map : string → gmap string string;
  ParseCIDR : string → IPNet + error;
  IPNetString : IPNet → string;
  IPString : Z → string;
  pidFileWriteError : string → option error;
  SetGlobalProxy : Z → ProxyConfigT → ProxyConfigT * option error;
  SetHttpProxyEnvironmentVariable : Z → ProxyConfigT → ProxyConfigT * option error;
  combineKubeOpts :
    DaemonOptions ProxyConfigT → DaemonOptions ProxyConfigT * option error;
  TerminalSignal : string;
}.

(** *** The state monad of the orchestration *)

Definition M (A : Type) : Type := World → A * World * list Event.

Definition ret {A} (a : A) : M A := λ w, (a, w, []).

Definition bind {A B} (m : M A) (k : A → M B) : M B := λ w,
  let '(a, w1, evs1) := m w in
  let '(b, w2, evs2) := k a w1 in
  (b, w2, (evs1 ++ evs2)%list).

#[local] Instance M_ret : MRet M := @ret.
#[local] Instance M_bind : MBind M := λ A B k m, bind m k.

Definition emit (e : Event) : M unit := λ w, (tt, w, [e]).

Definition getOptions : M (DaemonOptions ProxyConfigT) := λ w, (options w, w, []).

Definition withOptions
    (f : DaemonOptions ProxyConfigT → DaemonOptions ProxyConfigT)
    (w : World) : World :=
  {| options := f (options w); pidFiles := pidFiles w;
     processes := processes w |}.

Definition withPidFiles (f : gmap string Z → gmap string Z)
    (w : World) : World :=
  {| options := options w; pidFiles := f (pidFiles w);
     processes := processes w |}.

Definition modifyOptions
    (f : DaemonOptions ProxyConfigT → DaemonOptions ProxyConfigT) : M unit :=
  λ w, (tt, withOptions f w, []).

(** [log.Info().Msgf], [log.Debug().Msgf], [log.Error().Msgf] *)
Definition logMsg (level : Level) (msg : string) : M unit := emit (EvLog level msg).

(** A loop over a slice, threading the loop-carried variable [b]. *)
Fixpoint forEach {A B} (body : A → B → M B) (l : list A) (b : B) : M B :=
  match l with
  | [] => ret b
  | x :: l' => b' ← body x b; forEach body l' b'
  end.

(** [for k, v := range m]: Go visits the entries of a map in an unspecified
    order; the model visits them in the order of [map_to_list].  The nil map
    has no entry to visit. *)
Definition rangeMap {B} (m : Table)
    (body : string → string → B → M B) (b : B) : M B :=
  forEach (λ kv, body kv.1 kv.2) (map_to_list (entries m)) b.

Variable common : Common.
Variable host : Host.

(** *** The exclusivity lock (package [util]) *)

(** Modelled from the spec: the test behind [util.IsDaemonRunning],
    which is declared outside this file.  Section 4.1, step 1: the lock is
    held when "the file exists and its owner process is alive". *)
Definition lockHeld (pidFile : string) (w : World) : bool :=
  match pidFiles w !! pidFile with
  | Some pid => bool_decide (pid ∈ processes w)
  | None => false
  end.

(** Modelled from the spec: [util.IsDaemonRunning], the test above as a
    step of the run. *)
Definition IsDaemonRunning (pidFile : string) : M bool := λ w,
  (lockHeld pidFile w, w, [EvIsDaemonRunning pidFile (lockHeld pidFile w)]).

(** Modelled from the spec: [util.WritePidFile] is declared outside this
    file.  Section 4.1, step 1: "writing the current process identity to a
    well-known lock file"; the write itself can fail like any file
    operation, in which case nothing is written. *)
Definition WritePidFile (pidFile : string) : M (Z * option error) := λ w,
  let pid := Getpid host in
  match pidFileWriteError host pidFile with
  | Some err => ((pid, Some err), w, [EvWritePidFile pidFile pid (Some err)])
  | None =>
      ((pid, None), withPidFiles (insert pidFile pid) w,
       [EvWritePidFile pidFile pid None])
  end.

(** *** [CompleteOptions] *)

Definition CompleteOptions : M (option error) :=
  o ← getOptions;
  if decide (Method (ConnectOptions o) = ConnectMethodTun common) then
    let '(srcIP, destIP, err) :=
      allocateTunIP (ParseCIDR host) (IPNetString host) (IPString host)
        (TunCidr (ConnectOptions o)) in
    emit (EvAllocateTunIP (TunCidr (ConnectOptions o)) err);;
    match err with
    | Some e => ret (Some e)
    | None =>
        modifyOptions (withConnect (setSourceIP srcIP));;
        modifyOptions (withConnect (setDestIP destIP));;
        ret None
    end
  else ret None.

(** *** [setupDump2Host] *)

(** [hosts[key] = value]: the table with the entry written, or the panic
    of the nil map. *)
Definition assign (key value : string) (hosts : Table) : M (Flow Table) :=
  match hosts with
  | None =>
      emit (EvPanic nilMapAssignment);;
      ret (Panicked (Panic nilMapAssignment))
  | Some h => ret (Running (Some (<[key := value]> h)))
  end.

(** The body of the inner loop: one service of an additional namespace.
    Once a panic has left the loop no further iteration runs. *)
Definition dumpService (namespace svc ip : string)
    (hosts : Flow Table) : M (Flow Table) :=
  match hosts with
  | Panicked p => ret (Panicked p)
  | Running hosts =>
      if decide (ip = "" ∨ ip = "None") then ret (Running hosts)
      else
        logMsg InfoLevel
          ("Service found: " +:+ svc +:+ "." +:+ namespace +:+ " " +:+ ip);;
        assign (svc +:+ "." +:+ namespace) ip hosts
  end.

(** The body of the outer loop: one additional namespace. *)
Definition dumpNamespace (kubernetes : KubernetesInterface)
    (namespace : string) (hosts : Flow Table) : M (Flow Table) :=
  match hosts with
  | Panicked p => ret (Panicked p)
  | Running hosts =>
      o ← getOptions;
      if decide (namespace = Namespace o) then ret (Running hosts)
      else
        logMsg DebugLevel
          ("Search service in " +:+ namespace +:+ " namespace...");;
        emit (EvServiceHosts namespace);;
        let singleHosts := ServiceHosts kubernetes namespace in
        rangeMap singleHosts (dumpService namespace) (Running hosts)
  end.

(** The function returns nothing in the source; the result here is the
    panic that ended it, if any.  After a panic neither [util.DumpHosts] is
    called nor the [Dump2Host] flag raised. *)
Definition setupDump2Host (kubernetes : KubernetesInterface)
    : M (option error) :=
  o ← getOptions;
  emit (EvServiceHosts (Namespace o));;
  let hosts := ServiceHosts kubernetes (Namespace o) in
  rangeMap hosts
    (λ k v _, logMsg InfoLevel ("Service found: " +:+ k +:+ " " +:+ v)) tt;;
  hosts ←
    (if decide (0 < length (Dump2HostsNamespaces (ConnectOptions o)))%nat
     then forEach (dumpNamespace kubernetes)
            (Dump2HostsNamespaces (ConnectOptions o)) (Running hosts)
     else ret (Running hosts));
  match hosts with
  | Panicked p => ret (Some p)
  | Running hosts =>
      emit (EvDumpHosts hosts);;
      modifyOptions (withRuntime (setDump2Host true));;
      ret None
  end.

(** *** [getOrCreateShadow] *)

(** The incoming [err] is a parameter of the source function; it is
    overwritten by the provisioner's answer before it is ever read. *)
Definition getOrCreateShadow (err : option error)
    (kubernetes : KubernetesInterface)
    : M (string * string * option SSHCredential * option error) :=
  o ← getOptions;
  let workload := "kt-connect-daemon-" +:+ ToLower (RandomString host 5) in
  let workload :=
    if ShareShadow (ConnectOptions o) then "kt-connect-daemon-connect-shared"
    else workload in
  let annotations : gmap string string := ∅ in
  let lbls := labels common (String2Map host) workload o in
  let '(endPointIP, podName, sshcm, credential, err) :=
    GetOrCreateShadow kubernetes workload o lbls annotations (envs common o) in
  emit (EvGetOrCreateShadow workload lbls annotations (envs common o) err);;
  match err with
  | Some e => ret ("", "", None, Some e)
  | None =>
      modifyOptions (withRuntime (setShadow workload));;
      modifyOptions (withRuntime (setSSHCM sshcm));;
      ret (endPointIP, podName, credential, None)
  end.

(** *** [connectToCluster] *)

(** The two proxy registrations of the socks method.  Each call may update
    the proxy configuration it is handed by pointer; a failure is logged
    and the remaining error is the second call's. *)
Definition setupSocksProxy : M (option error) :=
  o1 ← getOptions;
  let '(pc, err) :=
    SetGlobalProxy host (SocksPort (ConnectOptions o1))
      (ProxyConfig (RuntimeOptions o1)) in
  emit (EvSetGlobalProxy (SocksPort (ConnectOptions o1)) err);;
  modifyOptions (withRuntime (setProxyConfig pc));;
  match err with
  | Some e =>
      logMsg ErrorLevel ("Failed to setup global connect proxy: " +:+ Error e)
  | None => ret tt
  end;;
  o2 ← getOptions;
  let '(pc, err) :=
    SetHttpProxyEnvironmentVariable host (SocksPort (ConnectOptions o2))
      (ProxyConfig (RuntimeOptions o2)) in
  emit (EvSetHttpProxyEnvironmentVariable (SocksPort (ConnectOptions o2)) err);;
  modifyOptions (withRuntime (setProxyConfig pc));;
  match err with
  | Some e =>
      logMsg ErrorLevel ("Failed to setup global http proxy: " +:+ Error e)
  | None => ret tt
  end;;
  ret err.

(** Lines 104 to 114: provisioning, CIDR query and transport hand-off. *)
Definition provisionAndHandOff (cli : CliInterface)
    (kubernetes : KubernetesInterface) (err : option error)
    : M (option error) :=
  '(endPointIP, podName, credential, err) ← getOrCreateShadow err kubernetes;
  match err with
  | Some e => ret (Some e)
  | None =>
      o ← getOptions;
      let '(cidrs, err) :=
        ClusterCrids kubernetes (Namespace o) (ConnectOptions o) in
      emit (EvClusterCrids (Namespace o) err);;
      match err with
      | Some e => ret (Some e)
      | None =>
          let err := Outbound cli podName endPointIP credential cidrs in
          emit (EvOutbound podName endPointIP credential cidrs err);;
          ret err
      end
  end.

(** Lines 90 to 114: everything after the cluster handle was obtained.  A
    panic of the host table builder ends the run there: it is passed up as
    the result and no later step happens. *)
Definition connectWith (cli : CliInterface)
    (kubernetes : KubernetesInterface) : M (option error) :=
  o ← getOptions;
  panic ←
    (if decide (IsWindows host = true
                ∨ (0 < length (Dump2HostsNamespaces (ConnectOptions o)))%nat)
     then setupDump2Host kubernetes else ret None);
  match panic with
  | Some p => ret (Some p)
  | None =>
      o ← getOptions;
      err ←
        (if decide (Method (ConnectOptions o) = ConnectMethodSocks common)
         then setupSocksProxy else ret None);
      provisionAndHandOff cli kubernetes err
  end.

Definition connectToCluster (cli : CliInterface) : M (option error) :=
  o ← getOptions;
  '(pid, err) ← WritePidFile (PidFile (RuntimeOptions o));
  match err with
  | Some e => ret (Some e)
  | None =>
      logMsg InfoLevel ("Connect start at " +:+ pretty pid);;
      let '(kubernetes, err) := Kubernetes cli in
      emit (EvKubernetes err);;
      match err with
      | Some e => ret (Some e)
      | None => connectWith cli kubernetes
      end
  end.

(** *** [Connect] *)

(** The goroutine that watches the background process and the blocking
    receive on the close handler's channel are represented by the signal
    the receive eventually yields, [TerminalSignal].  A panic that comes up
    from [connectToCluster] passes through like an error: nothing after the
    call runs. *)
Definition Connect (cli : CliInterface) : M (option error) :=
  o ← getOptions;
  running ← IsDaemonRunning (PidFile (RuntimeOptions o));
  if (running : bool) then
    ret (Some (Errorf ("another connect process already running with "
                       +:+ PidFile (RuntimeOptions o) +:+ ", exiting")))
  else
    emit (EvSetUpCloseHandler "connect");;
    err ← connectToCluster cli;
    match err with
    | Some e => ret (Some e)
    | None =>
        logMsg InfoLevel ("Terminal signal is " +:+ TerminalSignal host);;
        ret None
    end.

(** *** The action of [newConnectCommand] *)

Definition Action (cli : CliInterface) : M (option error) :=
  o ← getOptions;
  (if Debug o then emit (EvSetGlobalLevel DebugLevel) else ret tt);;
  err ← CompleteOptions;
  match err with
  | Some e => ret (Some e)
  | None =>
      o1 ← getOptions;
      let '(o2, err) := combineKubeOpts host o1 in
      emit (EvCombineKubeOpts err);;
      modifyOptions (λ _, o2);;
      match err with
      | Some e => ret (Some e)
      | None => Connect cli
      end
  end.

End Orchestrator.

(** ** Reading the event list *)

Section Reading.
Context {SSHCredential : Type}.

(** The workload names the shadow provisioner was asked for. *)
Definition requestedWorkloads (evs : list (@Event SSHCredential)) : list string :=
  omap (λ ev, match ev with
              | EvGetOrCreateShadow workload _ _ _ _ => Some workload
              | _ => None
              end) evs.

(** The calls of [util.DumpHosts], each with the table it was handed. *)
Definition dumpCalls (evs : list (@Event SSHCredential)) : list Table :=
  omap (λ ev, match ev with EvDumpHosts hosts => Some hosts | _ => None end) evs.

(** The tables handed to [util.DumpHosts], the nil map apart. *)
Definition dumpedHosts (evs : list (@Event SSHCredential))
    : list (gmap string string) :=
  omap (λ ev, match ev with EvDumpHosts hosts => hosts | _ => None end) evs.

(** The panics of a run. *)
Definition panics (evs : list (@Event SSHCredential)) : list string :=
  omap (λ ev, match ev with EvPanic msg => Some msg | _ => None end) evs.

(** The errors the shadow provisioner answered. *)
Definition shadowFailures (evs : list (@Event SSHCredential)) : list error :=
  omap (λ ev, match ev with
              | EvGetOrCreateShadow _ _ _ _ (Some e) => Some e
              | _ => None
              end) evs.

(** Steps that come after shadow provisioning: the CIDR query and the
    transport hand-off. *)
Definition isHandOff (ev : @Event SSHCredential) : bool :=
  match ev with
  | EvClusterCrids _ _ | EvOutbound _ _ _ _ _ => true
  | _ => false
  end.

Definition isShadowCall (ev : @Event SSHCredential) : bool :=
  match ev with EvGetOrCreateShadow _ _ _ _ _ => true | _ => false end.

Definition isAllocation (ev : @Event SSHCredential) : bool :=
  match ev with EvAllocateTunIP _ _ => true | _ => false end.

(** The place of a step in the run of the command, in the order in which
    [newConnectCommand], [Connect] and [connectToCluster] are written; log
    lines have none.  A panic of the host table builder stands where the
    dump it prevents would have been. *)
Definition stage (ev : @Event SSHCredential) : option nat :=
  match ev with
  | EvLog _ _ => None
  | EvSetGlobalLevel _ => Some 0%nat
  | EvAllocateTunIP _ _ => Some 1%nat
  | EvCombineKubeOpts _ => Some 2%nat
  | EvIsDaemonRunning _ _ => Some 3%nat
  | EvSetUpCloseHandler _ => Some 4%nat
  | EvWritePidFile _ _ _ => Some 5%nat
  | EvKubernetes _ => Some 6%nat
  | EvServiceHosts _ => Some 7%nat
  | EvDumpHosts _ => Some 8%nat
  | EvPanic _ => Some 8%nat
  | EvSetGlobalProxy _ _ => Some 9%nat
  | EvSetHttpProxyEnvironmentVariable _ _ => Some 10%nat
  | EvGetOrCreateShadow _ _ _ _ _ => Some 11%nat
  | EvClusterCrids _ _ => Some 12%nat
  | EvOutbound _ _ _ _ _ => Some 13%nat
  end.

Definition stages (evs : list (@Event SSHCredential)) : list nat :=
  omap stage evs.

(** The steps of [evs] happen in stage order, all within [lo .. hi]. *)
Definition staged (lo hi : nat) (evs : list (@Event SSHCredential)) : Prop :=
  StronglySorted le (stages evs) ∧ Forall (λ n, (lo ≤ n ≤ hi)%nat) (stages evs).

(** Lists of log lines. *)
Definition onlyLogs (evs : list (@Event SSHCredential)) : Prop := stages evs = [].

(** Steps of the host table builder before the dump: table queries and
    log lines. *)
Definition hostQueries (evs : list (@Event SSHCredential)) : Prop :=
  staged 7 7 evs ∧ dumpedHosts evs = [].

(** The log line written for a failed proxy registration. *)
Definition failureLog (what : string) (err : option error)
    : list (@Event SSHCredential) :=
  match err with
  | Some e => [EvLog ErrorLevel (what +:+ Error e)]
  | None => []
  end.
End Reading.

(** The workload name [getOrCreateShadow] computes (lines 118 to 121). *)
Definition workloadName {ProxyConfigT} (host : @Host ProxyConfigT)
    (o : DaemonOptions ProxyConfigT) : string :=
  if ShareShadow (ConnectOptions o) then "kt-connect-daemon-connect-shared"
  else "kt-connect-daemon-" +:+ ToLower (RandomString host 5).

(** What the steps before shadow provisioning leave alone: the pid files,
    the live processes, and every option except the proxy configuration and
    the host-dump flag. *)
Definition setupFrame {ProxyConfigT} (w w' : @World ProxyConfigT) : Prop :=
  pidFiles w' = pidFiles w ∧ processes w' = processes w
  ∧ Namespace (options w') = Namespace (options w)
  ∧ Labels (options w') = Labels (options w)
  ∧ ConnectOptions (options w') = ConnectOptions (options w)
  ∧ PidFile (RuntimeOptions (options w')) = PidFile (RuntimeOptions (options w))
  ∧ Shadow (RuntimeOptions (options w')) = Shadow (RuntimeOptions (options w))
  ∧ SSHCM (RuntimeOptions (options w')) = SSHCM (RuntimeOptions (options w)).

(** ** The host table, without the logging

    The table [setupDump2Host] builds on a primary table that is not nil,
    as a function of the entries of the service tables: the same loops with
    the log lines left out. *)

Definition mergeService (namespace svc ip : string)
    (hosts : gmap string string) : gmap string string :=
  if decide (ip = "" ∨ ip = "None") then hosts
  else <[svc +:+ "." +:+ namespace := ip]> hosts.

(** An address that [setupDump2Host] keeps. *)
Definition kept (ip : string) : Prop := ip ≠ "" ∧ ip ≠ "None".

#[global] Instance kept_dec ip : Decision (kept ip).
Proof. unfold kept. apply _. Defined.

(** The inner loop, entry by entry. *)
Definition mergeEntries (namespace : string) (l : list (string * string))
    (hosts : gmap string string) : gmap string string :=
  foldl (λ h kv, mergeService namespace kv.1 kv.2 h) hosts l.

Definition mergeNamespace (serviceHosts : string → gmap string string)
    (primary namespace : string) (hosts : gmap string string)
    : gmap string string :=
  if decide (namespace = primary) then hosts
  else mergeEntries namespace (map_to_list (serviceHosts namespace)) hosts.

(** The outer loop from an arbitrary table. *)
Definition mergeAll (serviceHosts : string → gmap string string)
    (primary : string) (extra : list string) (hosts : gmap string string)
    : gmap string string :=
  foldl (λ h ns, mergeNamespace serviceHosts primary ns h) hosts extra.

Definition mergedHosts (serviceHosts : string → gmap string string)
    (primary : string) (extra : list string) : gmap string string :=
  mergeAll serviceHosts primary extra (serviceHosts primary).

(** No service name contains a dot (in a cluster they cannot). *)
Definition dotFree (serviceHosts : string → gmap string string) : Prop :=
  ∀ namespace svc ip,
    serviceHosts namespace !! svc = Some ip → occurs "."%char svc = false.

(** The entries of the service tables a cluster client answers. *)
Definition entriesOf (serviceHosts : string → Table) (namespace : string)
    : gmap string string :=
  entries (serviceHosts namespace).

(** The table [setupDump2Host] hands to [util.DumpHosts] when it gets that
    far: the merged table, or the nil map when the primary table is nil. *)
Definition handedTable (serviceHosts : string → Table)
    (primary : string) (extra : list string) : Table :=
  match serviceHosts primary with
  | Some h => Some (mergeAll (entriesOf serviceHosts) primary extra h)
  | None => None
  end.

(** An additional namespace from which [setupDump2Host] writes an entry:
    it is not the primary one and its table has an address that is kept. *)
Definition writes (serviceHosts : string → Table)
    (primary namespace : string) : Prop :=
  namespace ≠ primary
  ∧ Exists (λ kv : string * string, kept kv.2)
      (map_to_list (entriesOf serviceHosts namespace)).

#[global] Instance writes_dec serviceHosts primary namespace :
  Decision (writes serviceHosts primary namespace).
Proof. unfold writes. apply _. Defined.

(** The inputs on which [setupDump2Host] assigns to the nil map: the
    primary table is nil and some additional namespace has an entry to
    write. *)
Definition assignsToNil (serviceHosts : string → Table)
    (primary : string) (extra : list string) : Prop :=
  serviceHosts primary = None ∧ Exists (writes serviceHosts primary) extra.

#[global] Instance assignsToNil_dec serviceHosts primary extra :
  Decision (assignsToNil serviceHosts primary extra).
Proof. unfold assignsToNil. apply _. Defined.

(** ** A concrete environment for running the definitions *)

Module Sample.

Definition common : Common := {|
  ConnectMethodTun := "tun";
  ConnectMethodSocks := "socks5";
  ControlBy := "control-by";
  KubernetesTool := "kt";
  KTComponent := "kt-component";
  ComponentConnect := "connect";
  KTName := "kt-name";
  KTVersion := "version";
  EnvVarLocalDomain := "KT_LOCAL_DOMAIN";
  ClientTunIP := "CLIENT_TUN_IP";
  ServerTunIP := "SERVER_TUN_IP";
|}.

(** Labels written as [k1=v1,k2=v2]. *)
Definition parseLabels (s : string) : gmap string string :=
  foldr (λ kv m, match Split kv "="%char with
                 | [k; v] => <[k := v]> m
                 | _ => m
                 end) ∅ (Split s ","%char).

Fixpoint digits (s : string) (acc : Z) : option Z :=
  match s with
  | EmptyString => Some acc
  | String c s' =>
      let n := Z.of_nat (nat_of_ascii c) in
      if decide (48 ≤ n ≤ 57) then digits s' (10 * acc + (n - 48)) else None
  end.

Definition number (s : string) : option Z :=
  match s with EmptyString => None | _ => digits s 0 end.

(** Dotted-quad IPv4 networks, [a.b.c.d/n]; the address is masked to the
    prefix, as a parsed network is. *)
Definition parseCIDR4 (s : string) : IPNet + error :=
  match Split s "/"%char with
  | [addr; len] =>
      match number <$> Split addr "."%char, number len with
      | [Some a; Some b; Some c; Some d], Some n =>
          if decide (a ≤ 255 ∧ b ≤ 255 ∧ c ≤ 255 ∧ d ≤ 255 ∧ n ≤ 32) then
            let ip := ((a * 256 + b) * 256 + c) * 256 + d in
            inl {| IP := Z.shiftl (Z.shiftr ip (32 - n)) (32 - n);
                   Ones := n; Bits := 32 |}
          else inr (ParseError s)
      | _, _ => inr (ParseError s)
      end
  | _ => inr (ParseError s)
  end.

Definition dotted (ip : Z) : string :=
  pretty (Z.shiftr ip 24 `mod` 256) +:+ "." +:+
  pretty (Z.shiftr ip 16 `mod` 256) +:+ "." +:+
  pretty (Z.shiftr ip 8 `mod` 256) +:+ "." +:+
  pretty (ip `mod` 256).

Definition dottedNet (n : IPNet) : string :=
  dotted (IP n) +:+ "/" +:+ pretty (Ones n).

Definition connectOptions (method : string) (share : bool)
    (namespaces : list string) (domain : string) : ConnectOptionsT := {|
  Method := method; TunCidr := "10.1.1.0/24"; SourceIP := ""; DestIP := "";
  SocksPort := 2223; ShareShadow := share;
  Dump2HostsNamespaces := namespaces; LocalDomain := domain |}.

Definition daemonOptions (labels : string) (c : ConnectOptionsT)
    : DaemonOptions unit := {|
  Namespace := "ns1"; Labels := labels; Debug := false;
  ConnectOptions := c;
  RuntimeOptions := {| PidFile := "/tmp/kt/connect.pid"; Shadow := "";
                       SSHCM := ""; ProxyConfig := tt; Dump2Host := false |} |}.

(** The service tables of the design document's example, and one in which
    the primary namespace has a service without an address. *)
Definition serviceHosts (namespace : string) : gmap string string :=
  if decide (namespace = "ns1") then {[ "svcA" := "1.1.1.1" ]}
  else if decide (namespace = "ns2")
       then <[ "svcB" := "" ]> {[ "svcA" := "2.2.2.2" ]}
       else ∅.

Definition headlessHosts (namespace : string) : gmap string string :=
  if decide (namespace = "ns1")
  then <[ "svcB" := "None" ]> {[ "svcA" := "1.1.1.1" ]}
  else ∅.

(** A cluster whose service tables are [hosts], none of them nil, and
    whose provisioner answers [shadowErr]. *)
Definition kubernetes (hosts : string → gmap string string)
    (shadowErr : option error) : @KubernetesInterface unit unit := {|
  ServiceHosts := λ namespace, Some (hosts namespace);
  GetOrCreateShadow := λ workload _ _ _ _,
    match shadowErr with
    | Some e => ("", "", "", None, Some e)
    | None => ("10.0.0.7", workload +:+ "-pod", workload +:+ "-cm", Some tt, None)
    end;
  ClusterCrids := λ _ _, (["10.0.0.0/16"; "172.21.0.0/16"], None) |}.

Definition cli (hosts : string → gmap string string)
    (shadowErr : option error) : @CliInterface unit unit := {|
  Kubernetes := (kubernetes hosts shadowErr, None);
  Outbound := λ _ _ _ _, None |}.

(** A host on which the proxy registrar answers [proxyErr] to both calls. *)
Definition host (proxyErr : option error) : @Host unit := {|
  Getpid := 4242;
  IsWindows := false;
  RandomString := λ _, "aBcDe";
  String2Map := parseLabels;
  ParseCIDR := parseCIDR4;
  IPNetString := dottedNet;
  IPString := dotted;
  pidFileWriteError := λ _, None;
  SetGlobalProxy := λ _ pc, (pc, proxyErr);
  SetHttpProxyEnvironmentVariable := λ _ pc, (pc, proxyErr);
  combineKubeOpts := λ o, (o, None);
  TerminalSignal := "interrupt" |}.

Definition world (o : DaemonOptions unit) (files : gmap string Z)
    (procs : gset Z) : @World unit :=
  {| options := o; pidFiles := files; processes := procs |}.

End Sample.

(** ** Further readings of a run *)

Section Observing.
Context {SSHCredential : Type}.

(** The namespaces whose service table was asked for, in order. *)
Definition queriedNamespaces (evs : list (@Event SSHCredential)) : list string :=
  omap (λ ev, match ev with EvServiceHosts ns => Some ns | _ => None end) evs.

(** Calls to the proxy registrar. *)
Definition isProxyCall (ev : @Event SSHCredential) : bool :=
  match ev with
  | EvSetGlobalProxy _ _ | EvSetHttpProxyEnvironmentVariable _ _ => true
  | _ => false
  end.

(** The transport hand-off. *)
Definition isOutbound (ev : @Event SSHCredential) : bool :=
  match ev with EvOutbound _ _ _ _ _ => true | _ => false end.

(** The last event of a run is a step, not a log line. *)
Definition endsWithStep (evs : list (@Event SSHCredential)) : Prop :=
  ∃ pre ev, evs = (pre ++ [ev])%list ∧ stage ev ≠ None.
End Observing.

(** ASCII upper-case letters. *)
Definition isUpper (c : ascii) : bool :=
  let n := nat_of_ascii c in (Nat.leb 65 n && Nat.leb n 90)%bool.

Fixpoint hasUpper (s : string) : bool :=
  match s with
  | EmptyString => false
  | String c s' => (isUpper c || hasUpper s')%bool
  end.

(** More environments for running the definitions: a tunnel network of
    one's choice, a cluster whose CIDR query can fail, a client whose
    cluster handle or hand-off can fail, a host whose pid file cannot be
    written. *)
Module Cases.

Definition tunOptions (cidr : string) : DaemonOptions unit :=
  Sample.daemonOptions ""
    {| Method := "tun"; TunCidr := cidr; SourceIP := ""; DestIP := "";
       SocksPort := 2223; ShareShadow := false;
       Dump2HostsNamespaces := []; LocalDomain := "" |}.

Definition kubernetes (shadowErr cridsErr : option error)
    : @KubernetesInterface unit unit := {|
  ServiceHosts := λ namespace, Some (Sample.serviceHosts namespace);
  GetOrCreateShadow := λ workload _ _ _ _,
    match shadowErr with
    | Some e => ("", "", "", None, Some e)
    | None => ("10.0.0.7", workload +:+ "-pod", workload +:+ "-cm", Some tt, None)
    end;
  ClusterCrids := λ _ _,
    match cridsErr with
    | Some e => ([], Some e)
    | None => (["10.0.0.0/16"; "172.21.0.0/16"], None)
    end |}.

Definition cli (handleErr shadowErr cridsErr outErr : option error)
    : @CliInterface unit unit := {|
  Kubernetes := (kubernetes shadowErr cridsErr, handleErr);
  Outbound := λ _ _ _ _, outErr |}.

Definition host (writeErr : option error) (windows : bool) : @Host unit := {|
  Getpid := 4242;
  IsWindows := windows;
  RandomString := λ _, "aBcDe";
  String2Map := Sample.parseLabels;
  ParseCIDR := Sample.parseCIDR4;
  IPNetString := Sample.dottedNet;
  IPString := Sample.dotted;
  pidFileWriteError := λ _, writeErr;
  SetGlobalProxy := λ _ pc, (pc, None);
  SetHttpProxyEnvironmentVariable := λ _ pc, (pc, None);
  combineKubeOpts := λ o, (o, None);
  TerminalSignal := "interrupt" |}.

Definition world (method : string) (namespaces : list string) : @World unit :=
  Sample.world
    (Sample.daemonOptions "" (Sample.connectOptions method false namespaces ""))
    ∅ ∅.

(** The service tables of the example, with the nil map as the table of
    the namespace [ns1]. *)
Definition nilPrimary (namespace : string) : Table :=
  if decide (namespace = "ns1") then None
  else Some (Sample.serviceHosts namespace).

(** A cluster with the service tables [hosts] whose other methods
    succeed. *)
Definition kubernetesWith (hosts : string → Table)
    : @KubernetesInterface unit unit := {|
  ServiceHosts := hosts;
  GetOrCreateShadow := λ workload _ _ _ _,
    ("10.0.0.7", workload +:+ "-pod", workload +:+ "-cm", Some tt, None);
  ClusterCrids := λ _ _, (["10.0.0.0/16"; "172.21.0.0/16"], None) |}.

Definition cliWith (hosts : string → Table) : @CliInterface unit unit := {|
  Kubernetes := (kubernetesWith hosts, None);
  Outbound := λ _ _ _ _, None |}.

End Cases.

(** * Properties *)

(** ** [strings.Split] and [strings.ToLower] *)

Lemma Split_nonempty s sep : Split s sep ≠ [].
Proof.
  destruct s as [|c s]; simpl; [done|].
  destruct (decide (c = sep)); [done|].
  by destruct (Split s sep).
Qed.

Lemma Split_no_sep s sep : occurs sep s = false → Split s sep = [s].
Proof.
  induction s as [|c s IH]; simpl; [done|].
  destruct (decide (c = sep)); [done|].
  intros Hs. by rewrite (IH Hs).
Qed.

Lemma last_app_nonempty {A} (d : A) (l1 l2 : list A) :
  l2 ≠ [] → List.last (l1 ++ l2)%list d = List.last l2 d.
Proof.
  intros Hne. induction l1 as [|x l1 IH]; [done|].
  simpl. destruct (l1 ++ l2)%list eqn:E; [|done].
  by apply app_eq_nil in E as [_ ->].
Qed.

Lemma Split_after_sep p seg sep :
  ∃ pieces, Split (p +:+ String sep seg) sep = (pieces ++ Split seg sep)%list
            ∧ pieces ≠ [].
Proof.
  induction p as [|c p (pieces & IH & Hne)]; simpl.
  - exists [EmptyString]. by rewrite decide_True.
  - destruct (decide (c = sep)).
    + exists (EmptyString :: pieces). by rewrite IH.
    + rewrite IH. destruct pieces as [|x pieces]; [done|].
      by exists (String c x :: pieces).
Qed.

Lemma last_Split_after_sep p seg sep d :
  List.last (Split (p +:+ String sep seg) sep) d = List.last (Split seg sep) d.
Proof.
  destruct (Split_after_sep p seg sep) as (pieces & -> & _).
  apply last_app_nonempty, Split_nonempty.
Qed.

Lemma lastSplit_suffix p seg :
  occurs "-"%char seg = false → lastSplit (p +:+ String "-"%char seg) = seg.
Proof.
  intros Hseg. unfold lastSplit.
  by rewrite last_Split_after_sep, (Split_no_sep _ _ Hseg).
Qed.

Lemma lastSplit_no_hyphen s : occurs "-"%char s = false → lastSplit s = s.
Proof. intros Hs. unfold lastSplit. by rewrite (Split_no_sep _ _ Hs). Qed.

Lemma ToLower_length s : String.length (ToLower s) = String.length s.
Proof. induction s as [|c s IH]; simpl; [done|]. by rewrite IH. Qed.

(** ** Go map loops *)

(** Copying a map into another leaves the copied entries on top. *)
Lemma copyInto_union (src dst : gmap string string) : copyInto src dst = src ∪ dst.
Proof.
  unfold copyInto.
  apply (map_fold_weak_ind (λ r m, r = m ∪ dst)).
  - by rewrite (left_id_L ∅ (∪)).
  - intros k v m r _ ->. by rewrite insert_union_l.
Qed.

Lemma copyInto_lookup (src dst : gmap string string) k :
  copyInto src dst !! k =
    match src !! k with Some v => Some v | None => dst !! k end.
Proof.
  rewrite copyInto_union, lookup_union.
  destruct (src !! k), (dst !! k); done.
Qed.

(** ** Labels of the shadow workload *)

Section LabelFacts.
Context {ProxyConfigT : Type}.
Variable common : Common.
Variable String2Map : string → gmap string string.
Implicit Types (workload : string) (options : DaemonOptions ProxyConfigT).

Lemma labels_version workload options :
  labels common String2Map workload options !! KTVersion common
  = Some (lastSplit workload).
Proof. unfold labels. apply lookup_insert_eq. Qed.

Lemma labels_other workload options k :
  k ≠ KTVersion common →
  labels common String2Map workload options !! k =
    match String2Map (Labels options) !! k with
    | Some v => Some v
    | None =>
        (<[KTName common := workload]>
          (<[KTComponent common := ComponentConnect common]>
            (<[ControlBy common := KubernetesTool common]>
               (∅ : gmap string string)))) !! k
    end.
Proof.
  intros Hk. unfold labels.
  rewrite lookup_insert_ne by done. apply copyInto_lookup.
Qed.

(** C3, as the code has it.  With the four generated keys pairwise
    different: the version tag is always the last hyphen-delimited segment
    of the workload name, also when the user supplies a label under the
    version key; on every other key a user-supplied label wins; the control
    marker, the component tag and the workload name are present with their
    generated values unless the user supplies that key.  The last segment
    is what follows the last hyphen, or the whole name when it has none. *)
Theorem labels_spec workload options :
  NoDup [ControlBy common; KTComponent common; KTName common; KTVersion common] →
  let user := String2Map (Labels options) in
  let L := labels common String2Map workload options in
  L !! KTVersion common = Some (lastSplit workload)
  ∧ (∀ k v, k ≠ KTVersion common → user !! k = Some v → L !! k = Some v)
  ∧ (user !! ControlBy common = None →
     L !! ControlBy common = Some (KubernetesTool common))
  ∧ (user !! KTComponent common = None →
     L !! KTComponent common = Some (ComponentConnect common))
  ∧ (user !! KTName common = None → L !! KTName common = Some workload)
  ∧ (is_Some (L !! ControlBy common) ∧ is_Some (L !! KTComponent common)
     ∧ is_Some (L !! KTName common))
  ∧ (∀ p seg, workload = p +:+ String "-"%char seg →
              occurs "-"%char seg = false → lastSplit workload = seg)
  ∧ (occurs "-"%char workload = false → lastSplit workload = workload).
Proof.
  intros Hnd user L.
  apply NoDup_cons in Hnd as [Hcb Hnd]. apply NoDup_cons in Hnd as [Hcomp Hnd].
  apply NoDup_cons in Hnd as [Hname _].
  assert (ControlBy common ≠ KTVersion common) as Hcv by set_solver.
  assert (KTComponent common ≠ KTVersion common) as Hpv by set_solver.
  assert (KTName common ≠ KTVersion common) as Hnv by set_solver.
  assert (ControlBy common ≠ KTComponent common) as Hcp by set_solver.
  assert (ControlBy common ≠ KTName common) as Hcn by set_solver.
  assert (KTComponent common ≠ KTName common) as Hpn by set_solver.
  assert (∀ k, k ≠ KTVersion common → L !! k =
            match user !! k with
            | Some v => Some v
            | None =>
                (<[KTName common := workload]>
                  (<[KTComponent common := ComponentConnect common]>
                    (<[ControlBy common := KubernetesTool common]>
                       (∅ : gmap string string)))) !! k
            end) as Hother.
  { intros k Hk. by apply labels_other. }
  split; [apply labels_version|].
  split; [intros k v Hk Hu; by rewrite (Hother k Hk), Hu|].
  assert (user !! ControlBy common = None →
          L !! ControlBy common = Some (KubernetesTool common)) as H1.
  { intros Hu. rewrite (Hother _ Hcv), Hu. by simplify_map_eq. }
  assert (user !! KTComponent common = None →
          L !! KTComponent common = Some (ComponentConnect common)) as H2.
  { intros Hu. rewrite (Hother _ Hpv), Hu. by simplify_map_eq. }
  assert (user !! KTName common = None → L !! KTName common = Some workload) as H3.
  { intros Hu. rewrite (Hother _ Hnv), Hu. by simplify_map_eq. }
  repeat split; try done.
  - destruct (user !! ControlBy common) as [v|] eqn:E; [|rewrite H1; eauto].
    rewrite (Hother _ Hcv), E; eauto.
  - destruct (user !! KTComponent common) as [v|] eqn:E; [|rewrite H2; eauto].
    rewrite (Hother _ Hpv), E; eauto.
  - destruct (user !! KTName common) as [v|] eqn:E; [|rewrite H3; eauto].
    rewrite (Hother _ Hnv), E; eauto.
  - intros p seg -> Hseg. by apply lastSplit_suffix.
  - apply lastSplit_no_hyphen.
Qed.

(** ** Environment of the shadow workload *)

(** C10.  With the three variable names pairwise different: the map holds
    the local-domain variable exactly when the local domain is not empty,
    and the client and server tunnel address variables exactly when the
    method is tun; when present they carry the configured domain, the
    source address and the destination address; nothing else is in it. *)
Theorem envs_spec options :
  NoDup [EnvVarLocalDomain common; ClientTunIP common; ServerTunIP common] →
  let E := envs common options in
  let c := ConnectOptions options in
  (is_Some (E !! EnvVarLocalDomain common) ↔ LocalDomain c ≠ "")
  ∧ (is_Some (E !! ClientTunIP common) ↔ Method c = ConnectMethodTun common)
  ∧ (is_Some (E !! ServerTunIP common) ↔ Method c = ConnectMethodTun common)
  ∧ (LocalDomain c ≠ "" → E !! EnvVarLocalDomain common = Some (LocalDomain c))
  ∧ (Method c = ConnectMethodTun common →
     E !! ClientTunIP common = Some (SourceIP c)
     ∧ E !! ServerTunIP common = Some (DestIP c))
  ∧ (∀ k, is_Some (E !! k) →
          k = EnvVarLocalDomain common ∨ k = ClientTunIP common
          ∨ k = ServerTunIP common).
Proof.
  intros Hnd E c.
  apply NoDup_cons in Hnd as [Hd Hnd]. apply NoDup_cons in Hnd as [Hc _].
  assert (EnvVarLocalDomain common ≠ ClientTunIP common) as Hdc by set_solver.
  assert (EnvVarLocalDomain common ≠ ServerTunIP common) as Hds by set_solver.
  assert (ClientTunIP common ≠ ServerTunIP common) as Hcs by set_solver.
  subst E c. unfold envs.
  destruct (decide (LocalDomain (ConnectOptions options) ≠ "")) as [Hl|Hl];
    destruct (decide (Method (ConnectOptions options) = ConnectMethodTun common))
      as [Hm|Hm];
    simplify_map_eq;
    repeat split; try done; try (intros [? ?]; simplify_map_eq; done);
    try (intros; simplify_map_eq; eauto; done).
  all: intros k [v Hk].
  all: repeat (apply lookup_insert_Some in Hk as [[<- _]|[_ Hk]]; [by eauto|]).
  all: by rewrite lookup_empty in Hk.
Qed.
End LabelFacts.

Lemma labels_spec_witness :
  let o := Sample.daemonOptions "app=demo,kt-name=mine"
             (Sample.connectOptions "tun" false [] "") in
  let L := labels Sample.common Sample.parseLabels "kt-connect-daemon-abcde" o in
  NoDup ["control-by"; "kt-component"; "kt-name"; "version"]
  ∧ L !! "version" = Some "abcde"
  ∧ L !! "kt-name" = Some "mine"
  ∧ L !! "control-by" = Some "kt".
Proof.
  assert (NoDup ["control-by"; "kt-component"; "kt-name"; "version"]) as Hnd.
  { apply (bool_decide_unpack _). vm_compute. reflexivity. }
  split; [exact Hnd|].
  destruct (labels_spec Sample.common Sample.parseLabels
              "kt-connect-daemon-abcde"
              (Sample.daemonOptions "app=demo,kt-name=mine"
                 (Sample.connectOptions "tun" false [] "")) Hnd)
    as (Hv & Huser & Hcb & _ & _ & _ & Hseg & _).
  split.
  - refine (eq_trans Hv (f_equal Some _)).
    apply (Hseg "kt-connect-daemon" "abcde"); reflexivity.
  - split.
    + apply (Huser "kt-name" "mine"); [discriminate|]. vm_compute. reflexivity.
    + apply Hcb. vm_compute. reflexivity.
Defined.

(** C3 as worded fails: a user-supplied label under the version key does
    not take precedence, the generated version tag replaces it. *)
Lemma labels_user_version_replaced :
  let o := Sample.daemonOptions "version=v1"
             (Sample.connectOptions "tun" false [] "") in
  let user := Sample.parseLabels (Labels o) in
  let L := labels Sample.common Sample.parseLabels "kt-connect-daemon-abcde" o in
  user !! "version" = Some "v1"
  ∧ L !! "version" = Some "abcde"
  ∧ ¬ (∀ k v, user !! k = Some v → L !! k = Some v).
Proof.
  assert (Sample.parseLabels "version=v1" !! "version" = Some "v1") as Hu.
  { vm_compute. reflexivity. }
  assert (labels Sample.common Sample.parseLabels "kt-connect-daemon-abcde"
            (Sample.daemonOptions "version=v1"
               (Sample.connectOptions "tun" false [] "")) !! "version"
          = Some "abcde") as HL.
  { vm_compute. reflexivity. }
  split; [exact Hu|]. split; [exact HL|].
  intros Hclaim. specialize (Hclaim "version" "v1" Hu).
  simpl in Hclaim. rewrite HL in Hclaim. discriminate.
Qed.

Lemma envs_spec_witness :
  let o := Sample.daemonOptions ""
             (setDestIP "10.1.1.2"
                (setSourceIP "10.1.1.1"
                   (Sample.connectOptions "tun" false [] "cluster.local"))) in
  let E := envs Sample.common o in
  NoDup ["KT_LOCAL_DOMAIN"; "CLIENT_TUN_IP"; "SERVER_TUN_IP"]
  ∧ E !! "KT_LOCAL_DOMAIN" = Some "cluster.local"
  ∧ E !! "CLIENT_TUN_IP" = Some "10.1.1.1"
  ∧ E !! "SERVER_TUN_IP" = Some "10.1.1.2".
Proof.
  assert (NoDup ["KT_LOCAL_DOMAIN"; "CLIENT_TUN_IP"; "SERVER_TUN_IP"]) as Hnd.
  { apply (bool_decide_unpack _). vm_compute. reflexivity. }
  split; [exact Hnd|].
  destruct (envs_spec (ProxyConfigT := unit) Sample.common
              (Sample.daemonOptions ""
                 (setDestIP "10.1.1.2"
                    (setSourceIP "10.1.1.1"
                       (Sample.connectOptions "tun" false [] "cluster.local"))))
              Hnd)
    as (_ & _ & _ & Hd & Ht & _).
  split; [apply Hd; discriminate|].
  apply Ht. reflexivity.
Defined.

(** ** The address allocator *)

(** The contiguous scan returns the lowest free offset of its window. *)
Lemma scanFree_spec allocated fuel i j :
  scanFree allocated i fuel = Some j →
  i ≤ j < i + Z.of_nat fuel ∧ Z.testbit allocated j = false
  ∧ ∀ k, i ≤ k < j → Z.testbit allocated k = true.
Proof.
  revert i. induction fuel as [|fuel IH]; intros i; simpl; [done|].
  destruct (Z.testbit allocated i) eqn:Hi.
  - intros Hs. destruct (IH _ Hs) as (Hr & Hf & Hlow).
    split; [lia|]. split; [done|].
    intros k Hk. destruct (decide (k = i)) as [->|]; [done|]. apply Hlow. lia.
  - intros [= <-]. split; [lia|]. split; [done|]. intros k Hk. lia.
Qed.

(** An offset that was handed out is never handed out again. *)
Lemma bitmapAllocateNext_fresh a a' next :
  bitmapAllocateNext a = (a', Some next) →
  0 ≤ next < max a ∧ Z.testbit (allocated a) next = false
  ∧ Z.testbit (allocated a') next = true
  ∧ (∀ k, Z.testbit (allocated a) k = true → Z.testbit (allocated a') k = true).
Proof.
  unfold bitmapAllocateNext. destruct (decide (max a ≤ count a)); [done|].
  destruct (scanFree (allocated a) 0 (Z.to_nat (max a))) as [j|] eqn:Hs; [|done].
  intros [= <- <-]. apply scanFree_spec in Hs as (Hr & Hf & _). simpl.
  split; [lia|]. split; [done|]. split.
  - rewrite Z.setbit_eq by lia. done.
  - intros k Hk. destruct (decide (k = j)) as [->|].
    + rewrite Z.setbit_eq by lia. done.
    + rewrite Z.setbit_neq by lia. done.
Qed.

Lemma bitmapAllocateNext_first max spec :
  0 < max →
  bitmapAllocateNext (NewContiguousAllocationMap max spec)
  = ({| allocated := 1; count := 1; max := max |}, Some 0).
Proof.
  intros Hmax. unfold bitmapAllocateNext, NewContiguousAllocationMap. simpl.
  rewrite decide_False by lia.
  destruct (Z.to_nat max) as [|fuel] eqn:Hfuel; [lia|]. done.
Qed.

Lemma bitmapAllocateNext_second max :
  1 < max →
  bitmapAllocateNext {| allocated := 1; count := 1; max := max |}
  = ({| allocated := 3; count := 2; max := max |}, Some 1).
Proof.
  intros Hmax. unfold bitmapAllocateNext. simpl.
  rewrite decide_False by lia.
  destruct (Z.to_nat max) as [|[|fuel]] eqn:Hfuel; [lia|lia|]. done.
Qed.

Lemma bitmapAllocateNext_full a :
  max a ≤ count a → bitmapAllocateNext a = (a, None).
Proof. intros H. unfold bitmapAllocateNext. by rewrite decide_True. Qed.

(** The size of a range never exceeds the number of addresses of the
    network. *)
Lemma RangeSize_le n : 0 ≤ hostBits n → RangeSize n ≤ 2 ^ hostBits n.
Proof.
  unfold RangeSize, hostBits. intros Hh. cbv zeta.
  repeat case_decide.
  - apply Z.pow_nonneg. lia.
  - change (Z.shiftl 1 16) with (2 ^ 16). apply Z.pow_le_mono_r; lia.
  - rewrite Z.shiftl_1_l. lia.
Qed.

(** The size of a range is the number of addresses of the network, except
    for the networks the allocator treats as empty or cuts short. *)
Lemma RangeSize_plain n :
  0 ≤ hostBits n →
  ¬ (Bits n = 32 ∧ 31 ≤ hostBits n) → ¬ (Bits n = 128 ∧ 16 ≤ hostBits n) →
  RangeSize n = 2 ^ hostBits n.
Proof.
  unfold RangeSize, hostBits. intros Hh H32 H128. cbv zeta.
  rewrite decide_False by lia. rewrite decide_False by lia.
  apply Z.shiftl_1_l.
Qed.

(** A 32-bit network of 31 or 32 host bits, or a 128-bit network of 127 or
    128, has no address to hand out. *)
Lemma usable_wide n :
  (Bits n = 32 ∧ 31 ≤ hostBits n) ∨ (Bits n = 128 ∧ 127 ≤ hostBits n) →
  usable n = 0.
Proof.
  unfold usable, RangeSize, hostBits. intros Hwide. cbv zeta.
  rewrite decide_True by lia. done.
Qed.

Lemma usable_two_hostBits n : 2 ≤ usable n → 2 ≤ hostBits n ∧ 4 ≤ 2 ^ hostBits n.
Proof.
  intros Hu.
  assert (0 ≤ hostBits n) as Hnn.
  { destruct (decide (0 ≤ hostBits n)) as [|Hneg]; [done|exfalso].
    revert Hu. unfold usable, RangeSize, hostBits in *. cbv zeta.
    rewrite decide_False by lia. rewrite decide_False by lia.
    rewrite Z.shiftl_1_l, Z.pow_neg_r by lia. lia. }
  pose proof (RangeSize_le n Hnn) as Hle0.
  assert (4 ≤ 2 ^ hostBits n) as H4 by (unfold usable in Hu; lia).
  split; [|done].
  destruct (decide (2 ≤ hostBits n)) as [|Hlt]; [done|exfalso].
  assert (2 ^ hostBits n ≤ 2 ^ 1) as Hle.
  { destruct (decide (0 ≤ hostBits n)).
    - apply Z.pow_le_mono_r; lia.
    - rewrite Z.pow_neg_r by lia. lia. }
  change (2 ^ 1) with 2 in Hle. lia.
Qed.

(** The networks for which the allocator can hand out two addresses: those
    of 2 to 30 host bits with 32-bit addresses, of 2 to 126 host bits with
    128-bit addresses. *)
Lemma usable_two_iff n :
  (Bits n = 32 → (2 ≤ usable n ↔ 2 ≤ hostBits n ≤ 30))
  ∧ (Bits n = 128 → (2 ≤ usable n ↔ 2 ≤ hostBits n ≤ 126)).
Proof.
  assert (∀ h, 2 ≤ h → 4 ≤ 2 ^ h) as Hpow.
  { intros h Hh. change 4 with (2 ^ 2). apply Z.pow_le_mono_r; lia. }
  split; intros Hb; split.
  - intros Hu. destruct (usable_two_hostBits _ Hu) as [Hh _].
    split; [done|]. destruct (decide (hostBits n ≤ 30)); [done|].
    rewrite usable_wide in Hu by lia. lia.
  - intros [H2 H30]. unfold usable. rewrite RangeSize_plain by lia.
    specialize (Hpow _ H2). lia.
  - intros Hu. destruct (usable_two_hostBits _ Hu) as [Hh _].
    split; [done|]. destruct (decide (hostBits n ≤ 126)); [done|].
    rewrite usable_wide in Hu by lia. lia.
  - intros [H2 H126]. unfold usable, RangeSize. cbv zeta.
    unfold hostBits in *.
    rewrite decide_False by lia.
    destruct (decide (Bits n = 128 ∧ 16 ≤ Bits n - Ones n)).
    + change (Z.shiftl 1 16) with 65536. lia.
    + rewrite Z.shiftl_1_l. specialize (Hpow _ H2). lia.
Qed.

Lemma masked_offset_shiftr n off :
  masked n → 0 ≤ hostBits n → 0 ≤ off < 2 ^ hostBits n →
  Z.shiftr (IP n + off) (hostBits n) = Z.shiftr (IP n) (hostBits n).
Proof.
  unfold masked. intros Hm Hh Hoff.
  rewrite !Z.shiftr_div_pow2 by done.
  assert (0 < 2 ^ hostBits n) as Hpos by lia.
  pose proof (Z.div_mod (IP n) (2 ^ hostBits n) ltac:(lia)) as Hdm.
  rewrite Hm, Z.add_0_r in Hdm.
  symmetry. apply (Z.div_unique _ _ _ off); [lia|]. lia.
Qed.

Lemma masked_networkAddress n :
  masked n → 0 ≤ hostBits n → networkAddress n = IP n.
Proof.
  unfold masked, networkAddress. intros Hm Hh.
  rewrite Z.shiftl_mul_pow2, Z.shiftr_div_pow2 by done.
  pose proof (Z.div_mod (IP n) (2 ^ hostBits n) ltac:(lia)) as Hdm.
  lia.
Qed.

Section AllocateFacts.
Variable ParseCIDR : string → IPNet + error.
Variable IPNetString : IPNet → string.
Variable IPString : Z → string.

(** C4.  For a network whose base address is masked and for which the
    allocator can hand out at least two addresses ([usable]: the size the
    allocator gives the range, less two; by [usable_two_iff] these are the
    networks of 2 to 30 host bits with 32-bit addresses and of 2 to 126
    host bits with 128-bit addresses), the allocation succeeds; the source
    address is the first host address and the destination address the
    second; the two differ, lie in the network, and neither is the network
    address or the broadcast address. *)
Theorem allocateTunIP_ok cidr ipnet :
  ParseCIDR cidr = inl ipnet → masked ipnet → 2 ≤ usable ipnet →
  let ip1 := IP ipnet + 1 in
  let ip2 := IP ipnet + 2 in
  allocateTunIP ParseCIDR IPNetString IPString cidr
  = (IPString ip1, IPString ip2, None)
  ∧ ip1 ≠ ip2
  ∧ Contains ipnet ip1 = true ∧ Contains ipnet ip2 = true
  ∧ ip1 ≠ networkAddress ipnet ∧ ip1 ≠ broadcastAddress ipnet
  ∧ ip2 ≠ networkAddress ipnet ∧ ip2 ≠ broadcastAddress ipnet.
Proof.
  intros Hparse Hmasked Husable ip1 ip2.
  destruct (usable_two_hostBits _ Husable) as [Hh H4].
  split.
  - unfold allocateTunIP, NewAllocatorCIDRRange, AllocateNext. rewrite Hparse.
    simpl. rewrite bitmapAllocateNext_first by lia. simpl.
    rewrite bitmapAllocateNext_second by lia. simpl.
    subst ip1 ip2. repeat (f_equal; try lia).
  - split; [subst ip1 ip2; lia|].
    unfold Contains, broadcastAddress.
    rewrite (masked_networkAddress _ Hmasked) by lia.
    subst ip1 ip2.
    rewrite !bool_decide_eq_true.
    rewrite !(masked_offset_shiftr _ _ Hmasked) by lia.
    repeat split; lia.
Qed.

(** The textual addresses differ as well when the formatter tells
    addresses apart. *)
Lemma allocateTunIP_texts_differ cidr ipnet srcIP destIP :
  Inj (=) (=) IPString →
  ParseCIDR cidr = inl ipnet → 2 ≤ usable ipnet →
  allocateTunIP ParseCIDR IPNetString IPString cidr = (srcIP, destIP, None) →
  srcIP ≠ destIP.
Proof.
  intros Hinj Hparse Husable.
  destruct (usable_two_hostBits _ Husable) as [Hh H4].
  unfold allocateTunIP, NewAllocatorCIDRRange, AllocateNext. rewrite Hparse.
  simpl. rewrite bitmapAllocateNext_first by lia. simpl.
  rewrite bitmapAllocateNext_second by lia. simpl.
  intros [= <- <-] Heq. apply Hinj in Heq. lia.
Qed.

(** C5.  A string the parser rejects makes the allocation fail with the
    parser's error; a network with fewer than two usable addresses makes it
    fail with the allocator's range-is-full error; in both cases the two
    addresses returned are empty. *)
Theorem allocateTunIP_fails cidr :
  (∀ err, ParseCIDR cidr = inr err →
     allocateTunIP ParseCIDR IPNetString IPString cidr = ("", "", Some err))
  ∧ (∀ ipnet, ParseCIDR cidr = inl ipnet → usable ipnet < 2 →
     allocateTunIP ParseCIDR IPNetString IPString cidr
     = ("", "", Some ErrFull)).
Proof.
  split.
  - intros err Hparse. unfold allocateTunIP. by rewrite Hparse.
  - intros ipnet Hparse Hfew.
    unfold allocateTunIP, NewAllocatorCIDRRange, AllocateNext. rewrite Hparse.
    simpl.
    assert (0 ≤ usable ipnet) as Hnn by (unfold usable; lia).
    destruct (decide (usable ipnet = 0)) as [H0|H0].
    + rewrite bitmapAllocateNext_full by (simpl; lia). done.
    + rewrite bitmapAllocateNext_first by lia. simpl.
      rewrite bitmapAllocateNext_full by (simpl; lia). done.
Qed.
End AllocateFacts.

Lemma allocateTunIP_ok_witness :
  allocateTunIP Sample.parseCIDR4 Sample.dottedNet Sample.dotted "10.1.1.0/24"
  = ("10.1.1.1", "10.1.1.2", None)
  ∧ Contains {| IP := 167837952; Ones := 24; Bits := 32 |} 167837953 = true
  ∧ Contains {| IP := 167837952; Ones := 24; Bits := 32 |} 167837954 = true.
Proof.
  assert (Sample.parseCIDR4 "10.1.1.0/24"
          = inl {| IP := 167837952; Ones := 24; Bits := 32 |}) as Hparse.
  { vm_compute. reflexivity. }
  assert (masked {| IP := 167837952; Ones := 24; Bits := 32 |}) as Hmasked.
  { vm_compute. reflexivity. }
  assert (2 ≤ usable {| IP := 167837952; Ones := 24; Bits := 32 |}) as Husable.
  { vm_compute. discriminate. }
  destruct (allocateTunIP_ok Sample.parseCIDR4 Sample.dottedNet Sample.dotted
              "10.1.1.0/24" _ Hparse Hmasked Husable)
    as (Hpair & _ & Hin1 & Hin2 & _).
  split; [|split; [exact Hin1|exact Hin2]].
  rewrite Hpair. vm_compute. reflexivity.
Defined.

(** C4, the claim as worded fails: [128.0.0.0/1] is a valid network with a
    masked base address and [2^31 - 2] host addresses, and the allocation
    fails with the range-is-full error, because the allocator gives a 32-bit
    network of 31 or more host bits the size [0]. *)
Lemma allocateTunIP_wide_network_full :
  let ipnet := {| IP := 2147483648; Ones := 1; Bits := 32 |} in
  Sample.parseCIDR4 "128.0.0.0/1" = inl ipnet
  ∧ masked ipnet
  ∧ hostAddresses ipnet = 2147483646
  ∧ usable ipnet = 0
  ∧ allocateTunIP Sample.parseCIDR4 Sample.dottedNet Sample.dotted "128.0.0.0/1"
    = ("", "", Some ErrFull)
  ∧ ¬ (∀ cidr net, Sample.parseCIDR4 cidr = inl net → masked net →
         2 ≤ hostAddresses net →
         ∃ srcIP destIP,
           allocateTunIP Sample.parseCIDR4 Sample.dottedNet Sample.dotted cidr
           = (srcIP, destIP, None)).
Proof.
  assert (Sample.parseCIDR4 "128.0.0.0/1"
          = inl {| IP := 2147483648; Ones := 1; Bits := 32 |}) as Hparse.
  { vm_compute. reflexivity. }
  assert (masked {| IP := 2147483648; Ones := 1; Bits := 32 |}) as Hmasked.
  { vm_compute. reflexivity. }
  assert (allocateTunIP Sample.parseCIDR4 Sample.dottedNet Sample.dotted
            "128.0.0.0/1" = ("", "", Some ErrFull)) as Hfull.
  { vm_compute. reflexivity. }
  cbv zeta. split; [exact Hparse|]. split; [exact Hmasked|].
  split; [vm_compute; reflexivity|]. split; [vm_compute; reflexivity|].
  split; [exact Hfull|].
  intros Hclaim.
  destruct (Hclaim "128.0.0.0/1" _ Hparse Hmasked) as (srcIP & destIP & Hok).
  { vm_compute. discriminate. }
  rewrite Hfull in Hok. discriminate.
Qed.

Lemma allocateTunIP_fails_witness :
  allocateTunIP Sample.parseCIDR4 Sample.dottedNet Sample.dotted "10.1.1.0/33"
  = ("", "", Some (ParseError "10.1.1.0/33"))
  ∧ allocateTunIP Sample.parseCIDR4 Sample.dottedNet Sample.dotted "10.1.1.0/31"
    = ("", "", Some ErrFull).
Proof.
  split.
  - apply (allocateTunIP_fails Sample.parseCIDR4 Sample.dottedNet Sample.dotted
             "10.1.1.0/33").
    vm_compute. reflexivity.
  - apply (proj2 (allocateTunIP_fails Sample.parseCIDR4 Sample.dottedNet
                    Sample.dotted "10.1.1.0/31"))
      with (ipnet := {| IP := 167837952; Ones := 31; Bits := 32 |}).
    + vm_compute. reflexivity.
    + vm_compute. reflexivity.
Defined.

(** ** Qualified host names *)

Lemma append_length s t :
  String.length (s +:+ t) = (String.length s + String.length t)%nat.
Proof. induction s as [|c s IH]; simpl; [done|]. by rewrite IH. Qed.

(** A qualified name determines the service name once the namespace is
    known. *)
Lemma append_suffix_inj s1 s2 t : s1 +:+ t = s2 +:+ t → s1 = s2.
Proof.
  revert s2. induction s1 as [|c1 s1 IH]; intros [|c2 s2] Heq; simpl in *.
  - done.
  - apply (f_equal String.length) in Heq.
    rewrite ?append_length in Heq. simpl in Heq.
    rewrite ?append_length in Heq. lia.
  - apply (f_equal String.length) in Heq.
    rewrite ?append_length in Heq. simpl in Heq.
    rewrite ?append_length in Heq. lia.
  - injection Heq as -> Heq. by rewrite (IH _ Heq).
Qed.

Lemma occurs_append c s t : occurs c (s +:+ t) = (occurs c s || occurs c t)%bool.
Proof.
  induction s as [|c' s IH]; simpl; [done|].
  by destruct (decide (c' = c)).
Qed.

Lemma qualified_has_dot svc namespace :
  occurs "."%char (svc +:+ "." +:+ namespace) = true.
Proof. rewrite occurs_append. simpl. by destruct (occurs _ svc). Qed.

(** Service names without a dot make the qualified name decode uniquely:
    the first dot separates the service name from the namespace. *)
Lemma qualified_inj svc1 svc2 ns1 ns2 :
  occurs "."%char svc1 = false → occurs "."%char svc2 = false →
  svc1 +:+ "." +:+ ns1 = svc2 +:+ "." +:+ ns2 → svc1 = svc2 ∧ ns1 = ns2.
Proof.
  revert svc2. induction svc1 as [|c1 s1 IH]; intros [|c2 s2]; simpl.
  - intros _ _ Heq. by simplify_eq/=.
  - destruct (decide (c2 = "."%char)) as [->|Hc]; [done|].
    intros _ _ Heq. by simplify_eq/=.
  - destruct (decide (c1 = "."%char)) as [->|Hc]; [done|].
    intros _ _ Heq. by simplify_eq/=.
  - destruct (decide (c1 = "."%char)); [done|].
    destruct (decide (c2 = "."%char)); [done|].
    intros H1 H2 Heq. injection Heq as -> Heq.
    destruct (IH _ H1 H2 Heq) as [-> ->]. done.
Qed.

(** ** The merged host table *)

Section HostTable.
Variable serviceHosts : string → gmap string string.
Variable primary : string.
Implicit Types (hosts : gmap string string) (l : list (string * string)).

Lemma mergeService_lookup namespace svc ip hosts k :
  mergeService namespace svc ip hosts !! k =
    if decide (kept ip ∧ k = svc +:+ "." +:+ namespace) then Some ip
    else hosts !! k.
Proof.
  unfold mergeService, kept.
  destruct (decide (ip = "" ∨ ip = "None")) as [Hd|Hd].
  - rewrite decide_False; [done|]. intros [[??] _]. destruct Hd; done.
  - destruct (decide (k = svc +:+ "." +:+ namespace)) as [->|Hk].
    + rewrite lookup_insert_eq, decide_True; [done|]. split; [|done].
      split; intros ->; apply Hd; auto.
    + rewrite lookup_insert_ne by done. rewrite decide_False; [done|].
      intros [_ ?]. done.
Qed.

Lemma mergeEntries_snoc namespace l kv hosts :
  mergeEntries namespace (l ++ [kv])%list hosts
  = mergeService namespace kv.1 kv.2 (mergeEntries namespace l hosts).
Proof. unfold mergeEntries. by rewrite foldl_app. Qed.

(** Where an entry of the table after the inner loop comes from. *)
Lemma mergeEntries_origin namespace l hosts k v :
  mergeEntries namespace l hosts !! k = Some v →
  hosts !! k = Some v
  ∨ ∃ svc, (svc, v) ∈ l ∧ kept v ∧ k = svc +:+ "." +:+ namespace.
Proof.
  induction l as [|[svc ip] l IH] using rev_ind; [by left|].
  rewrite mergeEntries_snoc, mergeService_lookup. simpl.
  destruct (decide _) as [[Hkept ->]|_].
  - intros [= ->]. right. exists svc. split; [|done].
    apply elem_of_app. right. by apply list_elem_of_singleton.
  - intros Hl. destruct (IH Hl) as [?|(svc' & ? & ? & ?)]; [by left|].
    right. exists svc'. split; [|done]. apply elem_of_app. by left.
Qed.

(** Keys are never removed. *)
Lemma mergeEntries_keeps_keys namespace l hosts k :
  is_Some (hosts !! k) → is_Some (mergeEntries namespace l hosts !! k).
Proof.
  intros Hk. induction l as [|[svc ip] l IH] using rev_ind; [done|].
  rewrite mergeEntries_snoc, mergeService_lookup.
  destruct (decide _); [eauto|done].
Qed.

(** A key that is not a qualified name of a kept entry is not touched. *)
Lemma mergeEntries_untouched namespace l hosts k :
  (∀ svc ip, (svc, ip) ∈ l → kept ip → k ≠ svc +:+ "." +:+ namespace) →
  mergeEntries namespace l hosts !! k = hosts !! k.
Proof.
  induction l as [|[svc ip] l IH] using rev_ind; intros Hk; [done|].
  rewrite mergeEntries_snoc, mergeService_lookup. simpl.
  destruct (decide _) as [[Hkept ->]|_].
  - exfalso. apply (Hk svc ip); [|done..].
    apply elem_of_app. right. by apply list_elem_of_singleton.
  - apply IH. intros svc' ip' Hin. apply Hk. apply elem_of_app. by left.
Qed.

(** A kept entry is found under its qualified name, whatever the order in
    which the loop visits the entries of the table. *)
Lemma mergeEntries_kept namespace l hosts svc ip :
  NoDup l.*1 → (svc, ip) ∈ l → kept ip →
  mergeEntries namespace l hosts !! (svc +:+ "." +:+ namespace) = Some ip.
Proof.
  induction l as [|[svc' ip'] l IH] using rev_ind; intros Hnd Hin Hkept.
  { by apply elem_of_nil in Hin. }
  rewrite mergeEntries_snoc, mergeService_lookup. simpl.
  rewrite fmap_app in Hnd. apply NoDup_app in Hnd as (Hnd & Hfresh & _).
  apply elem_of_app in Hin as [Hin|Hin].
  - assert (svc ≠ svc') as Hne.
    { intros ->. apply (Hfresh svc'); [|by apply list_elem_of_singleton].
      apply list_elem_of_fmap. by exists (svc', ip). }
    rewrite decide_False; [by apply IH|].
    intros [_ Heq]. by apply append_suffix_inj in Heq.
  - apply list_elem_of_singleton in Hin as [= <- <-].
    by rewrite decide_True.
Qed.

Lemma mergeEntries_permutation namespace l1 l2 hosts :
  NoDup l1.*1 → l1 ≡ₚ l2 →
  mergeEntries namespace l1 hosts = mergeEntries namespace l2 hosts.
Proof.
  intros Hnd Hperm. apply map_eq. intros k.
  assert (NoDup l2.*1) as Hnd2 by (by rewrite <-Hperm).
  destruct (decide (Exists (λ kv, kept kv.2 ∧ k = kv.1 +:+ "." +:+ namespace) l1))
    as [Hex|Hno].
  - apply Exists_exists in Hex as ([svc ip] & Hin & Hkept & ->). simpl in *.
    rewrite (mergeEntries_kept _ _ _ _ _ Hnd Hin Hkept).
    symmetry. apply mergeEntries_kept; [done| |done]. by rewrite <-Hperm.
  - rewrite !mergeEntries_untouched; [done|..].
    + intros svc ip Hin Hkept ->. apply Hno, Exists_exists.
      exists (svc, ip). by rewrite Hperm.
    + intros svc ip Hin Hkept ->. apply Hno, Exists_exists. by exists (svc, ip).
Qed.

(** The outer loop, namespace by namespace. *)
Lemma mergeNamespace_keeps_keys namespace hosts k :
  is_Some (hosts !! k) →
  is_Some (mergeNamespace serviceHosts primary namespace hosts !! k).
Proof.
  unfold mergeNamespace. destruct (decide _); [done|].
  apply mergeEntries_keeps_keys.
Qed.

Lemma mergeNamespace_origin namespace hosts k v :
  mergeNamespace serviceHosts primary namespace hosts !! k = Some v →
  hosts !! k = Some v
  ∨ (namespace ≠ primary
     ∧ ∃ svc, serviceHosts namespace !! svc = Some v ∧ kept v
              ∧ k = svc +:+ "." +:+ namespace).
Proof.
  unfold mergeNamespace. destruct (decide _) as [|Hne]; [by left|].
  intros Hl. apply mergeEntries_origin in Hl as [?|(svc & Hin & ? & ?)];
    [by left|right].
  split; [done|]. exists svc. by rewrite <-elem_of_map_to_list.
Qed.

Lemma mergeNamespace_kept namespace hosts svc ip :
  namespace ≠ primary → serviceHosts namespace !! svc = Some ip → kept ip →
  mergeNamespace serviceHosts primary namespace hosts
    !! (svc +:+ "." +:+ namespace) = Some ip.
Proof.
  intros Hne Hsvc Hkept. unfold mergeNamespace. rewrite decide_False by done.
  apply mergeEntries_kept; [apply NoDup_fst_map_to_list| |done].
  by apply elem_of_map_to_list.
Qed.

Lemma mergeNamespace_untouched namespace hosts k :
  (∀ svc ip, serviceHosts namespace !! svc = Some ip → kept ip →
             k ≠ svc +:+ "." +:+ namespace) →
  mergeNamespace serviceHosts primary namespace hosts !! k = hosts !! k.
Proof.
  intros Hk. unfold mergeNamespace. destruct (decide _); [done|].
  apply mergeEntries_untouched. intros svc ip Hin.
  apply Hk. by apply elem_of_map_to_list.
Qed.

Lemma mergeAll_snoc extra namespace hosts :
  mergeAll serviceHosts primary (extra ++ [namespace])%list hosts
  = mergeNamespace serviceHosts primary namespace (mergeAll serviceHosts primary extra hosts).
Proof. unfold mergeAll. by rewrite foldl_app. Qed.

Lemma mergeAll_keeps_keys extra hosts k :
  is_Some (hosts !! k) → is_Some (mergeAll serviceHosts primary extra hosts !! k).
Proof.
  intros Hk. induction extra as [|ns extra IH] using rev_ind; [done|].
  rewrite mergeAll_snoc. by apply mergeNamespace_keeps_keys.
Qed.

Lemma mergeAll_origin extra hosts k v :
  mergeAll serviceHosts primary extra hosts !! k = Some v →
  hosts !! k = Some v
  ∨ ∃ namespace svc,
      namespace ∈ extra ∧ namespace ≠ primary
      ∧ serviceHosts namespace !! svc = Some v ∧ kept v
      ∧ k = svc +:+ "." +:+ namespace.
Proof.
  induction extra as [|ns extra IH] using rev_ind; [by left|].
  rewrite mergeAll_snoc. intros Hl.
  apply mergeNamespace_origin in Hl as [Hl|(Hne & svc & ? & ? & ?)].
  - destruct (IH Hl) as [?|(ns' & svc & ? & ?)]; [by left|right].
    exists ns', svc. split; [|done]. apply elem_of_app. by left.
  - right. exists ns, svc. split; [|done].
    apply elem_of_app. right. by apply list_elem_of_singleton.
Qed.

Lemma mergeAll_present extra hosts namespace svc ip :
  namespace ∈ extra → namespace ≠ primary →
  serviceHosts namespace !! svc = Some ip → kept ip →
  is_Some (mergeAll serviceHosts primary extra hosts !! (svc +:+ "." +:+ namespace)).
Proof.
  intros Hin Hne Hsvc Hkept.
  induction extra as [|ns extra IH] using rev_ind.
  { by apply elem_of_nil in Hin. }
  rewrite mergeAll_snoc. apply elem_of_app in Hin as [Hin|Hin].
  - by apply mergeNamespace_keeps_keys, IH.
  - apply list_elem_of_singleton in Hin as <-.
    rewrite (mergeNamespace_kept _ _ _ ip) by done. eauto.
Qed.

Lemma mergeAll_unqualified extra hosts k :
  occurs "."%char k = false → mergeAll serviceHosts primary extra hosts !! k = hosts !! k.
Proof.
  intros Hk. induction extra as [|ns extra IH] using rev_ind; [done|].
  rewrite mergeAll_snoc, mergeNamespace_untouched; [done|].
  intros svc ip _ _ ->. by rewrite qualified_has_dot in Hk.
Qed.

Lemma mergeAll_exact extra hosts namespace svc ip :
  dotFree serviceHosts → namespace ∈ extra → namespace ≠ primary →
  serviceHosts namespace !! svc = Some ip → kept ip →
  mergeAll serviceHosts primary extra hosts !! (svc +:+ "." +:+ namespace) = Some ip.
Proof.
  intros Hdot Hin Hne Hsvc Hkept.
  induction extra as [|ns extra IH] using rev_ind.
  { by apply elem_of_nil in Hin. }
  rewrite mergeAll_snoc.
  destruct (decide (ns = namespace)) as [->|Hns].
  - by apply mergeNamespace_kept.
  - apply elem_of_app in Hin as [Hin|Hin].
    2:{ apply list_elem_of_singleton in Hin. congruence. }
    rewrite mergeNamespace_untouched; [by apply IH|].
    intros svc' ip' Hsvc' _ Heq.
    apply qualified_inj in Heq as [_ ?]; [congruence|by eapply Hdot..].
Qed.

Lemma mergedHosts_mergeAll extra :
  mergedHosts serviceHosts primary extra = mergeAll serviceHosts primary extra (serviceHosts primary).
Proof. done. Qed.

(** Go visits the entries of a service table in an order of its own; the
    table the inner loop builds is the same for every order. *)
Lemma mergeNamespace_any_order namespace l hosts :
  namespace ≠ primary → l ≡ₚ map_to_list (serviceHosts namespace) →
  mergeEntries namespace l hosts
  = mergeNamespace serviceHosts primary namespace hosts.
Proof.
  intros Hne Hperm. unfold mergeNamespace. rewrite decide_False by done.
  apply mergeEntries_permutation; [|done].
  rewrite Hperm. apply NoDup_fst_map_to_list.
Qed.
End HostTable.

(** ** Running the orchestration *)

Section RunFacts.
Context {ProxyConfigT SSHCredential : Type}.
Variable common : Common.
Variable host : @Host ProxyConfigT.
Local Abbreviation World := (@World ProxyConfigT).
Local Abbreviation KubernetesInterface :=
  (@KubernetesInterface ProxyConfigT SSHCredential).
Local Abbreviation CliInterface := (@CliInterface ProxyConfigT SSHCredential).
Local Abbreviation Event := (@Event SSHCredential).

(** What [getOrCreateShadow] does, by the provisioner's answer: one call,
    with the computed name, labels and environment; on an error nothing is
    recorded, otherwise the name and the configuration handle are. *)
Lemma getOrCreateShadow_run err (kubernetes : KubernetesInterface) (w : World) :
  let o := options w in
  let workload := workloadName host o in
  let lbls := labels common (String2Map host) workload o in
  let r := GetOrCreateShadow kubernetes workload o lbls ∅ (envs common o) in
  getOrCreateShadow common host err kubernetes w
  = match r.2 with
    | Some e =>
        (("", "", None, Some e), w,
         [EvGetOrCreateShadow workload lbls ∅ (envs common o) (Some e)])
    | None =>
        ((r.1.1.1.1, r.1.1.1.2, r.1.2, None),
         withOptions (withRuntime (setSSHCM r.1.1.2))
           (withOptions (withRuntime (setShadow workload)) w),
         [EvGetOrCreateShadow workload lbls ∅ (envs common o) None])
    end.
Proof.
  intros o workload lbls r. unfold getOrCreateShadow.
  unfold mbind, M_bind, bind, getOptions, emit, modifyOptions, ret. simpl.
  fold o. change (if ShareShadow (ConnectOptions o) then _ else _)
            with (workloadName host o).
  fold workload. fold lbls. fold r.
  destruct r as [[[[endPointIP podName] sshcm] credential] [e|]]; done.
Qed.

(** *** Stage order *)

Lemma stages_app (a b : list Event) : stages (a ++ b)%list = (stages a ++ stages b)%list.
Proof. apply omap_app. Qed.

Lemma staged_nil lo hi : staged lo hi ([] : list Event).
Proof. split; constructor. Qed.

Lemma staged_log lo hi level msg (evs : list Event) :
  staged lo hi evs → staged lo hi (EvLog level msg :: evs).
Proof. done. Qed.

Lemma staged_weaken lo hi lo' hi' (evs : list Event) :
  (lo' ≤ lo)%nat → (hi ≤ hi')%nat → staged lo hi evs → staged lo' hi' evs.
Proof.
  intros Hlo Hhi [Hsorted Hall]. split; [done|].
  eapply Forall_impl; [exact Hall|]. simpl. lia.
Qed.

Lemma staged_app lo mid hi (a b : list Event) :
  (lo ≤ mid ≤ hi)%nat → staged lo mid a → staged mid hi b →
  staged lo hi (a ++ b).
Proof.
  intros Hmid [Ha Hla] [Hb Hlb]. unfold staged. rewrite stages_app. split.
  - apply StronglySorted_app_2; [|done..].
    intros x y Hx Hy.
    rewrite Forall_forall in Hla. rewrite Forall_forall in Hlb.
    specialize (Hla x Hx). specialize (Hlb y Hy). lia.
  - apply Forall_app. split.
    + eapply Forall_impl; [exact Hla|]. simpl. lia.
    + eapply Forall_impl; [exact Hlb|]. simpl. lia.
Qed.

Lemma staged_step lo hi n (ev : Event) :
  stage ev = Some n → (lo ≤ n ≤ hi)%nat → staged lo hi [ev].
Proof.
  intros Hst Hn. unfold staged, stages. simpl. rewrite Hst. split.
  - repeat constructor.
  - by apply Forall_singleton.
Qed.

Lemma staged_cons lo hi n (ev : Event) evs :
  stage ev = Some n → (lo ≤ n ≤ hi)%nat → staged n hi evs →
  staged lo hi (ev :: evs).
Proof.
  intros Hst Hn Hevs. change (ev :: evs) with ([ev] ++ evs)%list.
  apply (staged_app lo n hi); [lia| |done].
  apply (staged_step _ _ n); [done|lia].
Qed.

(** *** Loops *)

(** A loop whose body leaves the world alone computes a left fold of the
    body's result. *)
Lemma forEach_quiet {A B} (body : A → B → M B) (g : A → B → B)
    (Q : list Event → Prop) (w : World) :
  Q [] → (∀ a b, Q a → Q b → Q (a ++ b)%list) →
  (∀ x b, ∃ evs, body x b w = (g x b, w, evs) ∧ Q evs) →
  ∀ l b, ∃ evs,
    forEach body l b w = (foldl (λ b x, g x b) b l, w, evs) ∧ Q evs.
Proof.
  intros Hnil Happ Hbody l. induction l as [|x l IH]; intros b; simpl.
  - by exists [].
  - destruct (Hbody x b) as (evs1 & Hx & HQ1).
    destruct (IH (g x b)) as (evs2 & Hl & HQ2).
    exists (evs1 ++ evs2)%list. split; [|by apply Happ].
    unfold mbind, M_bind, bind. by rewrite Hx, Hl.
Qed.

Lemma onlyLogs_app (a b : list Event) : onlyLogs a → onlyLogs b → onlyLogs (a ++ b)%list.
Proof. unfold onlyLogs. rewrite stages_app. by intros -> ->. Qed.

Lemma onlyLogs_staged lo hi (evs : list Event) : onlyLogs evs → staged lo hi evs.
Proof. unfold onlyLogs, staged. intros ->. split; constructor. Qed.

Lemma onlyLogs_dumpedHosts (evs : list Event) : onlyLogs evs → dumpedHosts evs = [].
Proof.
  unfold onlyLogs, stages, dumpedHosts.
  induction evs as [|ev evs IH]; [done|]. simpl.
  destruct ev; simpl; done.
Qed.

(** *** [setupDump2Host] *)

Lemma queriedNamespaces_app (a b : list Event) :
  queriedNamespaces (a ++ b)%list
  = (queriedNamespaces a ++ queriedNamespaces b)%list.
Proof. apply omap_app. Qed.

Lemma onlyLogs_queriedNamespaces (evs : list Event) :
  onlyLogs evs → queriedNamespaces evs = [].
Proof.
  unfold onlyLogs, stages, queriedNamespaces.
  induction evs as [|ev evs IH]; [done|]. simpl.
  destruct ev; simpl; done.
Qed.

Lemma hostQueries_app (a b : list Event) : hostQueries a → hostQueries b → hostQueries (a ++ b)%list.
Proof.
  intros [Ha Hda] [Hb Hdb]. split.
  - by apply (staged_app 7 7 7); [lia|..].
  - unfold dumpedHosts in *. by rewrite omap_app, Hda, Hdb.
Qed.

Lemma hostQueries_nil : hostQueries ([] : list Event).
Proof. split; [apply staged_nil|done]. Qed.

Lemma onlyLogs_hostQueries (evs : list Event) : onlyLogs evs → hostQueries evs.
Proof.
  intros Hlogs. split; [by apply onlyLogs_staged|by apply onlyLogs_dumpedHosts].
Qed.

(** One turn of a loop, then the rest of it. *)
Lemma forEach_cons {A B} (body : A → B → M B) x l b (w : World) :
  forEach (SSHCredential := SSHCredential) body (x :: l) b w
  = let r := body x b w in
    let r' := forEach body l r.1.1 r.1.2 in
    (r'.1.1, r'.1.2, (r.2 ++ r'.2)%list).
Proof.
  simpl. unfold mbind, M_bind, bind.
  destruct (body x b w) as [[b1 w1] evs1]. simpl.
  by destruct (forEach body l b1 w1) as [[b2 w2] evs2].
Qed.

(** The body of the inner loop, case by case: an entry without an address
    is passed over; an entry with one is logged and written, which panics
    on the nil map; after a panic nothing happens. *)
Lemma dumpService_skip namespace svc ip (hosts : Table) (w : World) :
  ¬ kept ip →
  dumpService (SSHCredential := SSHCredential) namespace svc ip (Running hosts) w
  = (Running hosts, w, []).
Proof.
  intros Hskip. unfold dumpService. rewrite decide_True; [done|].
  unfold kept in Hskip.
  destruct (decide (ip = "")); [by left|].
  destruct (decide (ip = "None")); [by right|]. by destruct Hskip.
Qed.

Lemma dumpService_write namespace svc ip h (w : World) :
  kept ip →
  dumpService (SSHCredential := SSHCredential) namespace svc ip
    (Running (A := Table) (Some h)) w
  = (Running (A := Table) (Some (<[svc +:+ "." +:+ namespace := ip]> h)), w,
     [EvLog InfoLevel
        ("Service found: " +:+ svc +:+ "." +:+ namespace +:+ " " +:+ ip)]).
Proof.
  intros [H1 H2]. unfold dumpService. rewrite decide_False; [done|].
  by intros [?|?].
Qed.

Lemma dumpService_panic namespace svc ip (w : World) :
  kept ip →
  dumpService (SSHCredential := SSHCredential) namespace svc ip
    (Running (A := Table) None) w
  = (Panicked (Panic nilMapAssignment), w,
     [EvLog InfoLevel
        ("Service found: " +:+ svc +:+ "." +:+ namespace +:+ " " +:+ ip);
      EvPanic nilMapAssignment]).
Proof.
  intros [H1 H2]. unfold dumpService. rewrite decide_False; [done|].
  by intros [?|?].
Qed.

(** The inner loop on a table that is not nil: the fold of [mergeService],
    with log lines only. *)
Lemma dumpEntries_some namespace l h (w : World) :
  ∃ evs : list Event,
    forEach (λ kv, dumpService namespace kv.1 kv.2) l (Running (A := Table) (Some h)) w
    = (Running (A := Table) (Some (mergeEntries namespace l h)), w, evs)
    ∧ onlyLogs evs.
Proof.
  revert h. induction l as [|[svc ip] l IH]; intros h.
  { by exists []. }
  rewrite forEach_cons. cbv zeta. unfold mergeEntries. cbn [foldl fst snd].
  unfold mergeService at 2.
  destruct (decide (ip = "" ∨ ip = "None")) as [Hskip|Hkeep].
  - rewrite dumpService_skip by (unfold kept; intros [? ?]; by destruct Hskip).
    cbn [fst snd]. destruct (IH h) as (evs & -> & Hlogs). by exists evs.
  - rewrite dumpService_write
      by (split; intros ->; apply Hkeep; [by left|by right]).
    cbn [fst snd].
    destruct (IH (<[svc +:+ "." +:+ namespace := ip]> h)) as (evs & -> & Hlogs).
    eexists. split; [reflexivity|]. exact Hlogs.
Qed.

Lemma dumpEntries_panicked namespace l p (w : World) :
  forEach (λ kv, dumpService (SSHCredential := SSHCredential) namespace kv.1 kv.2)
    l (Panicked p) w
  = (Panicked p, w, []).
Proof.
  induction l as [|[svc ip] l IH]; [done|].
  rewrite forEach_cons. cbv zeta.
  change (dumpService namespace (svc, ip).1 (svc, ip).2 (Panicked p) w)
    with (@Panicked Table p, w, @nil Event).
  cbn [fst snd]. by rewrite IH.
Qed.

(** The inner loop on the nil map: nothing happens as long as no entry has
    an address to write; the first entry that has one is logged, and the
    write panics. *)
Lemma dumpEntries_nil_quiet namespace l (w : World) :
  ¬ Exists (λ kv : string * string, kept kv.2) l →
  forEach (λ kv, dumpService (SSHCredential := SSHCredential) namespace kv.1 kv.2)
    l (Running (A := Table) None) w
  = (Running (A := Table) None, w, []).
Proof.
  induction l as [|[svc ip] l IH]; intros Hnone; [done|].
  rewrite forEach_cons. cbv zeta.
  rewrite dumpService_skip by (intros Hk; apply Hnone; by left).
  cbn [fst snd]. rewrite IH; [done|]. intros Hex. apply Hnone. by right.
Qed.

Lemma dumpEntries_nil_panic namespace l (w : World) :
  Exists (λ kv : string * string, kept kv.2) l →
  ∃ evs : list Event,
    forEach (λ kv, dumpService namespace kv.1 kv.2) l (Running (A := Table) None) w
    = (Panicked (Panic nilMapAssignment), w,
       (evs ++ [EvPanic nilMapAssignment])%list)
    ∧ onlyLogs evs.
Proof.
  induction l as [|[svc ip] l IH]; intros Hex.
  { by apply Exists_nil in Hex. }
  rewrite forEach_cons. cbv zeta.
  destruct (decide (kept ip)) as [Hkeep|Hskip].
  - rewrite dumpService_panic by done. cbn [fst snd].
    rewrite dumpEntries_panicked. cbn [fst snd].
    eexists [_]. split; [reflexivity|done].
  - rewrite dumpService_skip by done. cbn [fst snd].
    apply Exists_cons in Hex as [Hhere|Hlater]; [done|].
    destruct (IH Hlater) as (evs & -> & Hlogs). by exists evs.
Qed.

(** The body of the outer loop. *)
Lemma dumpNamespace_unfold (kubernetes : KubernetesInterface) namespace
    (hosts : Table) (w : World) :
  dumpNamespace kubernetes namespace (Running hosts) w
  = if decide (namespace = Namespace (options w)) then (Running hosts, w, [])
    else
      let r := forEach (λ kv, dumpService namespace kv.1 kv.2)
                 (map_to_list (entriesOf (ServiceHosts kubernetes) namespace))
                 (Running hosts) w in
      (r.1.1, r.1.2,
       (EvLog DebugLevel ("Search service in " +:+ namespace +:+ " namespace...")
        :: EvServiceHosts namespace :: r.2)).
Proof.
  unfold dumpNamespace. unfold mbind, M_bind, bind, getOptions. cbn [fst snd].
  destruct (decide (namespace = Namespace (options w))); [done|].
  unfold rangeMap, entriesOf, logMsg, emit. cbv zeta.
  by destruct (forEach _ _ _ w) as [[b1 w1] evs1].
Qed.

Lemma hostQueries_query namespace level msg (evs : list Event) :
  onlyLogs evs → hostQueries (EvLog level msg :: EvServiceHosts namespace :: evs).
Proof.
  intros Hlogs.
  change (hostQueries ([EvLog level msg; EvServiceHosts namespace] ++ evs)%list).
  apply hostQueries_app; [|by apply onlyLogs_hostQueries].
  split; [|done]. apply staged_log. by apply (staged_step _ _ 7%nat).
Qed.

Lemma queriedNamespaces_query namespace level msg (evs : list Event) :
  queriedNamespaces (EvLog level msg :: EvServiceHosts namespace :: evs)
  = namespace :: queriedNamespaces evs.
Proof. done. Qed.

(** One additional namespace, on a table that is not nil. *)
Lemma dumpNamespace_some (kubernetes : KubernetesInterface) namespace h
    (w : World) :
  ∃ evs : list Event,
    dumpNamespace kubernetes namespace (Running (A := Table) (Some h)) w
    = (Running (A := Table) (Some (mergeNamespace (entriesOf (ServiceHosts kubernetes))
                        (Namespace (options w)) namespace h)), w, evs)
    ∧ hostQueries evs
    ∧ queriedNamespaces evs
      = if decide (namespace = Namespace (options w)) then [] else [namespace].
Proof.
  rewrite dumpNamespace_unfold. unfold mergeNamespace.
  destruct (decide (namespace = Namespace (options w))).
  { exists []. split; [done|]. split; [apply hostQueries_nil|done]. }
  destruct (dumpEntries_some namespace
              (map_to_list (entriesOf (ServiceHosts kubernetes) namespace)) h w)
    as (evs & -> & Hlogs).
  cbv zeta. cbn [fst snd]. eexists. split; [reflexivity|].
  split; [by apply hostQueries_query|].
  by rewrite queriedNamespaces_query, (onlyLogs_queriedNamespaces _ Hlogs).
Qed.

(** One additional namespace, on the nil map, when it has nothing to
    write. *)
Lemma dumpNamespace_nil_quiet (kubernetes : KubernetesInterface) namespace
    (w : World) :
  ¬ writes (ServiceHosts kubernetes) (Namespace (options w)) namespace →
  ∃ evs : list Event,
    dumpNamespace kubernetes namespace (Running (A := Table) None) w
    = (Running (A := Table) None, w, evs)
    ∧ hostQueries evs
    ∧ queriedNamespaces evs
      = if decide (namespace = Namespace (options w)) then [] else [namespace].
Proof.
  intros Hquiet. rewrite dumpNamespace_unfold.
  destruct (decide (namespace = Namespace (options w))) as [|Hne].
  { exists []. split; [done|]. split; [apply hostQueries_nil|done]. }
  rewrite dumpEntries_nil_quiet by (intros Hex; apply Hquiet; by split).
  cbv zeta. cbn [fst snd]. eexists. split; [reflexivity|].
  split; [by apply hostQueries_query|done].
Qed.

(** One additional namespace, on the nil map, when it has an entry to
    write. *)
Lemma dumpNamespace_nil_panic (kubernetes : KubernetesInterface) namespace
    (w : World) :
  writes (ServiceHosts kubernetes) (Namespace (options w)) namespace →
  ∃ evs : list Event,
    dumpNamespace kubernetes namespace (Running (A := Table) None) w
    = (Panicked (Panic nilMapAssignment), w,
       (evs ++ [EvPanic nilMapAssignment])%list)
    ∧ hostQueries evs
    ∧ queriedNamespaces evs = [namespace].
Proof.
  intros [Hne Hex]. rewrite dumpNamespace_unfold.
  rewrite decide_False by done.
  destruct (dumpEntries_nil_panic namespace _ w Hex) as (evs & -> & Hlogs).
  cbv zeta. cbn [fst snd].
  exists (EvLog DebugLevel ("Search service in " +:+ namespace +:+ " namespace...")
          :: EvServiceHosts namespace :: evs).
  split; [reflexivity|]. split; [by apply hostQueries_query|].
  by rewrite queriedNamespaces_query, (onlyLogs_queriedNamespaces _ Hlogs).
Qed.

Lemma dumpNamespaces_panicked (kubernetes : KubernetesInterface) l p (w : World) :
  forEach (dumpNamespace kubernetes) l (Panicked p) w = (Panicked p, w, []).
Proof.
  induction l as [|ns l IH]; [done|].
  rewrite forEach_cons. cbv zeta.
  change (dumpNamespace kubernetes ns (Panicked p) w)
    with (@Panicked Table p, w, @nil Event).
  cbn [fst snd]. by rewrite IH.
Qed.

(** The outer loop on a table that is not nil: the fold of
    [mergeNamespace]; every listed namespace but the primary one is
    queried, in order. *)
Lemma dumpNamespaces_some (kubernetes : KubernetesInterface) l h (w : World) :
  ∃ evs : list Event,
    forEach (dumpNamespace kubernetes) l (Running (A := Table) (Some h)) w
    = (Running (A := Table) (Some (mergeAll (entriesOf (ServiceHosts kubernetes))
                        (Namespace (options w)) l h)), w, evs)
    ∧ hostQueries evs
    ∧ queriedNamespaces evs = filter (λ ns, ns ≠ Namespace (options w)) l.
Proof.
  revert h. induction l as [|ns l IH]; intros h.
  { exists []. split; [done|]. split; [apply hostQueries_nil|done]. }
  rewrite forEach_cons. cbv zeta.
  destruct (dumpNamespace_some kubernetes ns h w) as (evs1 & -> & Hq1 & Hn1).
  cbn [fst snd].
  destruct (IH (mergeNamespace (entriesOf (ServiceHosts kubernetes))
                  (Namespace (options w)) ns h)) as (evs2 & -> & Hq2 & Hn2).
  cbn [fst snd]. exists (evs1 ++ evs2)%list. split; [done|].
  split; [by apply hostQueries_app|].
  rewrite queriedNamespaces_app, Hn1, Hn2.
  destruct (decide (ns = Namespace (options w))) as [Heq|Hne].
  - rewrite filter_cons_False; [done|]. by intros Hne.
  - by rewrite filter_cons_True.
Qed.

(** The outer loop on the nil map when no listed namespace has an entry to
    write: the table stays nil and every listed namespace but the primary
    one is queried. *)
Lemma dumpNamespaces_nil_quiet (kubernetes : KubernetesInterface) l (w : World) :
  ¬ Exists (writes (ServiceHosts kubernetes) (Namespace (options w))) l →
  ∃ evs : list Event,
    forEach (dumpNamespace kubernetes) l (Running (A := Table) None) w
    = (Running (A := Table) None, w, evs)
    ∧ hostQueries evs
    ∧ queriedNamespaces evs = filter (λ ns, ns ≠ Namespace (options w)) l.
Proof.
  induction l as [|ns l IH]; intros Hquiet.
  { exists []. split; [done|]. split; [apply hostQueries_nil|done]. }
  rewrite forEach_cons. cbv zeta.
  destruct (dumpNamespace_nil_quiet kubernetes ns w) as (evs1 & -> & Hq1 & Hn1).
  { intros Hw. apply Hquiet. by left. }
  cbn [fst snd].
  destruct IH as (evs2 & -> & Hq2 & Hn2).
  { intros Hex. apply Hquiet. by right. }
  cbn [fst snd]. exists (evs1 ++ evs2)%list. split; [done|].
  split; [by apply hostQueries_app|].
  rewrite queriedNamespaces_app, Hn1, Hn2.
  destruct (decide (ns = Namespace (options w))) as [Heq|Hne].
  - rewrite filter_cons_False; [done|]. by intros Hne.
  - by rewrite filter_cons_True.
Qed.

(** The outer loop on the nil map when a listed namespace has an entry to
    write: the loop is left by the panic, at the first such namespace. *)
Lemma dumpNamespaces_nil_panic (kubernetes : KubernetesInterface) l (w : World) :
  Exists (writes (ServiceHosts kubernetes) (Namespace (options w))) l →
  ∃ evs : list Event,
    forEach (dumpNamespace kubernetes) l (Running (A := Table) None) w
    = (Panicked (Panic nilMapAssignment), w,
       (evs ++ [EvPanic nilMapAssignment])%list)
    ∧ hostQueries evs
    ∧ queriedNamespaces evs
      `prefix_of` filter (λ ns, ns ≠ Namespace (options w)) l.
Proof.
  induction l as [|ns l IH]; intros Hex.
  { by apply Exists_nil in Hex. }
  rewrite forEach_cons. cbv zeta.
  destruct (decide (writes (ServiceHosts kubernetes) (Namespace (options w)) ns))
    as [Hw|Hquiet].
  - destruct (dumpNamespace_nil_panic kubernetes ns w Hw)
      as (evs1 & -> & Hq1 & Hn1).
    cbn [fst snd]. rewrite dumpNamespaces_panicked. cbn [fst snd].
    exists evs1. split; [by rewrite app_nil_r|]. split; [done|].
    rewrite Hn1. destruct Hw as [Hne _]. rewrite filter_cons_True by done.
    apply prefix_cons, prefix_nil.
  - destruct (dumpNamespace_nil_quiet kubernetes ns w Hquiet)
      as (evs1 & -> & Hq1 & Hn1).
    cbn [fst snd].
    apply Exists_cons in Hex as [Hhere|Hlater]; [done|].
    destruct (IH Hlater) as (evs2 & -> & Hq2 & Hn2).
    cbn [fst snd]. exists (evs1 ++ evs2)%list.
    split; [by rewrite List.app_assoc|]. split; [by apply hostQueries_app|].
    rewrite queriedNamespaces_app, Hn1.
    destruct (decide (ns = Namespace (options w))) as [Heq|Hne].
    + rewrite filter_cons_False; [done|]. by intros Hne.
    + rewrite filter_cons_True by done. by apply prefix_cons.
Qed.

(** The function up to the end of its loops. *)
Lemma setupDump2Host_unfold (kubernetes : KubernetesInterface) (w : World) :
  let o := options w in
  let hosts := ServiceHosts kubernetes (Namespace o) in
  let r1 := forEach
              (λ kv (_ : unit),
                 logMsg InfoLevel ("Service found: " +:+ kv.1 +:+ " " +:+ kv.2))
              (map_to_list (entries hosts)) tt w in
  let r2 := forEach (dumpNamespace kubernetes)
              (Dump2HostsNamespaces (ConnectOptions o)) (Running hosts) r1.1.2 in
  setupDump2Host kubernetes w
  = match r2.1.1 with
    | Panicked p =>
        (Some p, r2.1.2, (EvServiceHosts (Namespace o) :: r1.2 ++ r2.2)%list)
    | Running hosts =>
        (None, withOptions (withRuntime (setDump2Host true)) r2.1.2,
         (EvServiceHosts (Namespace o) :: r1.2 ++ r2.2 ++ [EvDumpHosts hosts])%list)
    end.
Proof.
  intros o hosts r1 r2. subst r2. unfold setupDump2Host.
  unfold mbind, M_bind, bind, getOptions, emit, rangeMap. cbn [fst snd].
  fold o. fold hosts. fold r1.
  destruct r1 as [[u w1] evs1]. cbn [fst snd].
  assert ((if decide (0 < length (Dump2HostsNamespaces (ConnectOptions o)))%nat
           then forEach (dumpNamespace kubernetes)
                  (Dump2HostsNamespaces (ConnectOptions o)) (Running hosts)
           else ret (Running hosts)) w1
          = forEach (dumpNamespace kubernetes)
              (Dump2HostsNamespaces (ConnectOptions o)) (Running hosts) w1) as ->.
  { destruct (decide _) as [Hlen|Hlen]; [done|].
    destruct (Dump2HostsNamespaces (ConnectOptions o)); [done|].
    simpl in Hlen. lia. }
  destruct (forEach (dumpNamespace kubernetes) _ _ w1) as [[[t|p] w2] evs2];
    cbn [fst snd].
  - unfold modifyOptions, ret. cbn [fst snd]. by rewrite !app_nil_r.
  - unfold ret. by rewrite !app_nil_r.
Qed.

(** The host table builder.  On the inputs on which it assigns to the nil
    map it panics after its queries: nothing is handed to [util.DumpHosts]
    and the world is as it was.  On every other input it hands exactly one
    table to [util.DumpHosts], the merged table, after having queried the
    primary namespace and then every listed namespace but the primary one,
    and raises the host-dump flag. *)
Lemma setupDump2Host_run (kubernetes : KubernetesInterface) (w : World) :
  let primary := Namespace (options w) in
  let extra := Dump2HostsNamespaces (ConnectOptions (options w)) in
  let tables := ServiceHosts kubernetes in
  ∃ pre : list Event,
    hostQueries pre
    ∧ (assignsToNil tables primary extra →
       setupDump2Host kubernetes w
       = (Some (Panic nilMapAssignment), w,
          (pre ++ [EvPanic nilMapAssignment])%list)
       ∧ queriedNamespaces pre
         `prefix_of` primary :: filter (λ ns, ns ≠ primary) extra)
    ∧ (¬ assignsToNil tables primary extra →
       setupDump2Host kubernetes w
       = (None, withOptions (withRuntime (setDump2Host true)) w,
          (pre ++ [EvDumpHosts (handedTable tables primary extra)])%list)
       ∧ queriedNamespaces pre = primary :: filter (λ ns, ns ≠ primary) extra).
Proof.
  intros primary extra tables.
  rewrite setupDump2Host_unfold. cbv zeta. fold primary. fold extra.
  destruct (forEach_quiet
              (λ kv (_ : unit),
                 logMsg InfoLevel ("Service found: " +:+ kv.1 +:+ " " +:+ kv.2))
              (λ _ _, tt) onlyLogs w eq_refl onlyLogs_app
              (λ kv b, ex_intro _ _ (conj eq_refl eq_refl))
              (map_to_list (entries (ServiceHosts kubernetes primary))) tt)
    as (evs1 & -> & Hlogs1).
  cbn [fst snd].
  assert (∀ evs2 : list Event, hostQueries evs2 →
            hostQueries (EvServiceHosts primary :: evs1 ++ evs2)%list) as Hpre.
  { intros evs2 Hq2.
    change (hostQueries ([EvServiceHosts primary] ++ evs1 ++ evs2)%list).
    apply hostQueries_app; [|apply hostQueries_app; [|done]].
    - split; [|done]. by apply (staged_step _ _ 7%nat).
    - by apply onlyLogs_hostQueries. }
  assert (∀ evs2 : list Event,
            queriedNamespaces (EvServiceHosts primary :: evs1 ++ evs2)%list
            = primary :: queriedNamespaces evs2) as Hqueried.
  { intros evs2.
    change (EvServiceHosts primary :: evs1 ++ evs2)%list
      with ([EvServiceHosts primary] ++ evs1 ++ evs2)%list.
    by rewrite !queriedNamespaces_app, (onlyLogs_queriedNamespaces _ Hlogs1). }
  unfold assignsToNil, handedTable. fold tables.
  destruct (tables primary) as [h|] eqn:Hprimary.
  - destruct (dumpNamespaces_some kubernetes extra h w)
      as (evs2 & -> & Hq2 & Hn2).
    cbn [fst snd]. exists (EvServiceHosts primary :: evs1 ++ evs2)%list.
    split; [by apply Hpre|]. split; [by intros [? _]|]. intros _.
    split; [|by rewrite Hqueried, Hn2].
    f_equal. cbn. f_equal. by rewrite <-List.app_assoc.
  - destruct (decide (Exists (writes tables primary) extra)) as [Hex|Hquiet].
    + destruct (dumpNamespaces_nil_panic kubernetes extra w Hex)
        as (evs2 & -> & Hq2 & Hn2).
      cbn [fst snd]. exists (EvServiceHosts primary :: evs1 ++ evs2)%list.
      split; [by apply Hpre|]. split; [|by intros []].
      intros _. split.
      * f_equal. cbn. f_equal. by rewrite <-List.app_assoc.
      * rewrite Hqueried. by apply prefix_cons.
    + destruct (dumpNamespaces_nil_quiet kubernetes extra w Hquiet)
        as (evs2 & -> & Hq2 & Hn2).
      cbn [fst snd]. exists (EvServiceHosts primary :: evs1 ++ evs2)%list.
      split; [by apply Hpre|]. split; [by intros [_ ?]|]. intros _.
      split; [|by rewrite Hqueried, Hn2].
      f_equal. cbn. f_equal. by rewrite <-List.app_assoc.
Qed.

Lemma dumpedHosts_app (a b : list Event) :
  dumpedHosts (a ++ b)%list = (dumpedHosts a ++ dumpedHosts b)%list.
Proof. apply omap_app. Qed.

Lemma dumpCalls_app (a b : list Event) :
  dumpCalls (a ++ b)%list = (dumpCalls a ++ dumpCalls b)%list.
Proof. apply omap_app. Qed.

Lemma panics_app (a b : list Event) :
  panics (a ++ b)%list = (panics a ++ panics b)%list.
Proof. apply omap_app. Qed.

Lemma staged_stage lo hi (evs : list Event) ev n :
  staged lo hi evs → ev ∈ evs → stage ev = Some n → (lo ≤ n ≤ hi)%nat.
Proof.
  intros [_ Hall] Hin Hst. rewrite Forall_forall in Hall. apply Hall.
  unfold stages. apply list_elem_of_omap. by exists ev.
Qed.

(** Steps outside the host table builder hand no table over, ask for none
    and do not panic. *)
Lemma staged_no_dump lo hi (evs : list Event) :
  staged lo hi evs → (hi < 7 ∨ 8 < lo)%nat →
  dumpedHosts evs = [] ∧ queriedNamespaces evs = []
  ∧ dumpCalls evs = [] ∧ panics evs = [].
Proof.
  intros Hst Hrange.
  assert (∀ ev, ev ∈ evs → stage ev ≠ Some 7%nat ∧ stage ev ≠ Some 8%nat) as Hno.
  { intros ev Hin. split; intros Hs;
      pose proof (staged_stage _ _ _ _ _ Hst Hin Hs); lia. }
  clear Hst. unfold dumpedHosts, queriedNamespaces, dumpCalls, panics.
  induction evs as [|ev evs IH]; [done|].
  destruct IH as (IH1 & IH2 & IH3 & IH4).
  { intros ev' Hin. apply Hno. by apply list_elem_of_further. }
  destruct (Hno ev (list_elem_of_here _ _)) as [H7 H8].
  simpl. destruct ev; simpl in *; done.
Qed.

(** The queries of the host table builder hand no table over and do not
    panic. *)
Lemma hostQueries_no_dump (evs : list Event) :
  hostQueries evs → dumpedHosts evs = [] ∧ dumpCalls evs = [] ∧ panics evs = [].
Proof.
  intros [Hst _].
  assert (∀ ev, ev ∈ evs → stage ev ≠ Some 8%nat) as Hno.
  { intros ev Hin Hs. pose proof (staged_stage _ _ _ _ _ Hst Hin Hs). lia. }
  clear Hst. unfold dumpedHosts, dumpCalls, panics.
  induction evs as [|ev evs IH]; [done|].
  destruct IH as (IH1 & IH2 & IH3).
  { intros ev' Hin. apply Hno. by apply list_elem_of_further. }
  pose proof (Hno ev (list_elem_of_here _ _)) as H8.
  simpl. destruct ev; simpl in *; done.
Qed.

(** What the host table builder hands over, the nil map apart: the merged
    table when the primary table is not nil, nothing otherwise. *)
Lemma setupDump2Host_dumpedHosts (kubernetes : KubernetesInterface) (w : World) :
  let primary := Namespace (options w) in
  let extra := Dump2HostsNamespaces (ConnectOptions (options w)) in
  dumpedHosts (setupDump2Host kubernetes w).2
  = match ServiceHosts kubernetes primary with
    | Some _ => [mergedHosts (entriesOf (ServiceHosts kubernetes)) primary extra]
    | None => []
    end.
Proof.
  intros primary extra.
  destruct (setupDump2Host_run kubernetes w) as (pre & Hpre & Hpanic & Hok).
  fold primary in Hpanic, Hok. fold extra in Hpanic, Hok.
  destruct (hostQueries_no_dump _ Hpre) as (Hd & _).
  destruct (decide (assignsToNil (ServiceHosts kubernetes) primary extra))
    as [Hnil|Hnil].
  - destruct (Hpanic Hnil) as [-> _]. cbn [snd].
    rewrite dumpedHosts_app, Hd. destruct Hnil as [-> _]. done.
  - destruct (Hok Hnil) as [-> _]. cbn [snd].
    rewrite dumpedHosts_app, Hd. unfold handedTable, mergedHosts, entriesOf.
    by destruct (ServiceHosts kubernetes primary).
Qed.

(** The host table of C1.  When the primary namespace's table is not the
    nil map, [setupDump2Host] hands one table to [util.DumpHosts]; when it
    is the nil map no entry is ever handed over.  In a table handed over,
    every key of the primary namespace's table is present; every entry of
    a listed namespace other than the primary one whose address is neither
    empty nor "None" has its qualified key [service.namespace] in it; every
    entry of the table is an entry of the primary namespace under its own
    key or such a kept entry of another listed namespace under its
    qualified key, so an entry of an additional namespace with an empty or
    "None" address is never inserted.  When no service name contains a dot,
    no two of these keys collide, and each key carries the address of its
    own entry. *)
Theorem setupDump2Host_table (kubernetes : KubernetesInterface) (w : World) :
  let primary := Namespace (options w) in
  let extra := Dump2HostsNamespaces (ConnectOptions (options w)) in
  let tables := entriesOf (ServiceHosts kubernetes) in
  let run := setupDump2Host kubernetes w in
  (is_Some (ServiceHosts kubernetes primary) →
   ∃ table, dumpedHosts run.2 = [table])
  ∧ (ServiceHosts kubernetes primary = None → dumpedHosts run.2 = [])
  ∧ ∀ table, table ∈ dumpedHosts run.2 →
    (∀ k, is_Some (tables primary !! k) → is_Some (table !! k))
    ∧ (∀ namespace svc ip,
         namespace ∈ extra → namespace ≠ primary →
         tables namespace !! svc = Some ip → kept ip →
         is_Some (table !! (svc +:+ "." +:+ namespace)))
    ∧ (∀ k v, table !! k = Some v →
         tables primary !! k = Some v
         ∨ ∃ namespace svc,
             namespace ∈ extra ∧ namespace ≠ primary
             ∧ tables namespace !! svc = Some v ∧ kept v
             ∧ k = svc +:+ "." +:+ namespace)
    ∧ (dotFree tables →
         (∀ k v, tables primary !! k = Some v → table !! k = Some v)
         ∧ (∀ namespace svc ip,
              namespace ∈ extra → namespace ≠ primary →
              tables namespace !! svc = Some ip → kept ip →
              table !! (svc +:+ "." +:+ namespace) = Some ip)).
Proof.
  intros primary extra tables run. subst run.
  rewrite setupDump2Host_dumpedHosts. fold primary. fold extra. fold tables.
  split.
  { intros [h ->]. by eexists. }
  split.
  { by intros ->. }
  intros table Hin.
  assert (table = mergedHosts tables primary extra) as ->.
  { destruct (ServiceHosts kubernetes primary).
    - by apply list_elem_of_singleton in Hin.
    - by apply elem_of_nil in Hin. }
  rewrite mergedHosts_mergeAll.
  split; [intros k; apply mergeAll_keeps_keys|].
  split; [intros ns svc ip; apply mergeAll_present|].
  split; [intros k v; apply mergeAll_origin|].
  intros Hdot. split.
  - intros k v Hk. rewrite mergeAll_unqualified; [done|]. by eapply Hdot.
  - intros ns svc ip. by apply mergeAll_exact.
Qed.

(** *** The proxy registrar calls *)

Lemma setupSocksProxy_run (w : World) :
  let port := SocksPort (ConnectOptions (options w)) in
  let r1 := SetGlobalProxy host port (ProxyConfig (RuntimeOptions (options w))) in
  let r2 := SetHttpProxyEnvironmentVariable host port r1.1 in
  setupSocksProxy (SSHCredential := SSHCredential) host w
  = (r2.2,
     withOptions (withRuntime (setProxyConfig r2.1))
       (withOptions (withRuntime (setProxyConfig r1.1)) w),
     ([EvSetGlobalProxy port r1.2]
      ++ failureLog "Failed to setup global connect proxy: " r1.2
      ++ [EvSetHttpProxyEnvironmentVariable port r2.2]
      ++ failureLog "Failed to setup global http proxy: " r2.2)%list).
Proof.
  intros port r1 r2. unfold setupSocksProxy.
  unfold mbind, M_bind, bind, getOptions, emit, modifyOptions, logMsg, ret.
  subst r2 r1 port. simpl.
  destruct (SetGlobalProxy host _ _) as [pc1 [e1|]]; simpl;
    destruct (SetHttpProxyEnvironmentVariable host _ pc1) as [pc2 [e2|]];
    reflexivity.
Qed.

Lemma failureLog_onlyLogs what err : onlyLogs (failureLog what err : list Event).
Proof. by destruct err. Qed.

Lemma setupSocksProxy_staged (w : World) :
  staged 9 10 (setupSocksProxy (SSHCredential := SSHCredential) host w).2.
Proof.
  rewrite setupSocksProxy_run. simpl.
  apply (staged_cons _ _ 9%nat); [done|lia|].
  apply (staged_app 9 9 10); [lia|by apply onlyLogs_staged, failureLog_onlyLogs|].
  apply (staged_cons _ _ 10%nat); [done|lia|].
  by apply onlyLogs_staged, failureLog_onlyLogs.
Qed.

Lemma setupFrame_refl (w : World) : setupFrame w w.
Proof. by repeat split. Qed.

Lemma setupFrame_trans (w1 w2 w3 : World) :
  setupFrame w1 w2 → setupFrame w2 w3 → setupFrame w1 w3.
Proof.
  unfold setupFrame. intros (?&?&?&?&?&?&?&?) (?&?&?&?&?&?&?&?).
  repeat split; congruence.
Qed.

Lemma setupFrame_proxy pc (w : World) :
  setupFrame w (withOptions (withRuntime (setProxyConfig pc)) w).
Proof. by repeat split. Qed.

Lemma setupFrame_dump b (w : World) :
  setupFrame w (withOptions (withRuntime (setDump2Host b)) w).
Proof. by repeat split. Qed.

(** *** Provisioning and hand-off *)

(** The error handed in is never read. *)
Lemma provisionAndHandOff_ignores_err (cli : CliInterface)
    (kubernetes : KubernetesInterface) err (w : World) :
  provisionAndHandOff common host cli kubernetes err w
  = provisionAndHandOff common host cli kubernetes None w.
Proof.
  unfold provisionAndHandOff. unfold mbind, M_bind, bind.
  by rewrite !getOrCreateShadow_run.
Qed.

(** What follows the provisioner's answer. *)
Lemma provisionAndHandOff_run (cli : CliInterface)
    (kubernetes : KubernetesInterface) err (w : World) :
  let o := options w in
  let workload := workloadName host o in
  let lbls := labels common (String2Map host) workload o in
  let r := GetOrCreateShadow kubernetes workload o lbls ∅ (envs common o) in
  let call := EvGetOrCreateShadow workload lbls ∅ (envs common o) r.2 in
  let w1 := withOptions (withRuntime (setSSHCM r.1.1.2))
              (withOptions (withRuntime (setShadow workload)) w) in
  let q := ClusterCrids kubernetes (Namespace o) (ConnectOptions o) in
  let out := Outbound cli r.1.1.1.2 r.1.1.1.1 r.1.2 q.1 in
  provisionAndHandOff common host cli kubernetes err w
  = match r.2 with
    | Some e => (Some e, w, [call])
    | None =>
        match q.2 with
        | Some e => (Some e, w1, [call; EvClusterCrids (Namespace o) (Some e)])
        | None =>
            (out, w1,
             [call; EvClusterCrids (Namespace o) None;
              EvOutbound r.1.1.1.2 r.1.1.1.1 r.1.2 q.1 out])
        end
    end.
Proof.
  intros o workload lbls r call w1 q out. unfold provisionAndHandOff.
  unfold mbind, M_bind, bind. rewrite getOrCreateShadow_run.
  fold o. fold workload. fold lbls. fold r. subst call.
  destruct r as [[[[endPointIP podName] sshcm] credential] [e|]]; simpl in *;
    [done|].
  unfold getOptions, emit, ret. simpl. fold o. fold q.
  destruct q as [cidrs [e|]]; simpl in *; done.
Qed.

Lemma provisionAndHandOff_staged (cli : CliInterface)
    (kubernetes : KubernetesInterface) err (w : World) :
  staged 11 13 (provisionAndHandOff common host cli kubernetes err w).2.
Proof.
  rewrite provisionAndHandOff_run.
  repeat case_match; simpl.
  - by apply (staged_step _ _ 11%nat); [|lia].
  - apply (staged_cons _ _ 11%nat); [done|lia|].
    by apply (staged_step _ _ 12%nat); [|lia].
  - apply (staged_cons _ _ 11%nat); [done|lia|].
    apply (staged_cons _ _ 12%nat); [done|lia|].
    by apply (staged_step _ _ 13%nat); [|lia].
Qed.

Lemma provisionAndHandOff_pidFiles (cli : CliInterface)
    (kubernetes : KubernetesInterface) err (w : World) :
  pidFiles (provisionAndHandOff common host cli kubernetes err w).1.2 = pidFiles w.
Proof. rewrite provisionAndHandOff_run. by repeat case_match. Qed.

(** A failing provisioner ends the run: its error is the result, its call
    is the only step, and the world is as before. *)
Lemma provisionAndHandOff_failure (cli : CliInterface)
    (kubernetes : KubernetesInterface) err (w : World) e :
  e ∈ shadowFailures (provisionAndHandOff common host cli kubernetes err w).2 →
  ∃ call,
    provisionAndHandOff common host cli kubernetes err w = (Some e, w, [call])
    ∧ isShadowCall call = true.
Proof.
  rewrite provisionAndHandOff_run.
  repeat case_match; simpl; intros Hin.
  - apply list_elem_of_singleton in Hin as ->. eauto.
  - by apply elem_of_nil in Hin.
  - by apply elem_of_nil in Hin.
Qed.

(** *** [connectToCluster], step by step *)

Lemma connectWith_unfold (cli : CliInterface) (kubernetes : KubernetesInterface)
    (w : World) :
  let d :=
    (if decide (IsWindows host = true
                ∨ (0 < length (Dump2HostsNamespaces (ConnectOptions (options w))))%nat)
     then setupDump2Host kubernetes else ret None) w in
  let s :=
    (if decide (Method (ConnectOptions (options d.1.2)) = ConnectMethodSocks common)
     then setupSocksProxy host else ret None) d.1.2 in
  let r := provisionAndHandOff common host cli kubernetes s.1.1 s.1.2 in
  connectWith common host cli kubernetes w
  = match d.1.1 with
    | Some p => (Some p, d.1.2, d.2)
    | None => (r.1.1, r.1.2, (d.2 ++ s.2 ++ r.2)%list)
    end.
Proof.
  intros d s r. unfold connectWith. unfold mbind, M_bind, bind, getOptions.
  simpl. fold d. destruct d as [[[p|] w1] evs1] eqn:Hd; simpl in *.
  { unfold ret. by rewrite app_nil_r. }
  fold s. destruct s as [[err w2] evs2] eqn:Hs. simpl in *.
  fold r. by destruct r as [[res w3] evs3].
Qed.

(** The host table step of [connectToCluster], run or not: its steps are
    table queries followed by the dump or the panic; it leaves the frame
    alone; it ends in a panic exactly on the inputs on which it assigns to
    the nil map, and then the world is as it was. *)
Lemma dumpStep_facts (kubernetes : KubernetesInterface) (b : bool) (w : World) :
  let d := (if b then setupDump2Host kubernetes else ret None) w in
  let nilWrite :=
    assignsToNil (ServiceHosts kubernetes) (Namespace (options w))
      (Dump2HostsNamespaces (ConnectOptions (options w))) in
  staged 7 8 (d.2 : list Event) ∧ setupFrame w d.1.2
  ∧ (∀ p, d.1.1 = Some p →
       b = true ∧ nilWrite ∧ p = Panic nilMapAssignment ∧ d.1.2 = w
       ∧ ∃ pre : list Event, d.2 = (pre ++ [EvPanic nilMapAssignment])%list)
  ∧ (d.1.1 = None → b = true → ¬ nilWrite).
Proof.
  intros d nilWrite. subst d.
  destruct b; simpl;
    [|split; [apply staged_nil|split; [apply setupFrame_refl|done]]].
  destruct (setupDump2Host_run kubernetes w) as (pre & Hpre & Hpanic & Hok).
  cbv zeta in Hpanic, Hok. fold nilWrite in Hpanic, Hok.
  destruct (decide nilWrite) as [Hnil|Hnil].
  - destruct (Hpanic Hnil) as [-> _]. cbn [fst snd].
    split; [|split; [apply setupFrame_refl|split]].
    + apply (staged_app 7 7 8); [lia|by destruct Hpre|].
      by apply (staged_step _ _ 8%nat); [|lia].
    + intros p [= <-]. split; [done|]. split; [exact Hnil|].
      split; [done|]. split; [done|]. by exists pre.
    + done.
  - destruct (Hok Hnil) as [-> _]. cbn [fst snd].
    split; [|split; [apply setupFrame_dump|split; done]].
    apply (staged_app 7 7 8); [lia|by destruct Hpre|].
    by apply (staged_step _ _ 8%nat); [|lia].
Qed.

Lemma socksStep_facts (b : bool) (w : World) :
  let s := (if b then setupSocksProxy host else ret None) w in
  staged 9 10 (s.2 : list Event) ∧ setupFrame w s.1.2.
Proof.
  destruct b; simpl; [|split; [apply staged_nil|apply setupFrame_refl]].
  split; [apply setupSocksProxy_staged|].
  rewrite setupSocksProxy_run. simpl.
  eapply setupFrame_trans; apply setupFrame_proxy.
Qed.

(** Everything after the cluster handle: either the host table builder
    panics, which ends the run with the world as it was, or the steps
    before provisioning leave the frame alone and come in stage order, and
    provisioning and hand-off follow. *)
Lemma connectWith_run (cli : CliInterface) (kubernetes : KubernetesInterface)
    (w : World) :
  (∃ pre : list Event,
     connectWith common host cli kubernetes w
     = (Some (Panic nilMapAssignment), w,
        (pre ++ [EvPanic nilMapAssignment])%list)
     ∧ staged 7 8 (pre ++ [EvPanic nilMapAssignment])%list
     ∧ assignsToNil (ServiceHosts kubernetes) (Namespace (options w))
         (Dump2HostsNamespaces (ConnectOptions (options w))))
  ∨ (∃ (pre : list Event) (w1 : World) err,
       connectWith common host cli kubernetes w
       = (let r := provisionAndHandOff common host cli kubernetes err w1 in
          (r.1.1, r.1.2, (pre ++ r.2)%list))
       ∧ staged 7 10 pre ∧ setupFrame w w1).
Proof.
  rewrite connectWith_unfold.
  set (b1 := decide (IsWindows host = true ∨ _)).
  pose proof (dumpStep_facts kubernetes (bool_decide (IsWindows host = true
     ∨ (0 < length (Dump2HostsNamespaces (ConnectOptions (options w))))%nat)) w)
    as Hd.
  unfold bool_decide in Hd. fold b1 in Hd.
  assert (∀ (A : Type) (x y : A), (if b1 then x else y)
            = (if (if b1 then true else false) then x else y)) as Hif.
  { intros. by destruct b1. }
  rewrite <-Hif in Hd. clear Hif. cbv zeta in Hd.
  set (d := (if b1 then setupDump2Host kubernetes else ret None) w) in *.
  destruct Hd as (Hd1 & Hd2 & Hd3 & _).
  cbv zeta. destruct d.1.1 as [p|] eqn:Hres.
  { left. destruct (Hd3 p eq_refl) as (_ & Hnil & -> & Hw & pre & Hevs).
    exists pre. rewrite Hw, <-Hevs. done. }
  right.
  set (b2 := decide (Method (ConnectOptions (options d.1.2)) = _)).
  pose proof (socksStep_facts (if b2 then true else false) d.1.2) as Hs.
  assert (∀ (A : Type) (x y : A), (if b2 then x else y)
            = (if (if b2 then true else false) then x else y)) as Hif.
  { intros. by destruct b2. }
  rewrite <-Hif in Hs. clear Hif. simpl in Hs.
  set (s := (if b2 then setupSocksProxy host else ret None) d.1.2) in *.
  destruct Hs as [Hs1 Hs2].
  exists (d.2 ++ s.2)%list, s.1.2, s.1.1. split; [|split].
  - cbv zeta. f_equal. apply List.app_assoc.
  - by apply (staged_app 7 8 10); [lia| |eapply staged_weaken; [| |exact Hs1]; lia].
  - by eapply setupFrame_trans.
Qed.

Lemma connectToCluster_unfold (cli : CliInterface) (w : World) :
  let f := PidFile (RuntimeOptions (options w)) in
  let pid := Getpid host in
  let w1 := withPidFiles (insert f pid) w in
  let head : list Event :=
    [EvWritePidFile f pid None;
     EvLog InfoLevel ("Connect start at " +:+ pretty pid);
     EvKubernetes (Kubernetes cli).2] in
  connectToCluster common host cli w
  = match pidFileWriteError host f with
    | Some e => (Some e, w, [EvWritePidFile f pid (Some e)])
    | None =>
        match (Kubernetes cli).2 with
        | Some e => (Some e, w1, head)
        | None =>
            let r := connectWith common host cli (Kubernetes cli).1 w1 in
            (r.1.1, r.1.2, (head ++ r.2)%list)
        end
    end.
Proof.
  intros f pid w1 head. unfold connectToCluster, WritePidFile.
  unfold mbind, M_bind, bind, getOptions, emit, logMsg, ret. simpl.
  fold f. destruct (pidFileWriteError host f) as [e|]; simpl; [done|].
  fold pid. fold w1. subst head.
  destruct (Kubernetes cli) as [kubernetes [e|]]; simpl; [done|].
  by destruct (connectWith common host cli kubernetes w1) as [[res w2] evs].
Qed.

(** The shape of a run of [connectToCluster]: either it stops before
    the proxy registrations, having called neither the provisioner nor the
    hand-off (the pid file could not be written, the cluster handle could
    not be obtained, or the host table builder panicked), or it reaches
    provisioning after steps that leave the frame alone. *)
Lemma connectToCluster_run (cli : CliInterface) (w : World) :
  let f := PidFile (RuntimeOptions (options w)) in
  (∃ e w1 (evs : list Event),
     connectToCluster common host cli w = (Some e, w1, evs)
     ∧ staged 5 8 evs
     ∧ (pidFiles w1 = pidFiles w ∨ pidFiles w1 = <[f := Getpid host]> (pidFiles w))
     ∧ options w1 = options w)
  ∨ (∃ (pre : list Event) (w1 : World) err,
       connectToCluster common host cli w
       = (let r := provisionAndHandOff common host cli (Kubernetes cli).1 err w1 in
          (r.1.1, r.1.2, (pre ++ r.2)%list))
       ∧ staged 5 10 pre
       ∧ setupFrame (withPidFiles (insert f (Getpid host)) w) w1
       ∧ pidFileWriteError host f = None).
Proof.
  intros f. rewrite connectToCluster_unfold. fold f.
  destruct (pidFileWriteError host f) as [e|] eqn:Hw.
  { left. eexists _, _, _. split; [done|]. split; [|by split; [left|]].
    by apply (staged_step _ _ 5%nat); [|lia]. }
  assert (staged 5 6
            ([EvWritePidFile f (Getpid host) None;
              EvLog InfoLevel ("Connect start at " +:+ pretty (Getpid host));
              EvKubernetes (Kubernetes cli).2] : list Event)) as Hhead.
  { apply (staged_cons _ _ 5%nat); [done|lia|]. apply staged_log.
    by apply (staged_step _ _ 6%nat); [|lia]. }
  destruct (Kubernetes cli).2 as [e|] eqn:Hk.
  { left. eexists _, _, _. split; [done|]. split; [|by split; [right|]].
    eapply staged_weaken; [| |exact Hhead]; lia. }
  destruct (connectWith_run cli (Kubernetes cli).1
              (withPidFiles (insert f (Getpid host)) w))
    as [(pre & -> & Hpre & _)|(pre & w1 & err & -> & Hpre & Hframe)].
  - left. eexists _, _, _. split; [done|]. split; [|by split; [right|]].
    cbn [snd]. by apply (staged_app 5 6 8); [lia| |eapply staged_weaken; [| |exact Hpre]; lia].
  - right.
    exists ([EvWritePidFile f (Getpid host) None;
             EvLog InfoLevel ("Connect start at " +:+ pretty (Getpid host));
             EvKubernetes None] ++ pre)%list, w1, err.
    split; [|split; [|split; [exact Hframe|done]]].
    + cbv zeta. simpl. reflexivity.
    + by apply (staged_app 5 6 10); [lia| |eapply staged_weaken; [| |exact Hpre]; lia].
Qed.

Lemma staged_no_handOff lo hi (evs : list Event) ev :
  staged lo hi evs → (hi < 12)%nat → ev ∈ evs → isHandOff ev = false.
Proof.
  intros Hst Hhi Hin. destruct ev; try done.
  - pose proof (staged_stage _ _ _ _ _ Hst Hin eq_refl). lia.
  - pose proof (staged_stage _ _ _ _ _ Hst Hin eq_refl). lia.
Qed.

Lemma staged_no_shadowFailures lo hi (evs : list Event) :
  staged lo hi evs → (hi < 11)%nat → shadowFailures evs = [].
Proof.
  intros Hst Hhi. unfold shadowFailures.
  induction evs as [|ev evs IH]; [done|].
  assert (staged lo hi evs) as Hst'.
  { destruct Hst as [Hs Ha]. unfold staged, stages in *. simpl in *.
    destruct (stage ev); [|done].
    apply StronglySorted_inv in Hs as [? _]. by apply Forall_cons in Ha as [_ ?]. }
  simpl. destruct ev; try (by apply IH).
  pose proof (staged_stage _ _ _ _ _ Hst (list_elem_of_here _ _) eq_refl). lia.
Qed.

(** C7.  When the shadow provisioner answers an error, [connectToCluster]
    returns that error; the provisioner call is the last step of the run,
    so neither the cluster CIDR query nor the transport hand-off is called;
    the shadow name and the configuration handle in the runtime options are
    what they were before. *)
Theorem connectToCluster_shadow_failure (cli : CliInterface) (w : World) e :
  e ∈ shadowFailures (connectToCluster common host cli w).2 →
  let run := connectToCluster common host cli w in
  run.1.1 = Some e
  ∧ (∀ ev, ev ∈ run.2 → isHandOff ev = false)
  ∧ (∃ pre call, run.2 = (pre ++ [call])%list ∧ isShadowCall call = true)
  ∧ Shadow (RuntimeOptions (options run.1.2)) = Shadow (RuntimeOptions (options w))
  ∧ SSHCM (RuntimeOptions (options run.1.2)) = SSHCM (RuntimeOptions (options w)).
Proof.
  intros Hfail run. subst run.
  destruct (connectToCluster_run cli w)
    as [(e' & w1 & evs & Hrun & Hst & _)|(pre & w1 & err & Hrun & Hst & Hframe & _)].
  { rewrite Hrun in Hfail. simpl in Hfail.
    rewrite (staged_no_shadowFailures _ _ _ Hst) in Hfail by lia.
    by apply elem_of_nil in Hfail. }
  rewrite Hrun in Hfail |- *. cbv zeta in *. simpl in Hfail.
  unfold shadowFailures in Hfail. rewrite omap_app in Hfail.
  fold (shadowFailures pre) in Hfail.
  rewrite (staged_no_shadowFailures _ _ _ Hst) in Hfail by lia.
  simpl in Hfail.
  apply provisionAndHandOff_failure in Hfail as (call & -> & Hcall). simpl.
  split; [done|]. split; [|split; [by exists pre, call|]].
  - intros ev [Hin|Hin]%elem_of_app.
    + by apply (staged_no_handOff _ _ _ _ Hst); [lia|].
    + apply list_elem_of_singleton in Hin as ->. by destruct call.
  - destruct Hframe as (_ & _ & _ & _ & _ & _ & HS & HC). done.
Qed.


Lemma connectToCluster_staged (cli : CliInterface) (w : World) :
  staged 5 13 (connectToCluster common host cli w).2.
Proof.
  destruct (connectToCluster_run cli w)
    as [(e' & w1 & evs & -> & Hst & _)|(pre & w1 & err & -> & Hst & _)].
  - simpl. eapply staged_weaken; [| |exact Hst]; lia.
  - cbv zeta. simpl. apply (staged_app 5 10 13); [lia|done|].
    eapply staged_weaken; [| |apply provisionAndHandOff_staged]; lia.
Qed.

(** Once the pid file is written it holds this process's identity for the
    rest of the run. *)
Lemma connectToCluster_pidFiles (cli : CliInterface) (w : World) :
  let f := PidFile (RuntimeOptions (options w)) in
  pidFileWriteError host f = None →
  pidFiles (connectToCluster common host cli w).1.2
  = <[f := Getpid host]> (pidFiles w).
Proof.
  intros f Hw. rewrite connectToCluster_unfold. fold f. rewrite Hw. cbv zeta.
  destruct (Kubernetes cli).2; [done|].
  destruct (connectWith_run cli (Kubernetes cli).1
              (withPidFiles (insert f (Getpid host)) w))
    as [(pre & -> & _)|(pre & w1 & err & -> & _ & Hframe)]; [done|].
  cbv zeta. simpl. rewrite provisionAndHandOff_pidFiles.
  by destruct Hframe as (-> & _).
Qed.

(** *** [Connect] *)

Lemma Connect_unfold (cli : CliInterface) (w : World) :
  let f := PidFile (RuntimeOptions (options w)) in
  Connect common host cli w
  = if lockHeld f w then
      (Some (Errorf ("another connect process already running with "
                     +:+ f +:+ ", exiting")),
       w, [EvIsDaemonRunning f true])
    else
      let r := connectToCluster common host cli w in
      (r.1.1, r.1.2,
       ([EvIsDaemonRunning f false; EvSetUpCloseHandler "connect"]
        ++ r.2
        ++ match r.1.1 with
           | Some _ => []
           | None => [EvLog InfoLevel ("Terminal signal is " +:+ TerminalSignal host)]
           end)%list).
Proof.
  intros f. unfold Connect, IsDaemonRunning.
  unfold mbind, M_bind, bind, getOptions, emit, logMsg, ret. simpl. fold f.
  destruct (lockHeld f w); [done|]. simpl.
  destruct (connectToCluster common host cli w) as [[[e|] w1] evs]; simpl.
  - by rewrite app_nil_r.
  - done.
Qed.

Lemma Connect_staged (cli : CliInterface) (w : World) :
  staged 3 13 (Connect common host cli w).2.
Proof.
  rewrite Connect_unfold. cbv zeta. destruct (lockHeld _ w); simpl.
  - by apply (staged_step _ _ 3%nat); [|lia].
  - apply (staged_cons _ _ 3%nat); [done|lia|].
    apply (staged_cons _ _ 4%nat); [done|lia|].
    apply (staged_app 4 13 13); [lia| |].
    + eapply staged_weaken; [| |apply connectToCluster_staged]; lia.
    + apply onlyLogs_staged. by destruct (_.1.1).
Qed.

(** C9.  While the pid file names a live process, [Connect] fails with the
    already-running error: the check is its only step, no pid file is
    written and the world is left as it was.  Once that pid file is
    removed, [Connect] passes the check, installs the close handler and
    writes the pid file; unless the write itself fails, the file holds this
    process's identity from then on. *)
Theorem Connect_lock (cli : CliInterface) (w : World) (pid : Z) :
  let f := PidFile (RuntimeOptions (options w)) in
  pidFiles w !! f = Some pid → pid ∈ processes w →
  Connect common host cli w
  = (Some (Errorf ("another connect process already running with "
                   +:+ f +:+ ", exiting")),
     w, [EvIsDaemonRunning f true])
  ∧ let released := withPidFiles (delete f) w in
    let run := Connect common host cli released in
    (∃ rest,
       run.2 = EvIsDaemonRunning f false :: EvSetUpCloseHandler "connect"
               :: EvWritePidFile f (Getpid host) (pidFileWriteError host f)
               :: rest)
    ∧ (pidFileWriteError host f = None →
       pidFiles run.1.2 !! f = Some (Getpid host)).
Proof.
  intros f Hfile Halive. split.
  - rewrite Connect_unfold. fold f. unfold lockHeld. rewrite Hfile.
    by rewrite bool_decide_eq_true_2.
  - cbv zeta. rewrite Connect_unfold.
    change (PidFile (RuntimeOptions (options (withPidFiles (delete f) w))))
      with f.
    assert (lockHeld f (withPidFiles (delete f) w) = false) as ->.
    { unfold lockHeld. simpl. by rewrite lookup_delete_eq. }
    cbv zeta. simpl. split.
    + rewrite connectToCluster_unfold.
      change (PidFile (RuntimeOptions (options (withPidFiles (delete f) w))))
        with f.
      destruct (pidFileWriteError host f); [by eexists|].
      destruct (Kubernetes cli).2; simpl; by eexists.
    + intros Hw. rewrite connectToCluster_pidFiles by done.
      apply lookup_insert_eq.
Qed.

(** *** [CompleteOptions] and the command action *)

Lemma CompleteOptions_run (w : World) :
  let c := ConnectOptions (options w) in
  let a := allocateTunIP (ParseCIDR host) (IPNetString host) (IPString host)
             (TunCidr c) in
  CompleteOptions (SSHCredential := SSHCredential) common host w
  = if decide (Method c = ConnectMethodTun common) then
      match a.2 with
      | Some e => (Some e, w, [EvAllocateTunIP (TunCidr c) (Some e)])
      | None =>
          (None,
           withOptions (withConnect (setDestIP a.1.2))
             (withOptions (withConnect (setSourceIP a.1.1)) w),
           [EvAllocateTunIP (TunCidr c) None])
      end
    else (None, w, []).
Proof.
  intros c a. unfold CompleteOptions.
  unfold mbind, M_bind, bind, getOptions, emit, modifyOptions, ret. simpl.
  fold c. destruct (decide (Method c = ConnectMethodTun common)) as [Htun|Htun];
    [|done].
  fold a. by destruct a as [[srcIP destIP] [e|]].
Qed.

Lemma CompleteOptions_facts (w : World) :
  let r := CompleteOptions (SSHCredential := SSHCredential) common host w in
  staged 1 1 r.2 ∧ pidFiles r.1.2 = pidFiles w ∧ processes r.1.2 = processes w.
Proof.
  rewrite CompleteOptions_run. cbv zeta.
  repeat case_match; simpl; (split; [|done]);
    try (by apply (staged_step _ _ 1%nat); [|lia]).
  apply staged_nil.
Qed.

Lemma Action_unfold (cli : CliInterface) (w : World) :
  let dbg : list Event :=
    if Debug (options w) then [EvSetGlobalLevel DebugLevel] else [] in
  let c := CompleteOptions (SSHCredential := SSHCredential) common host w in
  let k := combineKubeOpts host (options c.1.2) in
  let w2 := withOptions (λ _, k.1) c.1.2 in
  Action common host cli w
  = match c.1.1 with
    | Some e => (Some e, c.1.2, (dbg ++ c.2)%list)
    | None =>
        match k.2 with
        | Some e =>
            (Some e, w2, (dbg ++ c.2 ++ [EvCombineKubeOpts (Some e)])%list)
        | None =>
            let r := Connect common host cli w2 in
            (r.1.1, r.1.2, (dbg ++ c.2 ++ EvCombineKubeOpts None :: r.2)%list)
        end
    end.
Proof.
  intros dbg c k w2. unfold Action.
  unfold mbind, M_bind, bind, getOptions. simpl.
  assert ((if Debug (options w) then emit (EvSetGlobalLevel DebugLevel)
           else ret tt) w = (tt, w, dbg)) as ->.
  { subst dbg. by destruct (Debug (options w)). }
  fold c. destruct c as [[[e|] w1] evs1]; simpl in *.
  { by rewrite app_nil_r. }
  fold k. destruct k as [o2 [e|]]; simpl in *.
  - unfold emit, modifyOptions, ret. simpl. fold w2. done.
  - unfold emit, modifyOptions. simpl. fold w2.
    by destruct (Connect common host cli w2) as [[res w3] evs3].
Qed.

Lemma Action_staged (cli : CliInterface) (w : World) :
  staged 0 13 (Action common host cli w).2.
Proof.
  rewrite Action_unfold. cbv zeta.
  destruct (CompleteOptions_facts w) as (Hc & _).
  set (c := CompleteOptions common host w) in *.
  assert (staged 0 0 (if Debug (options w)
                      then [EvSetGlobalLevel DebugLevel : Event] else [])) as Hdbg.
  { destruct (Debug (options w)); [|apply staged_nil].
    by apply (staged_step _ _ 0%nat); [|lia]. }
  destruct c.1.1; simpl.
  { apply (staged_app 0 0 13); [lia|done|].
    eapply staged_weaken; [| |exact Hc]; lia. }
  destruct (combineKubeOpts host (options c.1.2)).2; simpl.
  - apply (staged_app 0 0 13); [lia|done|].
    apply (staged_app 0 1 13); [lia|eapply staged_weaken; [| |exact Hc]; lia|].
    by apply (staged_step _ _ 2%nat); [|lia].
  - apply (staged_app 0 0 13); [lia|done|].
    apply (staged_app 0 1 13); [lia|eapply staged_weaken; [| |exact Hc]; lia|].
    apply (staged_cons _ _ 2%nat); [done|lia|].
    eapply staged_weaken; [| |apply Connect_staged]; lia.
Qed.

(** C2, as the code has it.  The steps of the command run in the order in
    which they are written: the log level, the tunnel address allocation of
    [CompleteOptions], the kube options, and only then [Connect] with the
    running-daemon check, the close handler, the pid file, the cluster
    handle, the host table, the proxy registrations, shadow provisioning,
    the CIDR query and the hand-off.  The check comes before every other
    step of [Connect], but after the allocation: a run stopped by the check
    returns the already-running error with the check as its last step and
    the pid files untouched, and with the tun method it has performed the
    allocation. *)
Theorem Action_order (cli : CliInterface) (w : World) :
  let run := Action common host cli w in
  staged 0 13 run.2
  ∧ ∀ f, EvIsDaemonRunning f true ∈ run.2 →
      run.1.1 = Some (Errorf ("another connect process already running with "
                              +:+ f +:+ ", exiting"))
      ∧ (∃ pre, run.2 = (pre ++ [EvIsDaemonRunning f true])%list
                ∧ staged 0 2 pre)
      ∧ pidFiles run.1.2 = pidFiles w
      ∧ (Method (ConnectOptions (options w)) = ConnectMethodTun common →
         EvAllocateTunIP (TunCidr (ConnectOptions (options w))) None ∈ run.2).
Proof.
  intros run. split; [apply Action_staged|]. subst run.
  intros f. rewrite Action_unfold. cbv zeta.
  destruct (CompleteOptions_facts w) as (Hc & Hpid & _).
  pose proof (CompleteOptions_run w) as Hrun. cbv zeta in Hrun.
  set (c := CompleteOptions common host w) in *.
  set (dbg := if Debug (options w)
              then [EvSetGlobalLevel DebugLevel : Event] else []).
  assert (staged 0 0 dbg) as Hdbg.
  { subst dbg. destruct (Debug (options w)); [|apply staged_nil].
    by apply (staged_step _ _ 0%nat); [|lia]. }
  assert (staged 0 1 (dbg ++ c.2)) as Hhead.
  { apply (staged_app 0 0 1); [lia|done|].
    eapply staged_weaken; [| |exact Hc]; lia. }
  destruct c.1.1 as [e|] eqn:Hres; simpl.
  { intros Hin. pose proof (staged_stage _ _ _ _ _ Hhead Hin eq_refl). lia. }
  destruct (combineKubeOpts host (options c.1.2)) as [o2 [e|]]; simpl.
  { rewrite app_assoc. intros [Hin|Hin]%elem_of_app.
    - pose proof (staged_stage _ _ _ _ _ Hhead Hin eq_refl). lia.
    - by apply list_elem_of_singleton in Hin. }
  rewrite Connect_unfold. cbv zeta. simpl.
  set (w2 := withOptions (λ _, o2) c.1.2).
  set (f2 := PidFile (RuntimeOptions o2)).
  assert (staged 0 2 ((dbg ++ c.2) ++ [EvCombineKubeOpts None])) as Hpre.
  { apply (staged_app 0 1 2); [lia|done|].
    by apply (staged_step _ _ 2%nat); [|lia]. }
  change (dbg ++ c.2 ++ EvCombineKubeOpts None :: ?l)%list
    with (dbg ++ c.2 ++ [EvCombineKubeOpts None] ++ l)%list.
  rewrite !(app_assoc dbg), (app_assoc (dbg ++ c.2)).
  destruct (lockHeld f2 w2) eqn:Hheld; simpl.
  - intros [Hin|Hin]%elem_of_app.
    { pose proof (staged_stage _ _ _ _ _ Hpre Hin eq_refl). lia. }
    apply list_elem_of_singleton in Hin as [= ->].
    split; [done|]. split; [by eexists|]. split; [done|].
    intros Htun. rewrite decide_True in Hrun by done.
    apply elem_of_app. left. apply elem_of_app. left. apply elem_of_app. right.
    rewrite Hrun in Hres |- *.
    destruct (allocateTunIP _ _ _ _).2; simpl in *; [done|].
    apply list_elem_of_here.
  - intros [Hin|Hin]%elem_of_app.
    { pose proof (staged_stage _ _ _ _ _ Hpre Hin eq_refl). lia. }
    apply elem_of_cons in Hin as [[=]|Hin].
    assert (staged 4 13
              (EvSetUpCloseHandler "connect"
               :: (connectToCluster common host cli w2).2 ++
                  match (connectToCluster common host cli w2).1.1 with
                  | Some _ => []
                  | None =>
                      [EvLog InfoLevel
                         ("Terminal signal is " +:+ TerminalSignal host)]
                  end)) as Htail.
    { apply (staged_cons _ _ 4%nat); [done|lia|].
      apply (staged_app 4 13 13); [lia| |].
      + eapply staged_weaken; [| |apply connectToCluster_staged]; lia.
      + apply onlyLogs_staged.
        by destruct (connectToCluster common host cli w2).1.1. }
    pose proof (staged_stage _ _ _ _ _ Htail Hin eq_refl). lia.
Qed.

End RunFacts.

(** ** The shadow naming policy *)

(** C6.  With shadow sharing on, any two calls ask the provisioner for the
    same fixed name, whatever the host, the cluster, the world or the
    random source; with sharing off the name is the fixed prefix followed by
    the lower-cased random string, which has the length of the random string
    (five characters when the random source honours the length it is asked
    for).  After a successful call the name is recorded in the runtime
    options. *)
Theorem shadow_naming {ProxyConfigT SSHCredential : Type} (common : Common)
    (host1 host2 : @Host ProxyConfigT) (err1 err2 : option error)
    (k1 k2 : @KubernetesInterface ProxyConfigT SSHCredential)
    (w1 w2 : @World ProxyConfigT) :
  let run1 := getOrCreateShadow common host1 err1 k1 w1 in
  let run2 := getOrCreateShadow common host2 err2 k2 w2 in
  (ShareShadow (ConnectOptions (options w1)) = true →
   ShareShadow (ConnectOptions (options w2)) = true →
   requestedWorkloads run1.2 = ["kt-connect-daemon-connect-shared"]
   ∧ requestedWorkloads run2.2 = requestedWorkloads run1.2)
  ∧ (ShareShadow (ConnectOptions (options w1)) = false →
     ∃ suffix,
       requestedWorkloads run1.2 = ["kt-connect-daemon-" +:+ suffix]
       ∧ suffix = ToLower (RandomString host1 5)
       ∧ (String.length (RandomString host1 5) = 5%nat →
          String.length suffix = 5%nat))
  ∧ (run1.1.1.2 = None →
     Shadow (RuntimeOptions (options run1.1.2)) = workloadName host1 (options w1)).
Proof.
  intros run1 run2. subst run1 run2. rewrite !getOrCreateShadow_run. cbv zeta.
  split; [|split].
  - intros Hs1 Hs2. unfold workloadName. rewrite Hs1, Hs2.
    by repeat case_match.
  - intros Hs1. unfold workloadName. rewrite Hs1.
    exists (ToLower (RandomString host1 5)). split; [by repeat case_match|].
    split; [done|]. by rewrite ToLower_length.
  - by repeat case_match.
Qed.

Lemma shadow_naming_witness :
  let shared := Sample.world (Sample.daemonOptions ""
                  (Sample.connectOptions "tun" true [] "")) ∅ ∅ in
  let own := Sample.world (Sample.daemonOptions ""
               (Sample.connectOptions "tun" false [] "")) ∅ ∅ in
  requestedWorkloads
    (getOrCreateShadow Sample.common (Sample.host None) None
       (Sample.kubernetes Sample.serviceHosts None) shared).2
  = ["kt-connect-daemon-connect-shared"]
  ∧ requestedWorkloads
      (getOrCreateShadow Sample.common (Sample.host None) None
         (Sample.kubernetes Sample.serviceHosts None) own).2
    = ["kt-connect-daemon-abcde"].
Proof.
  split.
  - destruct (shadow_naming Sample.common (Sample.host None) (Sample.host None)
                None None (Sample.kubernetes Sample.serviceHosts None)
                (Sample.kubernetes Sample.serviceHosts None)
                (Sample.world (Sample.daemonOptions ""
                   (Sample.connectOptions "tun" true [] "")) ∅ ∅)
                (Sample.world (Sample.daemonOptions ""
                   (Sample.connectOptions "tun" true [] "")) ∅ ∅))
      as (Hshared & _).
    destruct (Hshared eq_refl eq_refl) as [Hreq _]. exact Hreq.
  - destruct (shadow_naming Sample.common (Sample.host None) (Sample.host None)
                None None (Sample.kubernetes Sample.serviceHosts None)
                (Sample.kubernetes Sample.serviceHosts None)
                (Sample.world (Sample.daemonOptions ""
                   (Sample.connectOptions "tun" false [] "")) ∅ ∅)
                (Sample.world (Sample.daemonOptions ""
                   (Sample.connectOptions "tun" false [] "")) ∅ ∅))
      as (_ & Hown & _).
    destruct (Hown eq_refl) as (suffix & Hreq & -> & _). exact Hreq.
Defined.

(** ** The design document's host table example *)

Lemma setupDump2Host_example :
  dumpedHosts
    (setupDump2Host (Sample.kubernetes Sample.serviceHosts None)
       (Sample.world (Sample.daemonOptions ""
          (Sample.connectOptions "tun" false ["ns2"] "")) ∅ ∅)).2
  = [ <[ "svcA.ns2" := "2.2.2.2" ]> {[ "svcA" := "1.1.1.1" ]} ].
Proof. vm_compute. reflexivity. Qed.

Lemma setupDump2Host_table_witness :
  ∃ table,
    dumpedHosts
      (setupDump2Host (Sample.kubernetes Sample.serviceHosts None)
         (Sample.world (Sample.daemonOptions ""
            (Sample.connectOptions "tun" false ["ns2"] "")) ∅ ∅)).2
    = [table]
    ∧ is_Some (table !! "svcA") ∧ is_Some (table !! "svcA.ns2")
    ∧ table !! "svcB.ns2" = None.
Proof.
  destruct (setupDump2Host_table (Sample.kubernetes Sample.serviceHosts None)
              (Sample.world (Sample.daemonOptions ""
                 (Sample.connectOptions "tun" false ["ns2"] "")) ∅ ∅))
    as (Hone & _ & Hcontent).
  destruct Hone as [table Hdump].
  { vm_compute. eauto. }
  destruct (Hcontent table) as (Hprimary & Hextra & Horigin & _).
  { rewrite Hdump. apply list_elem_of_here. }
  exists table. split; [exact Hdump|]. split; [|split].
  - apply Hprimary. vm_compute. eauto.
  - apply (Hextra "ns2" "svcA" "2.2.2.2").
    + apply list_elem_of_here.
    + discriminate.
    + vm_compute. reflexivity.
    + split; discriminate.
  - destruct (table !! "svcB.ns2") as [v|] eqn:E; [exfalso|reflexivity].
    apply Horigin in E as [E|(ns & svc & Hns & _ & Hsvc & [Hv1 Hv2] & Hk)].
    + vm_compute in E. discriminate.
    + apply list_elem_of_singleton in Hns as ->.
      change "svcB.ns2" with ("svcB" +:+ "." +:+ "ns2") in Hk.
      apply append_suffix_inj in Hk as <-.
      vm_compute in Hsvc. injection Hsvc as <-. by apply Hv1.
Defined.

(** A run on the nil map: the primary table is nil and the namespace
    [ns2] has an entry to write, so the builder panics after logging that
    entry; nothing is handed to [util.DumpHosts] and the options are as
    they were. *)
Lemma setupDump2Host_nil_example :
  setupDump2Host (Cases.kubernetesWith Cases.nilPrimary)
    (Cases.world "tun" ["ns2"])
  = (Some (Panic "assignment to entry in nil map"),
     Cases.world "tun" ["ns2"],
     [EvServiceHosts "ns1";
      EvLog DebugLevel "Search service in ns2 namespace...";
      EvServiceHosts "ns2";
      EvLog InfoLevel "Service found: svcA.ns2 2.2.2.2";
      EvPanic "assignment to entry in nil map"]).
Proof. vm_compute. reflexivity. Qed.

(** C1 as worded fails: an entry of the primary namespace whose address is
    "None" is handed to [util.DumpHosts] like any other; only the entries
    of additional namespaces are filtered. *)
Lemma setupDump2Host_keeps_primary_None :
  ∃ table,
    dumpedHosts
      (setupDump2Host (Sample.kubernetes Sample.headlessHosts None)
         (Sample.world (Sample.daemonOptions ""
            (Sample.connectOptions "tun" false ["ns2"] "")) ∅ ∅)).2
    = [table]
    ∧ table !! "svcB" = Some "None"
    ∧ ¬ (∀ k v, table !! k = Some v → v ≠ "" ∧ v ≠ "None").
Proof.
  exists (<[ "svcB" := "None" ]> {[ "svcA" := "1.1.1.1" ]}).
  split; [vm_compute; reflexivity|].
  split; [vm_compute; reflexivity|].
  intros Hclaim. destruct (Hclaim "svcB" "None") as [_ Hne].
  - vm_compute. reflexivity.
  - by apply Hne.
Qed.

(** ** Runs of the whole command *)

(** C2 as worded fails: with the tun method and a live process holding the
    pid file, the run ends with the already-running error and has allocated
    the tunnel addresses before the check. *)
Lemma Action_allocates_before_lock_check :
  let w := Sample.world
             (Sample.daemonOptions "" (Sample.connectOptions "tun" false [] ""))
             {[ "/tmp/kt/connect.pid" := 4000 ]} {[ 4000 ]} in
  let run := Action Sample.common (Sample.host None)
               (Sample.cli Sample.serviceHosts None) w in
  run.1.1 = Some (Errorf "another connect process already running with /tmp/kt/connect.pid, exiting")
  ∧ run.2 = [EvAllocateTunIP "10.1.1.0/24" None; EvCombineKubeOpts None;
             EvIsDaemonRunning "/tmp/kt/connect.pid" true]
  ∧ SourceIP (ConnectOptions (options run.1.2)) = "10.1.1.1"
  ∧ DestIP (ConnectOptions (options run.1.2)) = "10.1.1.2"
  ∧ ¬ (∀ ev, ev ∈ run.2 → isAllocation ev = false).
Proof.
  assert ((Action Sample.common (Sample.host None)
             (Sample.cli Sample.serviceHosts None)
             (Sample.world
                (Sample.daemonOptions ""
                   (Sample.connectOptions "tun" false [] ""))
                {[ "/tmp/kt/connect.pid" := 4000 ]} {[ 4000 ]})).2
          = [EvAllocateTunIP "10.1.1.0/24" None; EvCombineKubeOpts None;
             EvIsDaemonRunning "/tmp/kt/connect.pid" true]) as Hevs.
  { vm_compute. reflexivity. }
  cbv zeta. split; [vm_compute; reflexivity|]. split; [exact Hevs|].
  split; [vm_compute; reflexivity|]. split; [vm_compute; reflexivity|].
  rewrite Hevs. intros Hclaim.
  specialize (Hclaim (EvAllocateTunIP "10.1.1.0/24" None) (list_elem_of_here _ _)).
  discriminate.
Qed.

Lemma Action_order_witness :
  let w := Sample.world
             (Sample.daemonOptions "" (Sample.connectOptions "tun" false [] ""))
             {[ "/tmp/kt/connect.pid" := 4000 ]} {[ 4000 ]} in
  let run := Action Sample.common (Sample.host None)
               (Sample.cli Sample.serviceHosts None) w in
  staged 0 13 run.2
  ∧ pidFiles run.1.2 = pidFiles w
  ∧ EvAllocateTunIP "10.1.1.0/24" None ∈ run.2.
Proof.
  cbv zeta.
  destruct (Action_order Sample.common (Sample.host None)
              (Sample.cli Sample.serviceHosts None)
              (Sample.world
                 (Sample.daemonOptions ""
                    (Sample.connectOptions "tun" false [] ""))
                 {[ "/tmp/kt/connect.pid" := 4000 ]} {[ 4000 ]}))
    as [Hstaged Hheld].
  split; [exact Hstaged|].
  destruct (Hheld "/tmp/kt/connect.pid") as (_ & _ & Hpid & Halloc).
  - vm_compute. do 2 apply list_elem_of_further. apply list_elem_of_here.
  - split; [exact Hpid|]. apply Halloc. reflexivity.
Defined.

Lemma connectToCluster_shadow_failure_witness :
  let w := Sample.world
             (Sample.daemonOptions ""
                (Sample.connectOptions "socks5" false ["ns2"] ""))
             ∅ ∅ in
  let run := connectToCluster Sample.common (Sample.host None)
               (Sample.cli Sample.serviceHosts (Some (Failure "no quota"))) w in
  Failure "no quota" ∈ shadowFailures run.2
  ∧ run.1.1 = Some (Failure "no quota")
  ∧ Shadow (RuntimeOptions (options run.1.2)) = ""
  ∧ SSHCM (RuntimeOptions (options run.1.2)) = "".
Proof.
  cbv zeta.
  assert (Failure "no quota"
          ∈ shadowFailures
              (connectToCluster Sample.common (Sample.host None)
                 (Sample.cli Sample.serviceHosts (Some (Failure "no quota")))
                 (Sample.world
                    (Sample.daemonOptions ""
                       (Sample.connectOptions "socks5" false ["ns2"] ""))
                    ∅ ∅)).2) as Hfail.
  { vm_compute. apply list_elem_of_here. }
  split; [exact Hfail|].
  destruct (connectToCluster_shadow_failure Sample.common (Sample.host None)
              (Sample.cli Sample.serviceHosts (Some (Failure "no quota")))
              _ _ Hfail)
    as (Hres & _ & _ & Hshadow & Hcm).
  split; [exact Hres|]. split; [exact Hshadow|exact Hcm].
Defined.


(** Both proxy registrations fail and the run still succeeds. *)
Lemma connectToCluster_socks_example :
  (connectToCluster Sample.common (Sample.host (Some (Failure "no proxy")))
     (Sample.cli Sample.serviceHosts None)
     (Sample.world
        (Sample.daemonOptions "" (Sample.connectOptions "socks5" false [] ""))
        ∅ ∅)).1.1
  = None.
Proof. vm_compute. reflexivity. Qed.

Lemma Connect_lock_witness :
  let w := Sample.world
             (Sample.daemonOptions "" (Sample.connectOptions "tun" false [] ""))
             {[ "/tmp/kt/connect.pid" := 4000 ]} {[ 4000 ]} in
  pidFiles w !! "/tmp/kt/connect.pid" = Some 4000
  ∧ 4000 ∈ processes w
  ∧ (Connect Sample.common (Sample.host None)
       (Sample.cli Sample.serviceHosts None) w).2
    = [EvIsDaemonRunning "/tmp/kt/connect.pid" true]
  ∧ pidFiles
      (Connect Sample.common (Sample.host None)
         (Sample.cli Sample.serviceHosts None)
         (withPidFiles (delete "/tmp/kt/connect.pid") w)).1.2
    !! "/tmp/kt/connect.pid" = Some 4242.
Proof.
  cbv zeta.
  assert (pidFiles
            (Sample.world
               (Sample.daemonOptions ""
                  (Sample.connectOptions "tun" false [] ""))
               {[ "/tmp/kt/connect.pid" := 4000 ]} {[ 4000 ]})
          !! "/tmp/kt/connect.pid" = Some 4000) as Hfile.
  { vm_compute. reflexivity. }
  assert (4000 ∈ processes
            (Sample.world
               (Sample.daemonOptions ""
                  (Sample.connectOptions "tun" false [] ""))
               {[ "/tmp/kt/connect.pid" := 4000 ]} {[ 4000 ]})) as Halive.
  { apply elem_of_singleton. reflexivity. }
  split; [exact Hfile|]. split; [exact Halive|].
  destruct (Connect_lock Sample.common (Sample.host None)
              (Sample.cli Sample.serviceHosts None)
              (Sample.world
                 (Sample.daemonOptions ""
                    (Sample.connectOptions "tun" false [] ""))
                 {[ "/tmp/kt/connect.pid" := 4000 ]} {[ 4000 ]})
              4000 Hfile Halive)
    as (Hheld & _ & Hwritten).
  split.
  - rewrite Hheld. reflexivity.
  - apply Hwritten. reflexivity.
Defined.

(** * Further properties of the code *)

(** ** The version label *)

Lemma Split_two_pieces p seg sep :
  (2 ≤ length (Split (p +:+ String sep seg) sep))%nat.
Proof.
  destruct (Split_after_sep p seg sep) as (pieces & -> & Hne).
  rewrite length_app. pose proof (Split_nonempty seg sep).
  destruct pieces; [done|]. destruct (Split seg sep); [done|]. simpl. lia.
Qed.

(** The version label of a workload never contains a hyphen, and the
    workload name ends with it: the name is the label itself, or a prefix,
    a hyphen and the label. *)
Theorem lastSplit_hyphen_free workload :
  occurs "-"%char (lastSplit workload) = false
  ∧ (lastSplit workload = workload
     ∨ ∃ p, workload = p +:+ String "-"%char (lastSplit workload)).
Proof.
  unfold lastSplit. set (sep := "-"%char).
  induction workload as [|c s IH]; simpl; [by split; [|left]|].
  destruct IH as [Hocc Hshape].
  destruct (decide (c = sep)) as [->|Hc].
  - rewrite (last_app_nonempty _ [EmptyString] (Split s sep))
      by apply Split_nonempty.
    split; [done|]. right. destruct Hshape as [Heq|[p Hp]].
    + exists EmptyString. simpl. by rewrite Heq.
    + exists (String sep p). exact (f_equal (String sep) Hp).
  - destruct (Split s sep) as [|seg rest] eqn:Hsplit.
    { by destruct (Split_nonempty s sep). }
    destruct rest as [|seg' rest].
    + simpl in *. destruct Hshape as [->|[p Hp]].
      * split; [|by left]. simpl. by rewrite decide_False.
      * pose proof (Split_two_pieces p seg sep) as Hlen.
        rewrite <-Hp, Hsplit in Hlen. simpl in Hlen. lia.
    + change (List.last (String c seg :: seg' :: rest) "")
        with (List.last (seg' :: rest) "").
      change (List.last (seg :: seg' :: rest) "")
        with (List.last (seg' :: rest) "") in Hocc, Hshape.
      split; [done|]. right. destruct Hshape as [Heq|[p Hp]].
      * rewrite (Split_no_sep s sep) in Hsplit by (by rewrite <-Heq).
        discriminate.
      * exists (String c p). exact (f_equal (String c) Hp).
Qed.

(** ** The workload name *)

Lemma lowerChar_not_upper c : isUpper (lowerChar c) = false.
Proof.
  destruct c as [[] [] [] [] [] [] [] []]; vm_compute; reflexivity.
Qed.

Lemma ToLower_no_upper s : hasUpper (ToLower s) = false.
Proof.
  induction s as [|c s IH]; simpl; [done|].
  by rewrite lowerChar_not_upper, IH.
Qed.

Lemma hasUpper_append s t : hasUpper (s +:+ t) = (hasUpper s || hasUpper t)%bool.
Proof.
  induction s as [|c s IH]; simpl; [done|]. rewrite IH.
  by destruct (isUpper c).
Qed.

(** The name asked of the provisioner never contains an upper-case letter,
    whatever the random source returns. *)
Theorem workloadName_lower_case {ProxyConfigT} (host : @Host ProxyConfigT)
    (o : DaemonOptions ProxyConfigT) :
  hasUpper (workloadName host o) = false.
Proof.
  unfold workloadName. destruct (ShareShadow (ConnectOptions o)); [done|].
  rewrite hasUpper_append, ToLower_no_upper. done.
Qed.

(** ** Option completion and the command action *)

Section RunProperties.
Context {ProxyConfigT SSHCredential : Type}.
Variable common : Common.
Variable host : @Host ProxyConfigT.
Local Abbreviation World := (@World ProxyConfigT).
Local Abbreviation KubernetesInterface :=
  (@KubernetesInterface ProxyConfigT SSHCredential).
Local Abbreviation CliInterface := (@CliInterface ProxyConfigT SSHCredential).
Local Abbreviation Event := (@Event SSHCredential).

(** [CompleteOptions] writes nothing but the two tunnel addresses: every
    other option, the runtime options, the pid files and the processes are
    as before.  When it returns an error the method is tun, the error is
    the allocation's, and the options are untouched; when the method is not
    tun nothing happens at all. *)
Theorem CompleteOptions_effect (w : World) :
  let run := CompleteOptions (SSHCredential := SSHCredential) common host w in
  let o := options w in
  let o' := options run.1.2 in
  let c := ConnectOptions o in
  let c' := ConnectOptions o' in
  (pidFiles run.1.2 = pidFiles w ∧ processes run.1.2 = processes w
   ∧ Namespace o' = Namespace o ∧ Labels o' = Labels o ∧ Debug o' = Debug o
   ∧ RuntimeOptions o' = RuntimeOptions o
   ∧ Method c' = Method c ∧ TunCidr c' = TunCidr c
   ∧ SocksPort c' = SocksPort c ∧ ShareShadow c' = ShareShadow c
   ∧ Dump2HostsNamespaces c' = Dump2HostsNamespaces c
   ∧ LocalDomain c' = LocalDomain c)
  ∧ (∀ e, run.1.1 = Some e →
       run.1.2 = w ∧ Method c = ConnectMethodTun common
       ∧ (allocateTunIP (ParseCIDR host) (IPNetString host) (IPString host)
            (TunCidr c)).2 = Some e)
  ∧ (Method c ≠ ConnectMethodTun common → run = (None, w, [])).
Proof.
  intros run o o' c c'. subst run o' c'. rewrite CompleteOptions_run. cbv zeta.
  fold o. fold c.
  destruct (decide (Method c = ConnectMethodTun common)) as [Htun|Htun].
  - destruct (allocateTunIP _ _ _ _) as [[srcIP destIP] [e|]]; simpl.
    + split; [by repeat split|]. split; [|done]. by intros e' [= <-].
    + split; [by repeat split|]. split; [done|]. done.
  - simpl. split; [by repeat split|]. split; [done|]. done.
Qed.

(** After a successful [CompleteOptions] with the tun method, the
    environment handed to the shadow carries the allocated pair: the source
    address under the client variable, the destination address under the
    server variable (the two variable names being different). *)
Theorem CompleteOptions_tun_envs (w : World) srcIP destIP :
  Method (ConnectOptions (options w)) = ConnectMethodTun common →
  allocateTunIP (ParseCIDR host) (IPNetString host) (IPString host)
    (TunCidr (ConnectOptions (options w))) = (srcIP, destIP, None) →
  ClientTunIP common ≠ ServerTunIP common →
  let run := CompleteOptions (SSHCredential := SSHCredential) common host w in
  run.1.1 = None
  ∧ envs common (options run.1.2) !! ClientTunIP common = Some srcIP
  ∧ envs common (options run.1.2) !! ServerTunIP common = Some destIP.
Proof.
  intros Htun Halloc Hne run. subst run.
  rewrite CompleteOptions_run. cbv zeta.
  rewrite decide_True by done. rewrite Halloc. simpl.
  split; [done|]. unfold envs. simpl.
  rewrite (decide_True (P := Method _ = _)) by done.
  split.
  - rewrite lookup_insert_ne by done. apply lookup_insert_eq.
  - apply lookup_insert_eq.
Qed.

(** When the address allocation or [combineKubeOpts] fails, the command
    returns that error and [Connect] is never entered: no step from the
    running-daemon check onwards happens and no pid file is touched. *)
Theorem Action_aborts_before_Connect (cli : CliInterface) (w : World) e :
  let run := Action common host cli w in
  (∃ cidr, EvAllocateTunIP cidr (Some e) ∈ run.2)
  ∨ EvCombineKubeOpts (Some e) ∈ run.2 →
  run.1.1 = Some e ∧ staged 0 2 run.2 ∧ pidFiles run.1.2 = pidFiles w.
Proof.
  intros run. subst run. rewrite Action_unfold. cbv zeta.
  destruct (CompleteOptions_facts (SSHCredential := SSHCredential) common host w) as (Hc & Hpid & _).
  pose proof (CompleteOptions_run (SSHCredential := SSHCredential) common host w) as Hrun. cbv zeta in Hrun.
  set (c := CompleteOptions common host w) in *.
  set (dbg := if Debug (options w)
              then [EvSetGlobalLevel DebugLevel : Event] else []).
  assert (staged 0 0 dbg) as Hdbg.
  { subst dbg. destruct (Debug (options w)); [|apply staged_nil].
    by apply (staged_step _ _ 0%nat); [|lia]. }
  assert (staged 0 1 (dbg ++ c.2)) as Hhead.
  { apply (staged_app 0 0 1); [lia|done|].
    eapply staged_weaken; [| |exact Hc]; lia. }
  assert (∀ cidr, EvAllocateTunIP cidr (Some e) ∈ c.2 → c.1.1 = Some e) as Hfail.
  { intros cidr. rewrite Hrun. repeat case_match; simpl; intros Hin.
    - by apply list_elem_of_singleton in Hin as [= _ ->].
    - by apply list_elem_of_singleton in Hin.
    - by apply elem_of_nil in Hin. }
  assert (∀ cidr, EvAllocateTunIP cidr (Some e) ∉ dbg) as Hnodbg.
  { intros cidr Hin. subst dbg. destruct (Debug (options w)).
    - by apply list_elem_of_singleton in Hin.
    - by apply elem_of_nil in Hin. }
  destruct c.1.1 as [e0|] eqn:Hres; simpl.
  { intros [[cidr Hin]|Hin].
    - apply elem_of_app in Hin as [Hin|Hin]; [by destruct (Hnodbg cidr)|].
      apply Hfail in Hin as [= ->].
      split; [done|]. split; [|done].
      eapply staged_weaken; [| |exact Hhead]; lia.
    - pose proof (staged_stage _ _ _ _ _ Hhead Hin eq_refl). lia. }
  destruct (combineKubeOpts host (options c.1.2)) as [o2 [e0|]]; simpl.
  { assert (staged 0 2 (dbg ++ c.2 ++ [EvCombineKubeOpts (Some e0)])) as Hst.
    { rewrite app_assoc. apply (staged_app 0 1 2); [lia|done|].
      by apply (staged_step _ _ 2%nat); [|lia]. }
    intros [[cidr Hin]|Hin].
    - rewrite app_assoc in Hin. apply elem_of_app in Hin as [Hin|Hin].
      + apply elem_of_app in Hin as [Hin|Hin]; [by destruct (Hnodbg cidr)|].
        apply Hfail in Hin. congruence.
      + by apply list_elem_of_singleton in Hin.
    - rewrite app_assoc in Hin. apply elem_of_app in Hin as [Hin|Hin].
      + pose proof (staged_stage _ _ _ _ _ Hhead Hin eq_refl). lia.
      + apply list_elem_of_singleton in Hin as [= ->]. done. }
  pose proof (Connect_staged common host cli (withOptions (λ _, o2) c.1.2))
    as Hconn.
  intros [[cidr Hin]|Hin].
  - rewrite app_assoc in Hin. apply elem_of_app in Hin as [Hin|Hin].
    + apply elem_of_app in Hin as [Hin|Hin]; [by destruct (Hnodbg cidr)|].
      apply Hfail in Hin. congruence.
    + apply elem_of_cons in Hin as [[=]|Hin].
      pose proof (staged_stage _ _ _ _ _ Hconn Hin eq_refl). lia.
  - rewrite app_assoc in Hin. apply elem_of_app in Hin as [Hin|Hin].
    + pose proof (staged_stage _ _ _ _ _ Hhead Hin eq_refl). lia.
    + apply elem_of_cons in Hin as [[=]|Hin].
      pose proof (staged_stage _ _ _ _ _ Hconn Hin eq_refl). lia.
Qed.

(** ** The host table builder *)

(** The tables [setupDump2Host] asks for and what becomes of them.  Unless
    it assigns to the nil map, it asks for the primary namespace first,
    then for the listed namespaces in order, leaving out every occurrence
    of the primary one; the one table it hands over comes after all of
    them; afterwards the host-dump flag is raised and nothing else in the
    world has changed.  When it assigns to the nil map (the primary table
    is nil and a listed namespace has an entry to write) it panics: the
    tables asked for until then are the first of the same list, nothing is
    handed to [util.DumpHosts] and the world is as it was, the host-dump
    flag included. *)
Theorem setupDump2Host_queries (kubernetes : KubernetesInterface) (w : World) :
  let run := setupDump2Host kubernetes w in
  let primary := Namespace (options w) in
  let extra := Dump2HostsNamespaces (ConnectOptions (options w)) in
  let asked := primary :: filter (λ ns, ns ≠ primary) extra in
  let nilWrite := assignsToNil (ServiceHosts kubernetes) primary extra in
  (¬ nilWrite →
   run.1.1 = None
   ∧ queriedNamespaces run.2 = asked
   ∧ (∃ pre, run.2
             = (pre ++ [EvDumpHosts
                          (handedTable (ServiceHosts kubernetes) primary extra)])%list
             ∧ queriedNamespaces pre = asked
             ∧ dumpCalls pre = [] ∧ panics pre = [])
   ∧ run.1.2 = withOptions (withRuntime (setDump2Host true)) w
   ∧ Dump2Host (RuntimeOptions (options run.1.2)) = true)
  ∧ (nilWrite →
     run.1.1 = Some (Panic nilMapAssignment)
     ∧ queriedNamespaces run.2 `prefix_of` asked
     ∧ (∃ pre, run.2 = (pre ++ [EvPanic nilMapAssignment])%list
               ∧ panics pre = [])
     ∧ dumpCalls run.2 = []
     ∧ run.1.2 = w).
Proof.
  intros run primary extra asked nilWrite. subst run.
  destruct (setupDump2Host_run kubernetes w) as (pre & Hpre & Hpanic & Hok).
  cbv zeta in Hpanic, Hok. fold primary extra in Hpanic, Hok.
  fold nilWrite in Hpanic, Hok. fold asked in Hpanic, Hok.
  destruct (hostQueries_no_dump _ Hpre) as (_ & Hcalls & Hquiet).
  split.
  - intros Hnil. destruct (Hok Hnil) as [-> Hasked]. cbn [fst snd].
    split; [done|].
    split; [by rewrite queriedNamespaces_app, Hasked, app_nil_r|].
    split; [by exists pre|done].
  - intros Hnil. destruct (Hpanic Hnil) as [-> Hasked]. cbn [fst snd].
    split; [done|].
    split; [by rewrite queriedNamespaces_app, app_nil_r|].
    split; [by exists pre|].
    split; [|done]. by rewrite dumpCalls_app, Hcalls.
Qed.

(** ** [connectToCluster] *)

(** The run after the pid file is written and the cluster handle is
    there, step by step: a panic of the host table builder ends it, and
    otherwise the proxy registrations and provisioning follow. *)
Lemma connectToCluster_steps (cli : CliInterface) (w : World) :
  let f := PidFile (RuntimeOptions (options w)) in
  pidFileWriteError host f = None → (Kubernetes cli).2 = None →
  let w1 := withPidFiles (insert f (Getpid host)) w in
  let k := (Kubernetes cli).1 in
  let head : list Event :=
    [EvWritePidFile f (Getpid host) None;
     EvLog InfoLevel ("Connect start at " +:+ pretty (Getpid host));
     EvKubernetes None] in
  let d :=
    (if decide (IsWindows host = true
                ∨ (0 < length (Dump2HostsNamespaces (ConnectOptions (options w))))%nat)
     then setupDump2Host k else ret None) w1 in
  let s :=
    (if decide (Method (ConnectOptions (options w)) = ConnectMethodSocks common)
     then setupSocksProxy host else ret None) d.1.2 in
  let r := provisionAndHandOff common host cli k None s.1.2 in
  connectToCluster common host cli w
  = match d.1.1 with
    | Some p => (Some p, d.1.2, (head ++ d.2)%list)
    | None => (r.1.1, r.1.2, (head ++ d.2 ++ s.2 ++ r.2)%list)
    end
  ∧ staged 5 6 head ∧ staged 7 8 d.2 ∧ staged 9 10 s.2 ∧ staged 11 13 r.2
  ∧ setupFrame w1 d.1.2 ∧ setupFrame d.1.2 s.1.2
  ∧ (∀ p, d.1.1 = Some p →
       p = Panic nilMapAssignment ∧ d.1.2 = w1
       ∧ ∃ pre : list Event, d.2 = (pre ++ [EvPanic nilMapAssignment])%list).
Proof.
  intros f Hw Hk. cbv zeta.
  rewrite (connectToCluster_unfold common host). fold f. rewrite Hw, Hk. cbv zeta.
  rewrite (connectWith_unfold common host). cbv zeta.
  change (options (withPidFiles (insert f (Getpid host)) w)) with (options w).
  set (w1 := withPidFiles (insert f (Getpid host)) w).
  set (k := (Kubernetes cli).1).
  set (b1 := decide (IsWindows host = true ∨ _)).
  pose proof (dumpStep_facts k (if b1 then true else false) w1) as Hd.
  assert (∀ (A : Type) (x y : A), (if b1 then x else y)
            = (if (if b1 then true else false) then x else y)) as Hif.
  { intros. by destruct b1. }
  rewrite <-Hif in Hd. clear Hif. cbv zeta in Hd.
  set (d := (if b1 then setupDump2Host k else ret None) w1) in *.
  destruct Hd as (Hd1 & Hd2 & Hd3 & _).
  assert (ConnectOptions (options d.1.2) = ConnectOptions (options w)) as Hc.
  { destruct Hd2 as (_ & _ & _ & _ & Hc & _). exact Hc. }
  rewrite Hc.
  set (b2 := decide (Method (ConnectOptions (options w)) = _)).
  pose proof (socksStep_facts (SSHCredential := SSHCredential) host
                (if b2 then true else false) d.1.2) as Hs.
  assert (∀ (A : Type) (x y : A), (if b2 then x else y)
            = (if (if b2 then true else false) then x else y)) as Hif.
  { intros. by destruct b2. }
  rewrite <-Hif in Hs. clear Hif. cbv zeta in Hs.
  set (s := (if b2 then setupSocksProxy host else ret None) d.1.2) in *.
  destruct Hs as [Hs1 Hs2].
  rewrite (provisionAndHandOff_ignores_err common host).
  split; [by destruct d.1.1|]. split.
  { apply (staged_cons _ _ 5%nat); [done|lia|]. apply staged_log.
    by apply (staged_step _ _ 6%nat); [|lia]. }
  split; [exact Hd1|]. split; [exact Hs1|].
  split; [apply provisionAndHandOff_staged|]. split; [exact Hd2|].
  split; [exact Hs2|].
  intros p Hp. destruct (Hd3 p Hp) as (_ & _ & -> & -> & Hevs). done.
Qed.

(** A pid file that cannot be written stops the run at once: the error is
    returned, the write is the only step and the world is untouched.  A
    cluster handle that cannot be obtained stops it after the pid file was
    written, which stays in place: no table is queried, no proxy
    registered, no shadow provisioned. *)
Theorem connectToCluster_stops_early (cli : CliInterface) (w : World) e :
  let f := PidFile (RuntimeOptions (options w)) in
  let run := connectToCluster common host cli w in
  (pidFileWriteError host f = Some e →
   run = (Some e, w, [EvWritePidFile f (Getpid host) (Some e)]))
  ∧ (pidFileWriteError host f = None → (Kubernetes cli).2 = Some e →
     run.1.1 = Some e
     ∧ run.1.2 = withPidFiles (insert f (Getpid host)) w
     ∧ staged 5 6 run.2
     ∧ EvKubernetes (Some e) ∈ run.2).
Proof.
  intros f run. subst run. rewrite connectToCluster_unfold. fold f. cbv zeta.
  split.
  - by intros ->.
  - intros -> ->. split; [done|]. split; [done|]. split.
    + apply (staged_cons _ _ 5%nat); [done|lia|]. apply staged_log.
      by apply (staged_step _ _ 6%nat); [|lia].
    + do 2 apply list_elem_of_further. apply list_elem_of_here.
Qed.

(** The host table builder runs exactly when the host is Windows or a
    namespace list was given.  Then, unless it assigns to the nil map, one
    table, the merged one, is handed to [util.DumpHosts] after the queries.
    When it assigns to the nil map its panic ends the run: no table is
    handed over, the host-dump flag stays as it was, and neither the proxy
    registrar nor the provisioner is called.  When the builder does not
    run, no table is queried and none is handed over. *)
Theorem connectToCluster_dump_gate (cli : CliInterface) (w : World) :
  pidFileWriteError host (PidFile (RuntimeOptions (options w))) = None →
  (Kubernetes cli).2 = None →
  let run := connectToCluster common host cli w in
  let o := options w in
  let namespaces := Dump2HostsNamespaces (ConnectOptions o) in
  let tables := ServiceHosts (Kubernetes cli).1 in
  let asked := Namespace o :: filter (λ ns, ns ≠ Namespace o) namespaces in
  let nilWrite := assignsToNil tables (Namespace o) namespaces in
  (IsWindows host = true ∨ namespaces ≠ [] → ¬ nilWrite →
   dumpCalls run.2 = [handedTable tables (Namespace o) namespaces]
   ∧ queriedNamespaces run.2 = asked
   ∧ panics run.2 = [])
  ∧ (nilWrite →
     run.1.1 = Some (Panic nilMapAssignment)
     ∧ dumpCalls run.2 = []
     ∧ panics run.2 = [nilMapAssignment]
     ∧ queriedNamespaces run.2 `prefix_of` asked
     ∧ staged 5 8 run.2
     ∧ Dump2Host (RuntimeOptions (options run.1.2))
       = Dump2Host (RuntimeOptions o))
  ∧ (IsWindows host = false → namespaces = [] →
     dumpCalls run.2 = [] ∧ queriedNamespaces run.2 = [] ∧ panics run.2 = []).
Proof.
  intros Hw Hk run o namespaces tables asked nilWrite. subst run.
  pose proof (connectToCluster_steps cli w Hw Hk) as Hsteps.
  cbv zeta in Hsteps.
  set (k := (Kubernetes cli).1) in *.
  set (w1 := withPidFiles _ w) in *.
  destruct (setupDump2Host_run k w1) as (pre & Hpre & Hpanic & Hok).
  cbv zeta in Hpanic, Hok.
  change (options w1) with o in Hpanic, Hok.
  fold namespaces in Hpanic, Hok. fold tables in Hpanic, Hok.
  fold nilWrite in Hpanic, Hok. fold asked in Hpanic, Hok.
  fold o in Hsteps. fold namespaces in Hsteps.
  destruct (hostQueries_no_dump _ Hpre) as (_ & Hpre1 & Hpre2).
  assert (namespaces ≠ [] → (0 < length namespaces)%nat) as Hlen.
  { destruct namespaces; [done|simpl; lia]. }
  split; [|split].
  - intros Hgate Hnil.
    rewrite (decide_True (P := IsWindows host = true ∨ _)) in Hsteps
      by (destruct Hgate as [?|?]; [by left|right; by apply Hlen]).
    destruct (Hok Hnil) as [Hrun Hasked]. rewrite Hrun in Hsteps.
    cbn [fst snd] in Hsteps.
    destruct Hsteps as (-> & Hhead & _ & Hs & Hr & _). cbn [snd].
    destruct (staged_no_dump _ _ _ Hhead) as (_ & Hh2 & Hh3 & Hh4); [lia|].
    destruct (staged_no_dump _ _ _ Hs) as (_ & Hs2 & Hs3 & Hs4); [lia|].
    destruct (staged_no_dump _ _ _ Hr) as (_ & Hr2 & Hr3 & Hr4); [lia|].
    rewrite !dumpCalls_app, !queriedNamespaces_app, !panics_app.
    rewrite Hh2, Hh3, Hh4, Hs2, Hs3, Hs4, Hr2, Hr3, Hr4, Hpre1, Hpre2, Hasked.
    by rewrite !app_nil_r.
  - intros Hnil.
    rewrite (decide_True (P := IsWindows host = true ∨ _)) in Hsteps.
    2:{ right. apply Hlen. destruct Hnil as [_ Hex]. intros Hnone.
        rewrite Hnone in Hex. by apply Exists_nil in Hex. }
    destruct (Hpanic Hnil) as [Hrun Hasked]. rewrite Hrun in Hsteps.
    cbn [fst snd] in Hsteps.
    destruct Hsteps as (-> & Hhead & Hd & _). cbn [fst snd].
    destruct (staged_no_dump _ _ _ Hhead) as (_ & Hh2 & Hh3 & Hh4); [lia|].
    rewrite !dumpCalls_app, !queriedNamespaces_app, !panics_app.
    rewrite Hh2, Hh3, Hh4, Hpre1, Hpre2.
    split; [done|]. split; [done|]. split; [done|].
    split; [by rewrite app_nil_r|]. split; [|done].
    by apply (staged_app 5 6 8); [lia| |eapply staged_weaken; [| |exact Hd]; lia].
  - intros Hwin Hnone.
    rewrite (decide_False (P := IsWindows host = true ∨ _)) in Hsteps.
    2:{ rewrite Hnone, Hwin. simpl. intros [?|?]; [done|lia]. }
    cbn [fst snd ret] in Hsteps.
    destruct Hsteps as (-> & Hhead & _ & Hs & Hr & _). cbn [snd].
    destruct (staged_no_dump _ _ _ Hhead) as (_ & Hh2 & Hh3 & Hh4); [lia|].
    destruct (staged_no_dump _ _ _ Hs) as (_ & Hs2 & Hs3 & Hs4); [lia|].
    destruct (staged_no_dump _ _ _ Hr) as (_ & Hr2 & Hr3 & Hr4); [lia|].
    rewrite !dumpCalls_app, !queriedNamespaces_app, !panics_app.
    by rewrite Hh2, Hh3, Hh4, Hs2, Hs3, Hs4, Hr2, Hr3, Hr4.
Qed.

Lemma staged_no_proxy lo hi (evs : list Event) ev :
  staged lo hi evs → (hi < 9 ∨ 10 < lo)%nat → ev ∈ evs → isProxyCall ev = false.
Proof.
  intros Hst Hrange Hin. destruct ev; try done.
  - pose proof (staged_stage _ _ _ _ _ Hst Hin eq_refl). lia.
  - pose proof (staged_stage _ _ _ _ _ Hst Hin eq_refl). lia.
Qed.

(** Without the socks method the proxy registrar is never called. *)
Theorem connectToCluster_no_proxy (cli : CliInterface) (w : World) :
  Method (ConnectOptions (options w)) ≠ ConnectMethodSocks common →
  ∀ ev, ev ∈ (connectToCluster common host cli w).2 → isProxyCall ev = false.
Proof.
  intros Hmethod ev.
  destruct (pidFileWriteError host (PidFile (RuntimeOptions (options w))))
    as [e|] eqn:Hw.
  { rewrite connectToCluster_unfold, Hw. cbv zeta. cbn [snd].
    by intros ->%list_elem_of_singleton. }
  destruct (Kubernetes cli).2 as [e|] eqn:Hk.
  { rewrite connectToCluster_unfold, Hw, Hk. cbv zeta. cbn [snd].
    intros Hin. repeat (apply elem_of_cons in Hin as [->|Hin]; [done|]).
    by apply elem_of_nil in Hin. }
  destruct (connectToCluster_steps cli w Hw Hk)
    as (-> & Hhead & Hd & _ & Hr & _). cbv zeta.
  rewrite (decide_False (P := Method _ = _)) by done. cbn [snd ret].
  set (d := (if decide (IsWindows host = true ∨ _)
             then setupDump2Host _ else ret None) _) in *.
  destruct d.1.1 as [p|]; cbn [snd].
  - intros [Hin|Hin]%elem_of_app.
    + by apply (staged_no_proxy _ _ _ _ Hhead); [lia|].
    + by apply (staged_no_proxy _ _ _ _ Hd); [lia|].
  - intros [Hin|[Hin|[Hin|Hin]%elem_of_app]%elem_of_app]%elem_of_app.
    + by apply (staged_no_proxy _ _ _ _ Hhead); [lia|].
    + by apply (staged_no_proxy _ _ _ _ Hd); [lia|].
    + by apply elem_of_nil in Hin.
    + revert Hin. apply staged_no_proxy with (lo := 11%nat) (hi := 13%nat);
        [apply provisionAndHandOff_staged|lia].
Qed.

Lemma workloadName_frame (o o' : DaemonOptions ProxyConfigT) :
  ConnectOptions o' = ConnectOptions o →
  workloadName host o' = workloadName host o.
Proof. unfold workloadName. by intros ->. Qed.

(** How a run of [connectToCluster] ends: before the proxy registrations
    (no pid file, no cluster handle, or a panic of the host table builder),
    or with the provisioner call and what follows its answer. *)
Lemma connectToCluster_tail (cli : CliInterface) (w : World) :
  let run := connectToCluster common host cli w in
  let k := (Kubernetes cli).1 in
  let ns := Namespace (options w) in
  let workload := workloadName host (options w) in
  (staged 5 8 run.2 ∧ ∃ e, run.1.1 = Some e)
  ∨ ∃ (pre : list Event) (w0 : World) lbls en,
      let r := GetOrCreateShadow k workload (options w0) lbls ∅ en in
      let q := ClusterCrids k ns (ConnectOptions (options w)) in
      let call := EvGetOrCreateShadow workload lbls ∅ en r.2 in
      let out := Outbound cli r.1.1.1.2 r.1.1.1.1 r.1.2 q.1 in
      let w1 := withOptions (withRuntime (setSSHCM r.1.1.2))
                  (withOptions (withRuntime (setShadow workload)) w0) in
      staged 5 10 pre
      ∧ Shadow (RuntimeOptions (options w0)) = Shadow (RuntimeOptions (options w))
      ∧ SSHCM (RuntimeOptions (options w0)) = SSHCM (RuntimeOptions (options w))
      ∧ run
        = match r.2 with
          | Some e => (Some e, w0, (pre ++ [call])%list)
          | None =>
              match q.2 with
              | Some e =>
                  (Some e, w1, (pre ++ [call; EvClusterCrids ns (Some e)])%list)
              | None =>
                  (out, w1,
                   (pre ++ [call; EvClusterCrids ns None;
                            EvOutbound r.1.1.1.2 r.1.1.1.1 r.1.2 q.1 out])%list)
              end
          end.
Proof.
  intros run k ns workload. subst run.
  destruct (connectToCluster_run common host cli w)
    as [(e & w1 & evs & -> & Hst & _)|(pre & w0 & err & -> & Hst & Hframe & _)].
  { left. split; [done|by exists e]. }
  right. destruct Hframe as (_ & _ & Hns & _ & Hc & _ & Hshadow & Hcm).
  simpl in Hns, Hc, Hshadow, Hcm.
  exists pre, w0, (labels common (String2Map host) workload (options w0)),
    (envs common (options w0)).
  cbv zeta. split; [done|]. split; [done|]. split; [done|].
  rewrite provisionAndHandOff_run. cbv zeta.
  rewrite (workloadName_frame _ _ Hc), Hns, Hc. fold k workload ns.
  by repeat case_match.
Qed.

(** Once the provisioner has answered without an error, the name it was
    asked for (the computed workload name, with no annotations) is recorded
    as the shadow of this run, whatever happens afterwards, and the cluster
    CIDR query for the configured namespace follows. *)
Theorem connectToCluster_records_shadow (cli : CliInterface) (w : World)
    wl l a en :
  EvGetOrCreateShadow wl l a en None ∈ (connectToCluster common host cli w).2 →
  let run := connectToCluster common host cli w in
  wl = workloadName host (options w) ∧ a = ∅
  ∧ Shadow (RuntimeOptions (options run.1.2)) = wl
  ∧ ∃ err, EvClusterCrids (Namespace (options w)) err ∈ run.2.
Proof.
  intros Hin run. subst run.
  destruct (connectToCluster_tail cli w)
    as [[Hst _]|(pre & w0 & lbls & en' & Hpre & _ & _ & Hrun)].
  { pose proof (staged_stage _ _ _ _ _ Hst Hin eq_refl). lia. }
  cbv zeta in Hrun. rewrite Hrun in Hin |- *. clear Hrun.
  assert (EvGetOrCreateShadow wl l a en None ∉ pre) as Hnot.
  { intros Hp. pose proof (staged_stage _ _ _ _ _ Hpre Hp eq_refl). lia. }
  repeat case_match; cbn [fst snd] in *;
    apply elem_of_app in Hin as [Hin|Hin]; try done;
    repeat (apply elem_of_cons in Hin as [Hin|Hin]; [simplify_eq|]);
    try (by apply elem_of_nil in Hin).
  - split; [done|]. split; [done|]. split; [done|].
    eexists. apply elem_of_app. right.
    apply list_elem_of_further, list_elem_of_here.
  - split; [done|]. split; [done|]. split; [done|].
    eexists. apply elem_of_app. right.
    apply list_elem_of_further, list_elem_of_here.
Qed.

(** A failing cluster CIDR query ends the run with its error; the
    transport hand-off is not called, while the shadow provisioned just
    before stays recorded in the runtime options. *)
Theorem connectToCluster_crids_failure (cli : CliInterface) (w : World) ns e :
  EvClusterCrids ns (Some e) ∈ (connectToCluster common host cli w).2 →
  let run := connectToCluster common host cli w in
  run.1.1 = Some e ∧ ns = Namespace (options w)
  ∧ (∀ ev, ev ∈ run.2 → isOutbound ev = false)
  ∧ Shadow (RuntimeOptions (options run.1.2)) = workloadName host (options w).
Proof.
  intros Hin run. subst run.
  destruct (connectToCluster_tail cli w)
    as [[Hst _]|(pre & w0 & lbls & en' & Hpre & _ & _ & Hrun)].
  { pose proof (staged_stage _ _ _ _ _ Hst Hin eq_refl). lia. }
  cbv zeta in Hrun. rewrite Hrun in Hin |- *. clear Hrun.
  assert (EvClusterCrids ns (Some e) ∉ pre) as Hnot.
  { intros Hp. pose proof (staged_stage _ _ _ _ _ Hpre Hp eq_refl). lia. }
  assert (∀ ev, ev ∈ pre → isOutbound ev = false) as Hpre_out.
  { intros ev Hp. destruct ev; try done.
    pose proof (staged_stage _ _ _ _ _ Hpre Hp eq_refl). lia. }
  repeat case_match; cbn [fst snd] in *;
    apply elem_of_app in Hin as [Hin|Hin]; try done;
    repeat (apply elem_of_cons in Hin as [Hin|Hin]; [simplify_eq|]);
    try (by apply elem_of_nil in Hin).
  split; [done|]. split; [done|]. split; [|done].
  intros ev [Hev|Hev]%elem_of_app; [by apply Hpre_out|].
  repeat (apply elem_of_cons in Hev as [->|Hev]; [done|]).
  by apply elem_of_nil in Hev.
Qed.

(** When the transport hand-off is reached it is the last step; it is
    given the CIDR list the cluster answered for the configured namespace
    and options, its answer is its answer for these arguments, and that
    answer is what [connectToCluster] returns. *)
Theorem connectToCluster_hand_off (cli : CliInterface) (w : World)
    podName endPointIP credential cidrs out :
  EvOutbound podName endPointIP credential cidrs out
    ∈ (connectToCluster common host cli w).2 →
  let run := connectToCluster common host cli w in
  run.1.1 = out
  ∧ out = Outbound cli podName endPointIP credential cidrs
  ∧ cidrs = (ClusterCrids (Kubernetes cli).1 (Namespace (options w))
               (ConnectOptions (options w))).1
  ∧ (∃ pre, run.2 = (pre ++ [EvOutbound podName endPointIP credential cidrs out])%list)
  ∧ Shadow (RuntimeOptions (options run.1.2)) = workloadName host (options w).
Proof.
  intros Hin run. subst run.
  destruct (connectToCluster_tail cli w)
    as [[Hst _]|(pre & w0 & lbls & en' & Hpre & _ & _ & Hrun)].
  { pose proof (staged_stage _ _ _ _ _ Hst Hin eq_refl). lia. }
  cbv zeta in Hrun. rewrite Hrun in Hin |- *. clear Hrun.
  assert (EvOutbound podName endPointIP credential cidrs out ∉ pre) as Hnot.
  { intros Hp. pose proof (staged_stage _ _ _ _ _ Hpre Hp eq_refl). lia. }
  repeat case_match; cbn [fst snd] in *;
    apply elem_of_app in Hin as [Hin|Hin]; try done;
    repeat (apply elem_of_cons in Hin as [Hin|Hin]; [simplify_eq|]);
    try (by apply elem_of_nil in Hin).
  split; [done|]. split; [done|]. split; [done|]. split; [|done].
  eexists (pre ++ [_; _])%list. by rewrite <-app_assoc.
Qed.

(** ** [Connect] and the terminal signal *)

Lemma endsWithStep_app (a b : list Event) : endsWithStep b → endsWithStep (a ++ b)%list.
Proof.
  intros (pre & ev & -> & Hst). exists (a ++ pre)%list, ev.
  split; [by rewrite <-app_assoc|done].
Qed.

Lemma endsWithStep_not_log (evs pre : list Event) level msg :
  endsWithStep evs → evs ≠ (pre ++ [EvLog level msg])%list.
Proof.
  intros (pre' & ev & -> & Hst) Heq.
  apply app_inj_tail in Heq as [_ ->]. done.
Qed.

(** Every run of [connectToCluster] ends with a step, not a log line. *)
Lemma connectToCluster_endsWithStep (cli : CliInterface) (w : World) :
  endsWithStep (connectToCluster common host cli w).2.
Proof.
  destruct (pidFileWriteError host (PidFile (RuntimeOptions (options w))))
    as [e|] eqn:Hw.
  { rewrite connectToCluster_unfold, Hw. cbv zeta. cbn [snd].
    by eexists [], _. }
  destruct (Kubernetes cli).2 as [e|] eqn:Hk.
  { rewrite connectToCluster_unfold, Hw, Hk. cbv zeta. cbn [snd].
    by eexists [_; _], _. }
  destruct (connectToCluster_steps cli w Hw Hk)
    as (-> & _ & _ & _ & _ & _ & _ & Hpanic).
  cbv zeta in Hpanic |- *.
  set (d := (if decide (IsWindows host = true ∨ _)
             then setupDump2Host _ else ret None) _) in *.
  destruct d.1.1 as [p|]; cbn [snd].
  { destruct (Hpanic p eq_refl) as (_ & _ & pre & ->).
    apply endsWithStep_app. by exists pre, (EvPanic nilMapAssignment). }
  do 3 apply endsWithStep_app.
  rewrite provisionAndHandOff_run. cbv zeta.
  repeat case_match; cbn [snd];
    first [by eexists [], _ | by eexists [_], _ | by eexists [_; _], _].
Qed.

(** [Connect] returns no error exactly when its run ends with the log
    line of the terminal signal, and then the lock was free and
    [connectToCluster] had succeeded; a failed run never waits for the
    signal. *)
Theorem Connect_terminal_signal (cli : CliInterface) (w : World) :
  let run := Connect common host cli w in
  let signal : Event :=
    EvLog InfoLevel ("Terminal signal is " +:+ TerminalSignal host) in
  (run.1.1 = None ↔ ∃ pre, run.2 = (pre ++ [signal])%list)
  ∧ (run.1.1 = None →
     lockHeld (PidFile (RuntimeOptions (options w))) w = false
     ∧ (connectToCluster common host cli w).1.1 = None).
Proof.
  intros run signal. subst run. rewrite Connect_unfold. cbv zeta.
  destruct (lockHeld _ w) eqn:Hheld.
  { cbn [fst snd]. split; [|done]. split; [done|]. intros [pre Heq].
    exfalso. revert Heq. apply endsWithStep_not_log. by eexists [], _. }
  pose proof (connectToCluster_endsWithStep cli w) as Hend.
  destruct (connectToCluster common host cli w) as [[[e|] w1] evs];
    cbn [fst snd] in *.
  - split; [|done]. split; [done|]. intros [pre Heq].
    exfalso. revert Heq. apply endsWithStep_not_log.
    rewrite app_nil_r. by apply (endsWithStep_app [_; _]).
  - split; [|done]. split; [|done]. intros _.
    eexists ([_; _] ++ evs)%list. by rewrite <-app_assoc.
Qed.

(** ** What the provisioner is asked *)

(** [getOrCreateShadow] makes one call, for the computed workload name,
    with the labels and the environment built from the options as they
    are then and with no annotations.  The version label is "shared" for
    a shared shadow and otherwise the lower-cased random string (when that
    has no hyphen); the name label is the workload name unless the user
    supplies one (the name and version keys being different).  When the
    provisioner answers an error the world is untouched. *)
Theorem getOrCreateShadow_request err (kubernetes : KubernetesInterface)
    (w : World) :
  KTName common ≠ KTVersion common →
  let run := getOrCreateShadow common host err kubernetes w in
  let o := options w in
  let wl := workloadName host o in
  let l := labels common (String2Map host) wl o in
  (∃ answer, run.2 = [EvGetOrCreateShadow wl l ∅ (envs common o) answer]
             ∧ (answer ≠ None → run.1.2 = w ∧ run.1.1.2 = answer))
  ∧ (ShareShadow (ConnectOptions o) = true →
     l !! KTVersion common = Some "shared")
  ∧ (ShareShadow (ConnectOptions o) = false →
     occurs "-"%char (ToLower (RandomString host 5)) = false →
     l !! KTVersion common = Some (ToLower (RandomString host 5)))
  ∧ (String2Map host (Labels o) !! KTName common = None →
     l !! KTName common = Some wl).
Proof.
  intros Hkeys run o wl l. subst run. rewrite getOrCreateShadow_run. cbv zeta.
  fold o. fold wl. fold l.
  split; [|split; [|split]].
  - exists (GetOrCreateShadow kubernetes wl o l ∅ (envs common o)).2.
    destruct (GetOrCreateShadow kubernetes wl o l ∅ (envs common o)).2;
      cbn [fst snd]; by split.
  - intros Hshare. subst l. rewrite labels_version. subst wl.
    unfold workloadName. rewrite Hshare. vm_compute. reflexivity.
  - intros Hshare Hfree. subst l. rewrite labels_version. subst wl.
    unfold workloadName. rewrite Hshare. f_equal.
    by apply (lastSplit_suffix "kt-connect-daemon").
  - intros Huser. subst l. rewrite labels_other by done. rewrite Huser.
    apply lookup_insert_eq.
Qed.

End RunProperties.

(** ** The further properties on concrete runs *)

Lemma CompleteOptions_tun_envs_witness :
  let w := Sample.world (Cases.tunOptions "10.1.1.0/24") ∅ ∅ in
  let run := CompleteOptions (SSHCredential := unit) Sample.common
               (Sample.host None) w in
  run.1.1 = None
  ∧ envs Sample.common (options run.1.2) !! "CLIENT_TUN_IP" = Some "10.1.1.1"
  ∧ envs Sample.common (options run.1.2) !! "SERVER_TUN_IP" = Some "10.1.1.2".
Proof.
  apply (CompleteOptions_tun_envs (SSHCredential := unit) Sample.common
           (Sample.host None)
           (Sample.world (Cases.tunOptions "10.1.1.0/24") ∅ ∅)
           "10.1.1.1" "10.1.1.2").
  - reflexivity.
  - vm_compute. reflexivity.
  - discriminate.
Defined.

Lemma Action_aborts_before_Connect_witness :
  let w := Sample.world (Cases.tunOptions "10.1.1.0/33") ∅ ∅ in
  let run := Action Sample.common (Sample.host None)
               (Sample.cli Sample.serviceHosts None) w in
  run.1.1 = Some (ParseError "10.1.1.0/33")
  ∧ staged 0 2 run.2 ∧ pidFiles run.1.2 = ∅.
Proof.
  apply (Action_aborts_before_Connect Sample.common (Sample.host None)
           (Sample.cli Sample.serviceHosts None)
           (Sample.world (Cases.tunOptions "10.1.1.0/33") ∅ ∅)
           (ParseError "10.1.1.0/33")).
  left. exists "10.1.1.0/33". vm_compute. apply list_elem_of_here.
Defined.

Lemma connectToCluster_stops_early_witness :
  let w := Cases.world "tun" [] in
  connectToCluster Sample.common (Cases.host (Some (Failure "read-only")) false)
    (Cases.cli None None None None) w
  = (Some (Failure "read-only"), w,
     [EvWritePidFile "/tmp/kt/connect.pid" 4242 (Some (Failure "read-only"))])
  ∧ pidFiles
      (connectToCluster Sample.common (Cases.host None false)
         (Cases.cli (Some (Failure "no cluster")) None None None) w).1.2
    !! "/tmp/kt/connect.pid" = Some 4242.
Proof.
  cbv zeta. split.
  - apply (connectToCluster_stops_early Sample.common
             (Cases.host (Some (Failure "read-only")) false)
             (Cases.cli None None None None) (Cases.world "tun" [])
             (Failure "read-only")).
    reflexivity.
  - destruct (connectToCluster_stops_early Sample.common (Cases.host None false)
                (Cases.cli (Some (Failure "no cluster")) None None None)
                (Cases.world "tun" []) (Failure "no cluster")) as [_ Hhandle].
    destruct (Hhandle eq_refl eq_refl) as (_ & -> & _).
    vm_compute. reflexivity.
Defined.

Lemma connectToCluster_dump_gate_witness :
  queriedNamespaces
    (connectToCluster Sample.common (Cases.host None false)
       (Cases.cli None None None None) (Cases.world "tun" ["ns1"; "ns2"])).2
  = ["ns1"; "ns2"]
  ∧ dumpCalls
      (connectToCluster Sample.common (Cases.host None false)
         (Cases.cli None None None None) (Cases.world "tun" [])).2
    = []
  ∧ (connectToCluster Sample.common (Cases.host None false)
       (Cases.cliWith Cases.nilPrimary) (Cases.world "tun" ["ns2"])).1.1
    = Some (Panic "assignment to entry in nil map").
Proof.
  split; [|split].
  - destruct (connectToCluster_dump_gate Sample.common (Cases.host None false)
                (Cases.cli None None None None)
                (Cases.world "tun" ["ns1"; "ns2"]) eq_refl eq_refl)
      as (Hon & _ & _).
    destruct Hon as (_ & Hq & _); [by right| |].
    + intros [Hprimary _]. vm_compute in Hprimary. discriminate.
    + rewrite Hq. vm_compute. reflexivity.
  - destruct (connectToCluster_dump_gate Sample.common (Cases.host None false)
                (Cases.cli None None None None)
                (Cases.world "tun" []) eq_refl eq_refl)
      as (_ & _ & Hoff).
    by destruct (Hoff eq_refl eq_refl).
  - destruct (connectToCluster_dump_gate Sample.common (Cases.host None false)
                (Cases.cliWith Cases.nilPrimary)
                (Cases.world "tun" ["ns2"]) eq_refl eq_refl)
      as (_ & Hpanic & _).
    destruct Hpanic as (Hres & _); [|exact Hres].
    apply (bool_decide_unpack _). vm_compute. exact I.
Defined.

Lemma connectToCluster_no_proxy_witness :
  Forall (λ ev, isProxyCall ev = false)
    (connectToCluster Sample.common (Cases.host None false)
       (Cases.cli None None None None) (Cases.world "tun" ["ns2"])).2.
Proof.
  apply Forall_forall.
  apply (connectToCluster_no_proxy Sample.common (Cases.host None false)
           (Cases.cli None None None None) (Cases.world "tun" ["ns2"])).
  discriminate.
Defined.

Lemma connectToCluster_records_shadow_witness :
  let w := Cases.world "tun" [] in
  let run := connectToCluster Sample.common (Cases.host None false)
               (Cases.cli None None (Some (Failure "no cidrs")) None) w in
  Shadow (RuntimeOptions (options run.1.2)) = "kt-connect-daemon-abcde"
  ∧ ∃ err, EvClusterCrids "ns1" err ∈ run.2.
Proof.
  cbv zeta.
  destruct (connectToCluster_records_shadow Sample.common (Cases.host None false)
              (Cases.cli None None (Some (Failure "no cidrs")) None)
              (Cases.world "tun" [])
              "kt-connect-daemon-abcde"
              (labels Sample.common Sample.parseLabels "kt-connect-daemon-abcde"
                 (options (Cases.world "tun" [])))
              ∅
              (envs Sample.common (options (Cases.world "tun" []))))
    as (_ & _ & Hshadow & Hquery).
  - vm_compute. do 3 apply list_elem_of_further. apply list_elem_of_here.
  - split; [exact Hshadow|exact Hquery].
Defined.

Lemma connectToCluster_crids_failure_witness :
  let w := Cases.world "tun" [] in
  let run := connectToCluster Sample.common (Cases.host None false)
               (Cases.cli None None (Some (Failure "no cidrs")) None) w in
  run.1.1 = Some (Failure "no cidrs")
  ∧ Shadow (RuntimeOptions (options run.1.2)) = "kt-connect-daemon-abcde".
Proof.
  cbv zeta.
  destruct (connectToCluster_crids_failure Sample.common (Cases.host None false)
              (Cases.cli None None (Some (Failure "no cidrs")) None)
              (Cases.world "tun" []) "ns1" (Failure "no cidrs"))
    as (Hres & _ & _ & Hshadow).
  - vm_compute. do 4 apply list_elem_of_further. apply list_elem_of_here.
  - split; [exact Hres|exact Hshadow].
Defined.

Lemma connectToCluster_hand_off_witness :
  let w := Cases.world "tun" [] in
  let run := connectToCluster Sample.common (Cases.host None false)
               (Cases.cli None None None (Some (Failure "tunnel down"))) w in
  run.1.1 = Some (Failure "tunnel down")
  ∧ Shadow (RuntimeOptions (options run.1.2)) = "kt-connect-daemon-abcde".
Proof.
  cbv zeta.
  destruct (connectToCluster_hand_off Sample.common (Cases.host None false)
              (Cases.cli None None None (Some (Failure "tunnel down")))
              (Cases.world "tun" [])
              "kt-connect-daemon-abcde-pod" "10.0.0.7" (Some tt)
              ["10.0.0.0/16"; "172.21.0.0/16"] (Some (Failure "tunnel down")))
    as (Hres & _ & _ & _ & Hshadow).
  - vm_compute. do 5 apply list_elem_of_further. apply list_elem_of_here.
  - split; [exact Hres|exact Hshadow].
Defined.

Lemma mergeNamespace_any_order_witness :
  mergeEntries "ns2" [("svcB", ""); ("svcA", "2.2.2.2")] {[ "svcA" := "1.1.1.1" ]}
  = mergeNamespace Sample.serviceHosts "ns1" "ns2" {[ "svcA" := "1.1.1.1" ]}
  ∧ mergeEntries "ns2" [("svcA", "2.2.2.2"); ("svcB", "")] {[ "svcA" := "1.1.1.1" ]}
    = mergeNamespace Sample.serviceHosts "ns1" "ns2" {[ "svcA" := "1.1.1.1" ]}.
Proof.
  split.
  - apply (mergeNamespace_any_order Sample.serviceHosts "ns1" "ns2");
      [discriminate|].
    vm_compute. first [reflexivity | apply perm_swap].
  - apply (mergeNamespace_any_order Sample.serviceHosts "ns1" "ns2");
      [discriminate|].
    vm_compute. first [reflexivity | apply perm_swap].
Defined.

Lemma getOrCreateShadow_request_witness :
  let shared := Sample.world (Sample.daemonOptions ""
                  (Sample.connectOptions "tun" true [] "")) ∅ ∅ in
  labels Sample.common Sample.parseLabels
    (workloadName (Sample.host None) (options shared)) (options shared)
  !! "version" = Some "shared"
  ∧ labels Sample.common Sample.parseLabels
      (workloadName (Sample.host None) (options (Cases.world "tun" [])))
      (options (Cases.world "tun" []))
    !! "version" = Some "abcde".
Proof.
  cbv zeta. split.
  - destruct (getOrCreateShadow_request Sample.common (Sample.host None) None
                (Sample.kubernetes Sample.serviceHosts None)
                (Sample.world (Sample.daemonOptions ""
                   (Sample.connectOptions "tun" true [] "")) ∅ ∅))
      as (_ & Hshared & _); [discriminate|].
    apply Hshared. reflexivity.
  - destruct (getOrCreateShadow_request Sample.common (Sample.host None) None
                (Sample.kubernetes Sample.serviceHosts None)
                (Cases.world "tun" []))
      as (_ & _ & Hown & _); [discriminate|].
    apply Hown; reflexivity.
Defined.
